(** * The data pool of libmaxminddb (src/data-pool.c, src/data-pool.h)

    A shallow embedding of the pool allocator for [MMDB_entry_data_list_s]
    structs, together with the properties of its specification.

    The C code lives on the heap: a pool struct, a directory of block
    pointers and the blocks themselves are separate allocations, linked by
    pointers.  The embedding therefore threads an explicit heap through
    every function, in a small monad whose outcomes distinguish a normal
    return from undefined behaviour and from a loop that ran out of fuel. *)

From Stdlib Require Import ZArith Lia.
From stdpp Require Import gmap list.

Local Open Scope Z_scope.

(** Addresses of allocations.  A pointer to a node is an allocation address
    plus an element offset, the way [block + used] is formed in C. *)
Abbreviation addr := positive (only parsing).
Abbreviation nptr := (positive * Z)%type (only parsing).

(** ** Overflow guard *)

(** [can_multiply], data-pool.c lines 65-72.  [size_t] values are modelled
    as non-negative integers; unsigned division is [Z.div]. *)
Definition can_multiply (max m n : Z) : bool :=
  if m =? 0 then false else n <=? max / m.

Section DataPool.

(** ** Platform constants

    [SIZE_MAX] and the two [sizeof] values come from the C implementation
    and from maxminddb.h; they are parameters of the development.  The
    payload [MMDB_entry_data_s] is opaque to the pool. *)
Variable SIZE_MAX : Z.
Variable sizeof_ptr : Z.     (* sizeof(MMDB_entry_data_list_s * ) *)
Variable sizeof_entry : Z.   (* sizeof(MMDB_entry_data_list_s) *)
Variable MMDB_entry_data_s : Type.
Variable entry_data_zero : MMDB_entry_data_s.

(** Arithmetic on [size_t] wraps around modulo [SIZE_MAX + 1]. *)
Definition wrap (x : Z) : Z := x mod (SIZE_MAX + 1).

(** ** Data model *)

Record MMDB_entry_data_list_s : Type := mk_node {
  entry_data : MMDB_entry_data_s;
  next : option nptr;
  head : bool
}.

Record MMDB_data_pool_s : Type := mk_pool {
  blocks : option addr;
  count : Z;
  index : Z;
  size : Z;
  used : Z
}.

Definition set_next (v : option nptr) (n : MMDB_entry_data_list_s) :=
  mk_node (entry_data n) v (head n).
Definition set_head (v : bool) (n : MMDB_entry_data_list_s) :=
  mk_node (entry_data n) (next n) v.

Definition set_blocks (v : option addr) (p : MMDB_data_pool_s) :=
  mk_pool v (count p) (index p) (size p) (used p).
Definition set_count (v : Z) (p : MMDB_data_pool_s) :=
  mk_pool (blocks p) v (index p) (size p) (used p).
Definition set_index (v : Z) (p : MMDB_data_pool_s) :=
  mk_pool (blocks p) (count p) v (size p) (used p).
Definition set_size (v : Z) (p : MMDB_data_pool_s) :=
  mk_pool (blocks p) (count p) (index p) v (used p).
Definition set_used (v : Z) (p : MMDB_data_pool_s) :=
  mk_pool (blocks p) (count p) (index p) (size p) v.

(** What [calloc] hands out: all bytes zero. *)
Definition zero_node : MMDB_entry_data_list_s := mk_node entry_data_zero None false.
Definition zero_pool : MMDB_data_pool_s := mk_pool None 0 0 0 0.

(** ** The heap *)

(** One allocation is a pool struct, an array of block pointers, or an
    array of nodes. *)
Inductive object : Type :=
| OPool (p : MMDB_data_pool_s)
| ODir (slots : list (option nptr))
| OBlock (nodes : list MMDB_entry_data_list_s).

(** [objs] holds the live allocations.  [supply] is the oracle of the
    memory allocator: one decision per [calloc] call, [true] for success
    (an empty supply means no memory is left).  [freed] logs, in order,
    the address of every allocation released by [free]. *)
Record heap : Type := mk_heap {
  objs : gmap positive object;
  supply : list bool;
  freed : list positive
}.

(** ** The monad *)

Inductive outcome (A : Type) : Type :=
| Ok (a : A) (h : heap)    (* the call returned [a] *)
| Fault                    (* undefined behaviour: invalid access or free *)
| OutOfFuel.               (* a loop did not finish within the fuel given *)
Arguments Ok {A} a h.
Arguments Fault {A}.
Arguments OutOfFuel {A}.

Definition M (A : Type) : Type := heap → outcome A.

#[local] Instance M_ret : MRet M := λ A a h, Ok a h.
#[local] Instance M_bind : MBind M := λ A B f m h,
  match m h with
  | Ok a h' => f a h'
  | Fault => Fault
  | OutOfFuel => OutOfFuel
  end.

Definition fault {A} : M A := λ _, Fault.
Definition out_of_fuel {A} : M A := λ _, OutOfFuel.

(** ** Memory primitives *)

(** [calloc]: on success a fresh address holding the zeroed object.
    Whether it succeeds is up to the oracle alone; the callers check that
    the byte count is representable before they call. *)
Definition calloc (o : object) : M (option addr) := λ h,
  match supply h with
  | true :: rest =>
      let a := fresh (dom (objs h)) in
      Ok (Some a) (mk_heap (<[a := o]> (objs h)) rest (freed h))
  | false :: rest => Ok None (mk_heap (objs h) rest (freed h))
  | [] => Ok None h
  end.

(** [free]: a null pointer is ignored; anything else must be the address
    of a live allocation. *)
Definition free (p : option addr) : M unit := λ h,
  match p with
  | None => Ok tt h
  | Some a =>
      match objs h !! a with
      | Some _ => Ok tt (mk_heap (delete a (objs h)) (supply h) (freed h ++ [a]))
      | None => Fault
      end
  end.

(** [free] of a node pointer: it must point to the start of its block. *)
Definition free_node (p : option nptr) : M unit :=
  match p with
  | None => mret tt
  | Some (a, o) => if o =? 0 then free (Some a) else fault
  end.

Definition load_pool (a : addr) : M MMDB_data_pool_s := λ h,
  match objs h !! a with
  | Some (OPool p) => Ok p h
  | _ => Fault
  end.

Definition store_pool (a : addr) (p : MMDB_data_pool_s) : M unit := λ h,
  match objs h !! a with
  | Some (OPool _) => Ok tt (mk_heap (<[a := OPool p]> (objs h)) (supply h) (freed h))
  | _ => Fault
  end.

(** [pool->field = v] *)
Definition modify_pool (a : addr) (f : MMDB_data_pool_s → MMDB_data_pool_s) : M unit :=
  p ← load_pool a; store_pool a (f p).

(** [dir[i]] for a directory pointer [dir]. *)
Definition load_slot (dir : option addr) (i : Z) : M (option nptr) := λ h,
  match dir with
  | None => Fault
  | Some d =>
      match objs h !! d with
      | Some (ODir slots) =>
          if 0 <=? i then
            match slots !! Z.to_nat i with
            | Some v => Ok v h
            | None => Fault
            end
          else Fault
      | _ => Fault
      end
  end.

(** [dir[i] = v] *)
Definition store_slot (dir : option addr) (i : Z) (v : option nptr) : M unit := λ h,
  match dir with
  | None => Fault
  | Some d =>
      match objs h !! d with
      | Some (ODir slots) =>
          if (0 <=? i) && (i <? Z.of_nat (length slots)) then
            Ok tt (mk_heap (<[d := ODir (<[Z.to_nat i := v]> slots)]> (objs h))
                           (supply h) (freed h))
          else Fault
      | _ => Fault
      end
  end.

(** [*p] for a node pointer [p]. *)
Definition load_node (p : nptr) : M MMDB_entry_data_list_s := λ h,
  match objs h !! p.1 with
  | Some (OBlock nodes) =>
      if 0 <=? p.2 then
        match nodes !! Z.to_nat p.2 with
        | Some n => Ok n h
        | None => Fault
        end
      else Fault
  | _ => Fault
  end.

Definition store_node (p : nptr) (n : MMDB_entry_data_list_s) : M unit := λ h,
  match objs h !! p.1 with
  | Some (OBlock nodes) =>
      if (0 <=? p.2) && (p.2 <? Z.of_nat (length nodes)) then
        Ok tt (mk_heap (<[p.1 := OBlock (<[Z.to_nat p.2 := n]> nodes)]> (objs h))
                       (supply h) (freed h))
      else Fault
  | _ => Fault
  end.

(** [p->field = v] *)
Definition modify_node (p : nptr)
    (f : MMDB_entry_data_list_s → MMDB_entry_data_list_s) : M unit :=
  n ← load_node p; store_node p (f n).

(** [p + k] on a node pointer; arithmetic on a null pointer is undefined. *)
Definition ptr_add (p : option nptr) (k : Z) : M nptr :=
  match p with
  | None => fault
  | Some (a, o) => mret (a, o + k)
  end.

(** [calloc(n, sizeof(MMDB_entry_data_list_s))] *)
Definition calloc_block (n : Z) : M (option nptr) :=
  a ← calloc (OBlock (replicate (Z.to_nat n) zero_node));
  mret (match a with Some a => Some (a, 0) | None => None end).

(** ** data_pool_destroy, data-pool.c lines 80-97 *)

(** The loop [for (i = 0; i <= pool->index; i++) free(pool->blocks[i]);].
    [n] is the number of iterations left.  The body cannot change
    [pool->index] without the next read of the pool being a fault, so the
    trip count [index + 1] is fixed when the loop is entered.  (With
    [index = SIZE_MAX] the C loop has no exit; it runs off the directory
    long before, which is a fault here as well.) *)
Fixpoint free_blocks (pool : addr) (n : nat) (i : Z) : M unit :=
  match n with
  | O => mret tt
  | S n' =>
      p ← load_pool pool;
      b ← load_slot (blocks p) i;
      free_node b;;
      free_blocks pool n' (wrap (i + 1))
  end.

Definition data_pool_destroy (pool : option addr) (keep_list : bool) : M unit :=
  match pool with
  | None => mret tt
  | Some pool =>
      p ← load_pool pool;
      (match blocks p with
       | Some _ =>
           (if negb keep_list
            then free_blocks pool (Z.to_nat (index p + 1)) 0
            else mret tt);;
           p ← load_pool pool;
           free (blocks p)
       | None => mret tt
       end);;
      free (Some pool)
  end.

(** ** data_pool_new, data-pool.c lines 16-59 *)

Definition data_pool_new (sz : Z) : M (option addr) :=
  pool ← calloc (OPool zero_pool);
  match pool with
  | None => mret None
  | Some pool =>
      modify_pool pool (set_count 32);;
      p ← load_pool pool;
      if negb (can_multiply SIZE_MAX (count p) sizeof_ptr) then
        data_pool_destroy (Some pool) false;; mret None
      else
        dir ← calloc (ODir (replicate (Z.to_nat (count p)) None));
        modify_pool pool (set_blocks dir);;
        p ← load_pool pool;
        match blocks p with
        | None => data_pool_destroy (Some pool) false;; mret None
        | Some _ =>
            if (sz =? 0) || negb (can_multiply SIZE_MAX sz sizeof_entry) then
              data_pool_destroy (Some pool) false;; mret None
            else
              modify_pool pool (set_size sz);;
              p ← load_pool pool;
              blk ← calloc_block (size p);
              p ← load_pool pool;
              store_slot (blocks p) (index p) blk;;
              p ← load_pool pool;
              b ← load_slot (blocks p) (index p);
              match b with
              | None => data_pool_destroy (Some pool) false;; mret None
              | Some b =>
                  modify_node b (set_head true);;
                  mret (Some pool)
              end
        end
  end.

(** ** data_pool_alloc, data-pool.c lines 101-152 *)

Definition data_pool_alloc (pool : addr) : M (option nptr) :=
  p ← load_pool pool;
  if used p <? size p then
    b ← load_slot (blocks p) (index p);
    element ← ptr_add b (used p);
    (if 0 <? used p then
       b ← load_slot (blocks p) (index p);
       q ← ptr_add b (used p);
       prev ← ptr_add (Some q) (-1);
       modify_node prev (set_next (Some element))
     else mret tt);;
    p ← load_pool pool;
    modify_pool pool (set_used (wrap (used p + 1)));;
    mret (Some element)
  else
    let new_index := wrap (index p + 1) in
    if new_index =? count p then mret None
    else if negb (can_multiply SIZE_MAX (size p) 2) then mret None
    else
      let new_size := wrap (size p * 2) in
      if negb (can_multiply SIZE_MAX new_size sizeof_entry) then mret None
      else
        blk ← calloc_block new_size;
        store_slot (blocks p) new_index blk;;
        p ← load_pool pool;
        b ← load_slot (blocks p) new_index;
        match b with
        | None => mret None
        | Some b =>
            modify_node b (set_head true);;
            modify_pool pool (set_index new_index);;
            p ← load_pool pool;
            b ← load_slot (blocks p) (wrap (index p - 1));
            q ← ptr_add b (size p);
            prev ← ptr_add (Some q) (-1);
            modify_pool pool (set_size new_size);;
            p ← load_pool pool;
            b ← load_slot (blocks p) (index p);
            element ← ptr_add b 0;
            modify_node prev (set_next (Some element));;
            modify_pool pool (set_used 1);;
            mret (Some element)
        end.

(** ** data_pool_get_list_head, data-pool.c lines 179-192 *)

(** [fuel] bounds the number of iterations of the [while] loop. *)
Fixpoint data_pool_get_list_head (fuel : nat) (element : option nptr)
    : M (option nptr) :=
  match element with
  | None => mret None
  | Some e =>
      match fuel with
      | O => out_of_fuel
      | S fuel' =>
          n ← load_node e;
          if head n then mret (Some e)
          else data_pool_get_list_head fuel' (next n)
      end
  end.

(** ** data_pool_list_destroy, data-pool.c lines 158-177 *)

(** [fuel] bounds the iterations of the outer loop and, in each of them,
    those of the scan for the next head. *)
Fixpoint data_pool_list_destroy (fuel : nat) (element : option nptr) : M bool :=
  match element with
  | None => mret true
  | Some e =>
      match fuel with
      | O => out_of_fuel
      | S fuel' =>
          n ← load_node e;
          if negb (head n) then mret false
          else
            next_element ← data_pool_get_list_head fuel' (next n);
            free_node (Some e);;
            data_pool_list_destroy fuel' next_element
      end
  end.

(** ** Repeated allocation *)

(** [n] calls of [data_pool_alloc] in a row, collecting what they return. *)
Fixpoint alloc_n (pool : addr) (n : nat) : M (list (option nptr)) :=
  match n with
  | O => mret []
  | S n' =>
      r ← data_pool_alloc pool;
      rs ← alloc_n pool n';
      mret (r :: rs)
  end.

(** ** What the specification talks about *)

(** [size_t] is at least 16 bits wide (C99 7.18.3). *)
Hypothesis SIZE_MAX_ge : 65535 <= SIZE_MAX.

(** The directory of a pool whose blocks are [bs], oldest first: the
    pointers to their first nodes, then null slots up to 32. *)
Definition dir_slots (bs : list addr) : list (option nptr) :=
  ((λ b, Some (b, 0)) <$> bs) ++ replicate (32 - length bs) None.

(** Capacity of block [k] of a pool created with size [s]. *)
Definition capacity (s : Z) (k : nat) : Z := s * 2 ^ Z.of_nat k.

(** Node [i] of block [k] (at address [b]) is as the allocator leaves it:
    flagged exactly when it is the first of its block; linked to its
    successor in the block, or across the boundary to the first node of
    the next block; in the active block, where [u] nodes are in use, the
    last node handed out and the unused ones have a null link. *)
Definition node_ok (s : Z) (bs : list addr) (u : Z) (k : nat) (b : addr)
    (i : nat) (nd : MMDB_entry_data_list_s) : Prop :=
  head nd = bool_decide (i = 0%nat) ∧
  next nd =
    if decide (S k = length bs) then
      if decide (Z.of_nat (S i) < u) then Some (b, Z.of_nat (S i)) else None
    else
      if decide (Z.of_nat (S i) < capacity s k) then Some (b, Z.of_nat (S i))
      else (λ b', (b', 0)) <$> bs !! S k.

Definition block_inv (s : Z) (bs : list addr) (u : Z)
    (m : gmap positive object) (k : nat) (b : addr) : Prop :=
  ∃ nodes, m !! b = Some (OBlock nodes) ∧
    Z.of_nat (length nodes) = capacity s k ∧
    ∀ i nd, nodes !! i = Some nd → node_ok s bs u k b i nd.

(** The pool at address [pool], created with size [s], owns the blocks
    [bs] (oldest first) and has handed out [u] nodes of the last one. *)
Definition pool_inv (s : Z) (pool : addr) (bs : list addr) (u : Z)
    (m : gmap positive object) : Prop :=
  ∃ d,
    m !! pool = Some (OPool (mk_pool (Some d) 32 (Z.of_nat (length bs) - 1)
                                     (capacity s (length bs - 1)) u)) ∧
    m !! d = Some (ODir (dir_slots bs)) ∧
    (1 <= length bs <= 32)%nat ∧ NoDup bs ∧
    0 < s ∧ capacity s (length bs - 1) <= SIZE_MAX ∧
    0 <= u <= capacity s (length bs - 1) ∧
    ∀ k b, bs !! k = Some b → block_inv s bs u m k b.

(** A chain of blocks, as the list disposer sees it: each entry is the
    address of a block and the number of its nodes that are on the chain. *)
Definition chain_start (c : list (addr * nat)) : option nptr :=
  match c with
  | [] => None
  | (b, _) :: _ => Some (b, 0)
  end.

(** The first [n] nodes of block [b] are on the chain: the first is
    flagged [head], the others are not; each is linked to the next one,
    and the last of them to [nxt]. *)
Definition block_ok (m : gmap positive object) (b : addr) (n : nat)
    (nxt : option nptr) : Prop :=
  ∃ nodes, m !! b = Some (OBlock nodes) ∧ (0 < n <= length nodes)%nat ∧
    ∀ i nd, (i < n)%nat → nodes !! i = Some nd →
      head nd = bool_decide (i = 0%nat) ∧
      next nd = if decide (S i = n) then nxt else Some (b, Z.of_nat (S i)).

Fixpoint chain_ok (m : gmap positive object) (c : list (addr * nat)) : Prop :=
  match c with
  | [] => True
  | (b, n) :: rest => block_ok m b n (chain_start rest) ∧ chain_ok m rest
  end.

(** Well-formed: the blocks are distinct allocations and exactly the
    first node of each is flagged. *)
Definition well_formed_chain (m : gmap positive object)
    (c : list (addr * nat)) : Prop :=
  NoDup c.*1 ∧ chain_ok m c.

Definition chain_nodes (c : list (addr * nat)) : nat := sum_list c.*2.

(** The chain a pool has built: every block but the last in full, and of
    the last one the [u] nodes handed out (its first node, flagged at
    creation, when none has been handed out yet). *)
Fixpoint pool_chain_from (s : Z) (len : nat) (u : Z) (k : nat)
    (bs : list addr) : list (addr * nat) :=
  match bs with
  | [] => []
  | b :: bs' =>
      (b, if decide (S k = len) then Z.to_nat (Z.max u 1)
          else Z.to_nat (capacity s k))
      :: pool_chain_from s len u (S k) bs'
  end.

Definition pool_chain (s : Z) (bs : list addr) (u : Z) : list (addr * nat) :=
  pool_chain_from s (length bs) u 0 bs.

(** Releasing several allocations. *)
Definition delete_all (l : list addr) (m : gmap positive object)
    : gmap positive object :=
  foldl (λ m a, delete a m) m l.

(** What a failed [data_pool_new] leaves behind: the live allocations
    are those from before the call, and whatever the call released was
    allocated by the call itself. *)
Definition new_failed (h h' : heap) : Prop :=
  objs h' = objs h ∧
  ∃ l, freed h' = freed h ++ l ∧ Forall (λ a, objs h !! a = None) l.

(** What [data_pool_new] guarantees for each of its two results.  A pool
    comes with three successful memory acquisitions and is consistent,
    with one block and no node handed out. *)
Definition new_post (sz : Z) (h : heap) (r : option addr) (h' : heap) : Prop :=
  match r with
  | None => new_failed h h'
  | Some pool =>
      ∃ b0 rest,
        supply h = true :: true :: true :: rest ∧
        supply h' = rest ∧ freed h' = freed h ∧
        pool_inv sz pool [b0] 0 (objs h') ∧
        objs h !! pool = None ∧ objs h !! b0 = None ∧
        ∀ a o, objs h !! a = Some o → objs h' !! a = Some o
  end.

(** Reading the heap. *)
Definition pool_at (h : heap) (pool : addr) : option MMDB_data_pool_s :=
  match objs h !! pool with
  | Some (OPool p) => Some p
  | _ => None
  end.

Definition node_at (h : heap) (p : nptr) : option MMDB_entry_data_list_s :=
  match objs h !! p.1 with
  | Some (OBlock nodes) => if 0 <=? p.2 then nodes !! Z.to_nat p.2 else None
  | _ => None
  end.

(** [pool->blocks[i]] *)
Definition slot_at (h : heap) (pool : addr) (i : Z) : option (option nptr) :=
  match pool_at h pool with
  | Some p =>
      match blocks p with
      | Some d =>
          match objs h !! d with
          | Some (ODir slots) => if 0 <=? i then slots !! Z.to_nat i else None
          | _ => None
          end
      | None => None
      end
  | None => None
  end.

(** Number of nodes of the block allocated at [b]. *)
Definition block_capacity (h : heap) (b : addr) : option Z :=
  match objs h !! b with
  | Some (OBlock nodes) => Some (Z.of_nat (length nodes))
  | _ => None
  end.

(** * Properties *)

(** ** Stepping through monadic code *)

Lemma bind_unfold {A B} (m : M A) (k : A → M B) (h : heap) :
  (m ≫= k) h =
  match m h with
  | Ok a h' => k a h'
  | Fault => Fault
  | OutOfFuel => OutOfFuel
  end.
Proof. reflexivity. Qed.

Lemma bind_Ok {A B} (m : M A) (k : A → M B) (h h' : heap) (a : A) :
  m h = Ok a h' → (m ≫= k) h = k a h'.
Proof. intros E. rewrite bind_unfold, E. reflexivity. Qed.

Lemma ret_unfold {A} (a : A) (h : heap) : (mret a : M A) h = Ok a h.
Proof. reflexivity. Qed.

Lemma load_pool_Ok a p h :
  objs h !! a = Some (OPool p) → load_pool a h = Ok p h.
Proof. intros E. unfold load_pool. rewrite E. reflexivity. Qed.

Lemma store_pool_Ok a p q h :
  objs h !! a = Some (OPool p) →
  store_pool a q h = Ok tt (mk_heap (<[a := OPool q]> (objs h)) (supply h) (freed h)).
Proof. intros E. unfold store_pool. rewrite E. reflexivity. Qed.

Lemma modify_pool_Ok a f p h :
  objs h !! a = Some (OPool p) →
  modify_pool a f h = Ok tt (mk_heap (<[a := OPool (f p)]> (objs h)) (supply h) (freed h)).
Proof.
  intros E. unfold modify_pool.
  rewrite (bind_Ok _ _ _ _ _ (load_pool_Ok _ _ _ E)).
  apply (store_pool_Ok _ p). exact E.
Qed.

Lemma free_Ok a o h :
  objs h !! a = Some o →
  free (Some a) h = Ok tt (mk_heap (delete a (objs h)) (supply h) (freed h ++ [a])).
Proof. intros E. unfold free. rewrite E. reflexivity. Qed.

(** ** C3: the overflow guard *)

(** For a positive [m] and a non-negative [n] the quotient test is the
    test on the exact product, which the code never forms. *)
Lemma can_multiply_product (max m n : Z) :
  0 < m → (n <= max / m ↔ m * n <= max).
Proof.
  intros Hm. split; intros H.
  - pose proof (Z.mul_div_le max m Hm). nia.
  - apply Z.div_le_lower_bound; lia.
Qed.

Lemma can_multiply_zero (max n : Z) : can_multiply max 0 n = false.
Proof. reflexivity. Qed.

Lemma can_multiply_pos (max m n : Z) :
  0 < m → (can_multiply max m n = true ↔ n <= max / m).
Proof.
  intros Hm. unfold can_multiply.
  destruct (Z.eqb_spec m 0) as [E|_]; [lia|]. apply Z.leb_le.
Qed.

(** C3.  [can_multiply max 0 n] is false whatever [max] and [n] are, and
    for a positive [m] the guard answers true exactly when [n <= max / m]
    with integer division. *)
Theorem can_multiply_spec (max m n : Z) :
  (m = 0 → can_multiply max m n = false) ∧
  (0 < m → (can_multiply max m n = true ↔ n <= max / m)).
Proof.
  split.
  - intros ->. apply can_multiply_zero.
  - apply can_multiply_pos.
Qed.

(** ** C10: disposing of the empty list *)

(** C10.  [data_pool_list_destroy(NULL)] returns true, frees nothing and
    leaves the heap as it is, without entering the loop. *)
Theorem data_pool_list_destroy_null (fuel : nat) (h : heap) :
  data_pool_list_destroy fuel None h = Ok true h.
Proof. destruct fuel; reflexivity. Qed.

(** ** The block directory *)

Lemma dir_slots_length bs :
  (length bs <= 32)%nat → length (dir_slots bs) = 32%nat.
Proof. intros H. unfold dir_slots. rewrite length_app, length_fmap, length_replicate. lia. Qed.

Lemma dir_slots_lookup_lt bs k b :
  bs !! k = Some b → dir_slots bs !! k = Some (Some (b, 0)).
Proof.
  intros E. unfold dir_slots. rewrite lookup_app_l.
  - rewrite list_lookup_fmap, E. reflexivity.
  - rewrite length_fmap. eapply lookup_lt_Some; eauto.
Qed.

Lemma dir_slots_lookup_ge bs k :
  (length bs <= k < 32)%nat → dir_slots bs !! k = Some None.
Proof.
  intros H. unfold dir_slots. rewrite lookup_app_r; rewrite length_fmap; [|lia].
  apply lookup_replicate_2. lia.
Qed.

Lemma dir_slots_snoc bs b :
  (length bs < 32)%nat →
  <[length bs := Some (b, 0)]> (dir_slots bs) = dir_slots (bs ++ [b]).
Proof.
  intros H. unfold dir_slots.
  rewrite insert_app_r_alt; rewrite length_fmap; [|lia].
  rewrite Nat.sub_diag, fmap_app, length_app. simpl.
  replace (32 - length bs)%nat with (S (32 - (length bs + 1))) by lia.
  simpl. rewrite <- app_assoc. reflexivity.
Qed.

(** ** Reads and writes that succeed *)

Lemma load_slot_Ok d slots i v h :
  objs h !! d = Some (ODir slots) → 0 <= i → slots !! Z.to_nat i = Some v →
  load_slot (Some d) i h = Ok v h.
Proof.
  intros E Hi Hv. unfold load_slot. rewrite E.
  destruct (Z.leb_spec 0 i); [|lia]. rewrite Hv. reflexivity.
Qed.

Lemma store_slot_Ok d slots i v h :
  objs h !! d = Some (ODir slots) → 0 <= i < Z.of_nat (length slots) →
  store_slot (Some d) i v h =
  Ok tt (mk_heap (<[d := ODir (<[Z.to_nat i := v]> slots)]> (objs h)) (supply h) (freed h)).
Proof.
  intros E Hi. unfold store_slot. rewrite E.
  destruct (Z.leb_spec 0 i); [|lia].
  destruct (Z.ltb_spec i (Z.of_nat (length slots))); [|lia]. reflexivity.
Qed.

Lemma load_node_Ok b o nodes nd h :
  objs h !! b = Some (OBlock nodes) → 0 <= o → nodes !! Z.to_nat o = Some nd →
  load_node (b, o) h = Ok nd h.
Proof.
  intros E Ho Hn. unfold load_node. simpl. rewrite E.
  destruct (Z.leb_spec 0 o); [|lia]. rewrite Hn. reflexivity.
Qed.

Lemma modify_node_Ok b o nodes nd f h :
  objs h !! b = Some (OBlock nodes) → 0 <= o → nodes !! Z.to_nat o = Some nd →
  modify_node (b, o) f h =
  Ok tt (mk_heap (<[b := OBlock (<[Z.to_nat o := f nd]> nodes)]> (objs h)) (supply h) (freed h)).
Proof.
  intros E Ho Hn. unfold modify_node.
  rewrite (bind_Ok _ _ _ _ _ (load_node_Ok _ _ _ _ _ E Ho Hn)).
  unfold store_node. simpl. rewrite E.
  destruct (Z.leb_spec 0 o); [|lia].
  apply lookup_lt_Some in Hn.
  destruct (Z.ltb_spec o (Z.of_nat (length nodes))); [|lia]. reflexivity.
Qed.

(** ** [data_pool_alloc] on a consistent pool *)

(** The pool struct, the directory and the blocks are distinct
    allocations. *)
Lemma pool_inv_kinds s pool bs u m d :
  m !! pool = Some (OPool (mk_pool (Some d) 32 (Z.of_nat (length bs) - 1)
                                     (capacity s (length bs - 1)) u)) →
  m !! d = Some (ODir (dir_slots bs)) →
  (∀ k b, bs !! k = Some b → block_inv s bs u m k b) →
  pool ≠ d ∧ ∀ k b, bs !! k = Some b → b ≠ pool ∧ b ≠ d.
Proof.
  intros Hp Hd Hb. split; [congruence|].
  intros k b E. destruct (Hb k b E) as (nodes & En & _).
  split; congruence.
Qed.

Ltac lk :=
  cbn [objs supply freed];
  repeat (rewrite lookup_insert_eq || rewrite lookup_insert_ne by congruence).

Ltac use_load_pool :=
  match goal with
  | |- context [load_pool ?a ?h] =>
      erewrite (load_pool_Ok a _ h) by (lk; first [eassumption | reflexivity])
  end.
Ltac use_modify_pool :=
  match goal with
  | |- context [modify_pool ?a ?f ?h] =>
      erewrite (modify_pool_Ok a f _ h) by (lk; first [eassumption | reflexivity])
  end.

(** The active block has room: the next node is handed out and linked
    from its predecessor. *)
Lemma alloc_in_block s pool bs u h :
  pool_inv s pool bs u (objs h) →
  u < capacity s (length bs - 1) →
  ∃ b h', last bs = Some b ∧
    data_pool_alloc pool h = Ok (Some (b, u)) h' ∧
    supply h' = supply h ∧ freed h' = freed h ∧
    pool_inv s pool bs (u + 1) (objs h').
Proof.
  intros (d & Hp & Hd & Hlen & Hnd & Hs & Hcap & Hu & Hb) Hlt.
  destruct (pool_inv_kinds _ _ _ _ _ _ Hp Hd Hb) as [Hpd Hk].
  assert (∃ b, bs !! (length bs - 1)%nat = Some b) as [b Eb].
  { apply lookup_lt_is_Some. lia. }
  destruct (Hk _ _ Eb) as [Hbp Hbd].
  destruct (Hb _ _ Eb) as (nodes & En & Hnl & Hnodes).
  pose proof (dir_slots_lookup_lt _ _ _ Eb) as Eslot.
  assert (Eidx : Z.to_nat (Z.of_nat (length bs) - 1) = (length bs - 1)%nat) by lia.
  assert (Hslot : load_slot (Some d) (Z.of_nat (length bs) - 1) h = Ok (Some (b, 0)) h).
  { apply (load_slot_Ok _ _ _ _ _ Hd); [lia|]. rewrite Eidx. exact Eslot. }
  exists b.
  unfold data_pool_alloc.
  rewrite (bind_Ok _ _ _ _ _ (load_pool_Ok _ _ _ Hp)). cbn [used size blocks index].
  destruct (Z.ltb_spec u (capacity s (length bs - 1))); [|lia].
  rewrite (bind_Ok _ _ _ _ _ Hslot).
  rewrite bind_unfold. cbn [ptr_add]. rewrite ret_unfold.
  destruct (Z.ltb_spec 0 u) as [Hpos|Hzero].
  - rewrite bind_unfold.
    rewrite (bind_Ok _ _ _ _ _ Hslot).
    rewrite bind_unfold. cbn [ptr_add]. rewrite ret_unfold.
    rewrite bind_unfold. cbn [ptr_add]. rewrite ret_unfold.
    assert (∃ nd, nodes !! Z.to_nat (0 + u + -1) = Some nd) as [nd End].
    { apply lookup_lt_is_Some. lia. }
    rewrite (modify_node_Ok b (0 + u + -1) nodes nd _ _ En ltac:(lia) End).
    rewrite bind_unfold. use_load_pool.
    rewrite bind_unfold. use_modify_pool.
    rewrite ret_unfold. cbn [used set_used blocks count index size].
    eexists. split; [ by rewrite last_lookup, <- Eb; f_equal; lia |].
    split; [ do 3 f_equal; lia |].
    split; [reflexivity|]. split; [reflexivity|].
    exists d. lk. unfold wrap. rewrite Z.mod_small by lia.
    split; [reflexivity|]. split; [exact Hd|].
    do 5 (split; [assumption || lia|]).
    intros k b' Ek. destruct (decide (b' = b)) as [->|Hne].
    + assert (k = (length bs - 1)%nat) as -> by (eapply NoDup_lookup; eauto).
      exists (<[Z.to_nat (0 + u + -1) := set_next (Some (b, 0 + u)) nd]> nodes).
      lk. split; [reflexivity|]. rewrite length_insert. split; [exact Hnl|].
      intros i ndi Ei.
      destruct (decide (i = Z.to_nat (0 + u + -1))) as [->|Hi].
      * rewrite list_lookup_insert_eq in Ei by (eapply lookup_lt_Some; eauto).
        injection Ei as <-.
        destruct (Hnodes _ _ End) as [Hh Hn].
        split; [exact Hh|]. cbn [next set_next].
        rewrite decide_True by lia. rewrite decide_True by lia.
        do 2 f_equal. lia.
      * rewrite list_lookup_insert_ne in Ei by congruence.
        destruct (Hnodes _ _ Ei) as [Hh Hn].
        split; [exact Hh|]. rewrite Hn.
        repeat case_decide; first [reflexivity | lia].
    + destruct (Hk _ _ Ek) as [Hbp' Hbd'].
      destruct (Hb _ _ Ek) as (nodes' & En' & Hnl' & Hnodes').
      exists nodes'. lk. split; [exact En'|]. split; [exact Hnl'|].
      intros i ndi Ei. destruct (Hnodes' _ _ Ei) as [Hh Hn].
      split; [exact Hh|]. rewrite Hn.
      assert (k ≠ (length bs - 1)%nat) by (intros ->; congruence).
      apply lookup_lt_Some in Ek.
      repeat case_decide; first [reflexivity | lia].
  - assert (u = 0) as -> by lia.
    rewrite bind_unfold, ret_unfold.
    rewrite bind_unfold. use_load_pool.
    rewrite bind_unfold. use_modify_pool.
    rewrite ret_unfold. cbn [used set_used blocks count index size].
    eexists. split; [ by rewrite last_lookup, <- Eb; f_equal; lia |].
    split; [ reflexivity |].
    split; [reflexivity|]. split; [reflexivity|].
    exists d. lk. unfold wrap. rewrite Z.mod_small by lia.
    split; [reflexivity|]. split; [exact Hd|].
    do 5 (split; [assumption || lia|]).
    intros k b' Ek.
    destruct (Hk _ _ Ek) as [Hbp' Hbd'].
    destruct (Hb _ _ Ek) as (nodes' & En' & Hnl' & Hnodes').
    exists nodes'. lk. split; [exact En'|]. split; [exact Hnl'|].
    intros i ndi Ei. destruct (Hnodes' _ _ Ei) as [Hh Hn].
    split; [exact Hh|]. rewrite Hn.
    repeat case_decide; first [reflexivity | lia].
Qed.

Lemma capacity_succ s k : capacity s (S k) = capacity s k * 2.
Proof.
  unfold capacity. rewrite Nat2Z.inj_succ, Z.pow_succ_r by lia. lia.
Qed.

Lemma capacity_pos s k : 0 < s → 0 < capacity s k.
Proof. intros H. unfold capacity. apply Z.mul_pos_pos; [lia|]. apply Z.pow_pos_nonneg; lia. Qed.

Lemma fresh_not_live (m : gmap positive object) : m !! fresh (dom m) = None.
Proof. apply not_elem_of_dom. apply is_fresh. Qed.

(** The active block is exhausted and growth goes through. *)
Lemma alloc_grow s pool bs u h rest :
  pool_inv s pool bs u (objs h) →
  u = capacity s (length bs - 1) →
  (length bs < 32)%nat →
  can_multiply SIZE_MAX (capacity s (length bs - 1)) 2 = true →
  can_multiply SIZE_MAX (capacity s (length bs)) sizeof_entry = true →
  supply h = true :: rest →
  ∃ h', data_pool_alloc pool h = Ok (Some (fresh (dom (objs h)), 0)) h' ∧
    supply h' = rest ∧ freed h' = freed h ∧
    (fresh (dom (objs h)) ∉ bs) ∧
    pool_inv s pool (bs ++ [fresh (dom (objs h))]) 1 (objs h').
Proof.
  intros (d & Hp & Hd & Hlen & Hnd & Hs & Hcap & Hu & Hb) -> Hlt Hm1 Hm2 Hsup.
  destruct (pool_inv_kinds _ _ _ _ _ _ Hp Hd Hb) as [Hpd Hk].
  pose proof (fresh_not_live (objs h)) as Hfresh.
  set (b' := fresh (dom (objs h))) in *.
  assert (∃ b, bs !! (length bs - 1)%nat = Some b) as [b Eb].
  { apply lookup_lt_is_Some. lia. }
  destruct (Hk _ _ Eb) as [Hbp Hbd].
  destruct (Hb _ _ Eb) as (nodes & En & Hnl & Hnodes).
  assert (Hb'p : b' ≠ pool) by congruence.
  assert (Hb'd : b' ≠ d) by congruence.
  assert (Hb'b : b' ≠ b) by congruence.
  assert (Hb'bs : b' ∉ bs).
  { intros Hin. apply list_elem_of_lookup in Hin as [k Ek].
    destruct (Hb _ _ Ek) as (? & ? & _). congruence. }
  pose proof (capacity_pos s (length bs - 1) Hs) as Hcpos.
  assert (Hcs : capacity s (length bs) = capacity s (length bs - 1) * 2).
  { rewrite <- capacity_succ. f_equal. lia. }
  assert (Hsz2 : capacity s (length bs) <= SIZE_MAX).
  { rewrite Hcs. apply can_multiply_pos in Hm1; [|lia]. apply can_multiply_product in Hm1; lia. }
  unfold data_pool_alloc.
  rewrite bind_unfold. use_load_pool. cbn [used size blocks index count].
  rewrite Z.ltb_irrefl.
  cbv zeta. unfold wrap.
  replace (Z.of_nat (length bs) - 1 + 1) with (Z.of_nat (length bs)) by lia.
  rewrite (Z.mod_small (Z.of_nat (length bs))) by lia.
  destruct (Z.eqb_spec (Z.of_nat (length bs)) 32) as [?|_]; [lia|].
  rewrite Hm1. cbn [negb].
  rewrite <- Hcs. rewrite (Z.mod_small (capacity s (length bs))) by (pose proof (capacity_pos s (length bs) Hs); lia).
  rewrite Hm2. cbn [negb].
  rewrite bind_unfold. unfold calloc_block at 1. rewrite bind_unfold.
  unfold calloc at 1. rewrite Hsup. fold b'. rewrite ret_unfold.
  rewrite bind_unfold.
  erewrite (store_slot_Ok d (dir_slots bs)); [| lk; exact Hd | rewrite dir_slots_length by lia; lia].
  rewrite Nat2Z.id, dir_slots_snoc by lia. lk.
  rewrite bind_unfold. use_load_pool. cbn [blocks].
  rewrite bind_unfold.
  erewrite (load_slot_Ok d (dir_slots (bs ++ [b'])) _ (Some (b', 0)));
    [| lk; reflexivity | lia | rewrite Nat2Z.id; apply dir_slots_lookup_lt, list_lookup_middle; reflexivity ].
  rewrite bind_unfold.
  erewrite (modify_node_Ok b' 0 _ zero_node); [| lk; reflexivity | lia | apply lookup_replicate_2; lia ].
  lk.
  rewrite bind_unfold. use_modify_pool. lk.
  rewrite bind_unfold. use_load_pool. cbn [blocks index size set_index].
  replace (Z.of_nat (length bs) - 1) with (Z.of_nat (length bs - 1)) by lia.
  rewrite (Z.mod_small (Z.of_nat (length bs - 1))) by lia.
  rewrite bind_unfold.
  erewrite (load_slot_Ok d (dir_slots (bs ++ [b'])) _ (Some (b, 0)));
    [| lk; reflexivity | lia | rewrite Nat2Z.id; apply dir_slots_lookup_lt, lookup_app_l_Some, Eb ].
  rewrite bind_unfold. cbn [ptr_add]. rewrite ret_unfold.
  rewrite bind_unfold. cbn [ptr_add]. rewrite ret_unfold.
  rewrite bind_unfold. use_modify_pool. lk.
  rewrite bind_unfold. use_load_pool. cbn [blocks index size set_index set_size count used].
  rewrite bind_unfold.
  erewrite (load_slot_Ok d (dir_slots (bs ++ [b'])) _ (Some (b', 0)));
    [| lk; reflexivity | lia | rewrite Nat2Z.id; apply dir_slots_lookup_lt, list_lookup_middle; reflexivity ].
  rewrite bind_unfold. cbn [ptr_add]. rewrite ret_unfold.
  assert (∃ nd, nodes !! Z.to_nat (0 + capacity s (length bs - 1) + -1) = Some nd) as [nd End].
  { apply lookup_lt_is_Some. lia. }
  rewrite bind_unfold.
  erewrite (modify_node_Ok b _ nodes nd); [| lk; exact En | lia | exact End ].
  lk.
  rewrite bind_unfold. use_modify_pool. lk.
  rewrite ret_unfold. cbn [blocks index size set_index set_size set_used count used].
  eexists. split; [reflexivity|]. lk.
  do 3 (split; [done|]).
  assert (Hlen' : length (bs ++ [b']) = S (length bs)) by (rewrite length_app; simpl; lia).
  exists d. rewrite Hlen'. lk.
  replace (S (length bs) - 1)%nat with (length bs) by lia.
  split; [ unfold set_used, set_size, set_index; cbn [blocks count index size used];
           do 3 f_equal; lia |].
  split; [reflexivity|].
  split; [lia|].
  split; [ apply NoDup_app; split; [done|]; split; [|apply NoDup_singleton];
           intros x Hx Hx'; apply list_elem_of_singleton in Hx'; congruence |].
  split; [done|]. split; [done|]. split; [lia|].
  intros k b0 Ek.
  destruct (decide (k = length bs)) as [->|Hkne].
  - rewrite list_lookup_middle in Ek by reflexivity. injection Ek as <-.
    eexists. lk. split; [reflexivity|].
    rewrite length_insert, length_replicate.
    split; [lia|].
    intros i ndi Ei. unfold node_ok. rewrite Hlen'.
    rewrite decide_True by reflexivity. rewrite decide_False by lia.
    destruct i as [|i]; simpl in Ei.
    + destruct (Z.to_nat (capacity s (length bs))) eqn:Ec; [lia|].
      simpl in Ei. injection Ei as <-. split; reflexivity.
    + destruct (Z.to_nat (capacity s (length bs))) eqn:Ec; [lia|].
      simpl in Ei. apply lookup_replicate in Ei as [-> _]. split; reflexivity.
  - assert (Ek' : bs !! k = Some b0).
    { rewrite lookup_app_l in Ek; [done|].
      apply lookup_lt_Some in Ek. rewrite Hlen' in Ek. lia. }
    pose proof (lookup_lt_Some _ _ _ Ek') as Hklt.
    destruct (Hk _ _ Ek') as [Hb0p Hb0d].
    assert (Hb0b' : b0 ≠ b').
    { intros ->. apply Hb'bs. eapply list_elem_of_lookup_2; eauto. }
    destruct (decide (b0 = b)) as [->|Hne].
    + assert (k = (length bs - 1)%nat) as -> by (eapply NoDup_lookup; eauto).
      eexists. lk. split; [reflexivity|]. rewrite length_insert. split; [exact Hnl|].
      intros i ndi Ei. unfold node_ok. rewrite Hlen'.
      rewrite decide_False by lia.
      replace (S (length bs - 1)) with (length bs) by lia.
      rewrite list_lookup_middle by reflexivity.
      destruct (decide (i = Z.to_nat (0 + capacity s (length bs - 1) + -1))) as [->|Hi].
      * rewrite list_lookup_insert_eq in Ei by (eapply lookup_lt_Some; eauto).
        injection Ei as <-. destruct (Hnodes _ _ End) as [Hh Hn].
        split; [exact Hh|]. cbn [next set_next].
        rewrite decide_False by lia. reflexivity.
      * rewrite list_lookup_insert_ne in Ei by congruence.
        destruct (Hnodes _ _ Ei) as [Hh Hn].
        split; [exact Hh|]. rewrite Hn.
        apply lookup_lt_Some in Ei.
        repeat case_decide; first [reflexivity | lia].
    + destruct (Hb _ _ Ek') as (nodes' & En' & Hnl' & Hnodes').
      exists nodes'. lk. split; [exact En'|]. split; [exact Hnl'|].
      intros i ndi Ei. destruct (Hnodes' _ _ Ei) as [Hh Hn].
      split; [exact Hh|]. rewrite Hn. rewrite Hlen'.
      assert (k ≠ (length bs - 1)%nat) by (intros ->; congruence).
      rewrite (lookup_app_l bs) by lia.
      repeat case_decide; first [reflexivity | lia].
Qed.

(** Growth is refused before memory is asked for. *)
Lemma alloc_refused s pool bs u h :
  pool_inv s pool bs u (objs h) →
  u = capacity s (length bs - 1) →
  length bs = 32%nat ∨
  can_multiply SIZE_MAX (capacity s (length bs - 1)) 2 = false ∨
  can_multiply SIZE_MAX (capacity s (length bs)) sizeof_entry = false →
  data_pool_alloc pool h = Ok None h.
Proof.
  intros (d & Hp & Hd & Hlen & Hnd & Hs & Hcap & Hu & Hb) -> Hcase.
  pose proof (capacity_pos s (length bs - 1) Hs) as Hcpos.
  assert (Hcs : capacity s (length bs) = capacity s (length bs - 1) * 2).
  { rewrite <- capacity_succ. f_equal. lia. }
  unfold data_pool_alloc.
  rewrite bind_unfold. use_load_pool. cbn [used size blocks index count].
  rewrite Z.ltb_irrefl. cbv zeta. unfold wrap.
  replace (Z.of_nat (length bs) - 1 + 1) with (Z.of_nat (length bs)) by lia.
  rewrite (Z.mod_small (Z.of_nat (length bs))) by lia.
  destruct (Z.eqb_spec (Z.of_nat (length bs)) 32) as [|Hne]; [reflexivity|].
  destruct Hcase as [?|Hcase]; [lia|].
  destruct (can_multiply SIZE_MAX (capacity s (length bs - 1)) 2) eqn:Hm1; [|reflexivity].
  destruct Hcase as [?|Hm2]; [done|]. cbn [negb].
  apply can_multiply_pos in Hm1; [|lia]. apply can_multiply_product in Hm1; [|lia].
  rewrite <- Hcs, Z.mod_small by lia.
  rewrite Hm2. reflexivity.
Qed.

(** Growth is attempted and [calloc] fails. *)
Lemma alloc_no_memory s pool bs u h :
  pool_inv s pool bs u (objs h) →
  u = capacity s (length bs - 1) →
  (length bs < 32)%nat →
  can_multiply SIZE_MAX (capacity s (length bs - 1)) 2 = true →
  can_multiply SIZE_MAX (capacity s (length bs)) sizeof_entry = true →
  (∀ rest, supply h ≠ true :: rest) →
  data_pool_alloc pool h = Ok None (mk_heap (objs h) (tail (supply h)) (freed h)).
Proof.
  intros (d & Hp & Hd & Hlen & Hnd & Hs & Hcap & Hu & Hb) -> Hlt Hm1 Hm2 Hsup.
  pose proof (capacity_pos s (length bs - 1) Hs) as Hcpos.
  assert (Hcs : capacity s (length bs) = capacity s (length bs - 1) * 2).
  { rewrite <- capacity_succ. f_equal. lia. }
  assert (Hsz2 : capacity s (length bs) <= SIZE_MAX).
  { rewrite Hcs. apply can_multiply_pos in Hm1; [|lia]. apply can_multiply_product in Hm1; lia. }
  assert (Hcal : ∀ o, calloc o h = Ok None (mk_heap (objs h) (tail (supply h)) (freed h))).
  { intros o. unfold calloc. destruct h as [m [|[] sup] fr]; simpl in *;
      [done | by destruct (Hsup sup) | done]. }
  assert (Hid : <[d := ODir (<[length bs := None]> (dir_slots bs))]> (objs h) = objs h).
  { apply insert_id. rewrite Hd. do 2 f_equal. symmetry. apply list_insert_id.
    apply dir_slots_lookup_ge. lia. }
  unfold data_pool_alloc.
  rewrite bind_unfold. use_load_pool. cbn [used size blocks index count].
  rewrite Z.ltb_irrefl. cbv zeta. unfold wrap.
  replace (Z.of_nat (length bs) - 1 + 1) with (Z.of_nat (length bs)) by lia.
  rewrite (Z.mod_small (Z.of_nat (length bs))) by lia.
  destruct (Z.eqb_spec (Z.of_nat (length bs)) 32) as [?|_]; [lia|].
  rewrite Hm1. cbn [negb].
  rewrite <- Hcs, (Z.mod_small (capacity s (length bs))) by lia.
  rewrite Hm2. cbn [negb].
  rewrite bind_unfold. unfold calloc_block at 1. rewrite bind_unfold, Hcal, ret_unfold.
  rewrite bind_unfold.
  erewrite (store_slot_Ok d (dir_slots bs)); [| lk; exact Hd | rewrite dir_slots_length by lia; lia].
  rewrite Nat2Z.id. lk. rewrite Hid.
  rewrite bind_unfold. use_load_pool. cbn [blocks].
  rewrite bind_unfold.
  erewrite (load_slot_Ok d (dir_slots bs) _ None);
    [| lk; exact Hd | lia | rewrite Nat2Z.id; apply dir_slots_lookup_ge; lia ].
  reflexivity.
Qed.

(** Whatever the allocator answers, a pool in a consistent state stays in
    one: [data_pool_alloc] neither faults nor breaks the invariant. *)
Lemma alloc_preserves s pool bs u h :
  pool_inv s pool bs u (objs h) →
  ∃ r h' bs' u', data_pool_alloc pool h = Ok r h' ∧
    pool_inv s pool bs' u' (objs h').
Proof.
  intros Hinv.
  pose proof Hinv as (d & Hp & Hd & Hlen & Hnd & Hs & Hcap & Hu & Hb).
  destruct (decide (u < capacity s (length bs - 1))) as [Hlt|Hge].
  - destruct (alloc_in_block _ _ _ _ _ Hinv Hlt) as (b & h' & _ & E & _ & _ & Hinv').
    eauto 10.
  - assert (Hu' : u = capacity s (length bs - 1)) by lia.
    destruct (decide (length bs = 32%nat)) as [H32|H32].
    { rewrite (alloc_refused _ _ _ _ _ Hinv Hu') by auto. eauto 10. }
    destruct (can_multiply SIZE_MAX (capacity s (length bs - 1)) 2) eqn:Hm1;
      [| rewrite (alloc_refused _ _ _ _ _ Hinv Hu') by auto; eauto 10 ].
    destruct (can_multiply SIZE_MAX (capacity s (length bs)) sizeof_entry) eqn:Hm2;
      [| rewrite (alloc_refused _ _ _ _ _ Hinv Hu') by auto; eauto 10 ].
    destruct (supply h) as [|[] rest] eqn:Hsup.
    + rewrite (alloc_no_memory _ _ _ _ _ Hinv Hu') by (rewrite ?Hsup; done || lia).
      eauto 10.
    + destruct (alloc_grow _ _ _ _ _ rest Hinv Hu' ltac:(lia) Hm1 Hm2 Hsup)
        as (h' & E & _ & _ & _ & Hinv').
      eauto 10.
    + rewrite (alloc_no_memory _ _ _ _ _ Hinv Hu') by (rewrite ?Hsup; done || lia).
      eauto 10.
Qed.

(** ** [data_pool_new] *)

Ltac mred :=
  cbn beta iota zeta delta
    [objs supply freed blocks count index size used head next entry_data
     set_blocks set_count set_index set_size set_used set_next set_head
     zero_pool zero_node fst snd negb orb andb].

Ltac mrun :=
  repeat first
    [ rewrite bind_unfold
    | rewrite ret_unfold
    | rewrite lookup_insert_eq
    | rewrite lookup_insert_ne by congruence
    | rewrite lookup_delete_eq
    | rewrite lookup_delete_ne by congruence
    | progress unfold load_pool, store_pool, modify_pool, free, free_node, ptr_add,
        fault, calloc_block
    | progress mred ].

Lemma new_no_pool sz h :
  (∀ rest, supply h ≠ true :: rest) →
  data_pool_new sz h = Ok None (mk_heap (objs h) (tail (supply h)) (freed h)).
Proof.
  intros Hsup. unfold data_pool_new. rewrite bind_unfold. unfold calloc.
  destruct h as [m [|[] sup] fr]; simpl in *; [done | by destruct (Hsup sup) | done].
Qed.

(** All checks pass and the three allocations succeed. *)
Lemma new_success sz h rest :
  0 < sz <= SIZE_MAX →
  can_multiply SIZE_MAX 32 sizeof_ptr = true →
  can_multiply SIZE_MAX sz sizeof_entry = true →
  supply h = true :: true :: true :: rest →
  ∃ pool b0 h',
    data_pool_new sz h = Ok (Some pool) h' ∧
    supply h' = rest ∧ freed h' = freed h ∧
    pool_inv sz pool [b0] 0 (objs h') ∧
    objs h !! pool = None ∧ objs h !! b0 = None ∧
    (∀ a o, objs h !! a = Some o → objs h' !! a = Some o).
Proof.
  intros Hsz Hm0 Hm1 Hsup.
  pose proof (fresh_not_live (objs h)) as Hfresh.
  set (pool := fresh (dom (objs h))) in *.
  unfold data_pool_new. rewrite bind_unfold. unfold calloc at 1. rewrite Hsup. fold pool.
  mrun. rewrite Hm0. mrun.
  unfold calloc at 1. mred.
  match goal with |- context [fresh (dom ?X)] =>
    pose proof (fresh_not_live X) as Hdh; set (d := fresh (dom X)) in * end.
  assert (Hdp : d ≠ pool).
  { intros E. rewrite E, lookup_insert_eq in Hdh. discriminate. }
  rewrite !lookup_insert_ne in Hdh by congruence.
  mrun.
  destruct (Z.eqb_spec sz 0) as [?|_]; [lia|]. rewrite Hm1. mrun.
  unfold calloc at 1. mred.
  match goal with |- context [fresh (dom ?X)] =>
    pose proof (fresh_not_live X) as Hbh; set (b0 := fresh (dom X)) in * end.
  assert (Hbp : b0 ≠ pool).
  { intros E. rewrite E, lookup_insert_eq in Hbh. discriminate. }
  rewrite !(lookup_insert_ne _ pool) in Hbh by congruence.
  assert (Hbd : b0 ≠ d).
  { intros E. rewrite E, lookup_insert_eq in Hbh. discriminate. }
  rewrite !lookup_insert_ne in Hbh by congruence.
  mrun.
  erewrite (store_slot_Ok d (replicate (Z.to_nat 32) None));
    [| mrun; reflexivity | rewrite length_replicate; lia ].
  change (<[Z.to_nat 0 := Some (b0, 0)]> (replicate (Z.to_nat 32) None))
    with (dir_slots [b0]).
  mrun.
  erewrite (load_slot_Ok d (dir_slots [b0]) 0 (Some (b0, 0)));
    [| mrun; reflexivity | lia | reflexivity ].
  mrun.
  assert (Hz : replicate (Z.to_nat sz) zero_node !! Z.to_nat 0 = Some zero_node).
  { apply lookup_replicate_2. lia. }
  erewrite (modify_node_Ok b0 0 _ zero_node); [| mrun; reflexivity | lia | exact Hz ].
  mrun.
  exists pool, b0. eexists. split; [reflexivity|]. mrun.
  do 2 (split; [reflexivity|]).
  split.
  - exists d. mrun. unfold capacity. simpl length. rewrite Z.mul_1_r.
    split; [reflexivity|]. split; [reflexivity|].
    split; [lia|]. split; [apply NoDup_singleton|].
    split; [lia|]. split; [lia|]. split; [lia|].
    intros [|k] b Ek; [|by destruct k]. injection Ek as <-.
    eexists. mrun. split; [reflexivity|].
    rewrite length_insert, length_replicate. unfold capacity.
    split; [lia|].
    intros i nd Ei. unfold node_ok. simpl length.
    rewrite decide_True by reflexivity. rewrite decide_False by lia.
    destruct (Z.to_nat sz) eqn:Ec; [lia|].
    destruct i as [|i]; simpl in Ei.
    + injection Ei as <-. split; reflexivity.
    + apply lookup_replicate in Ei as [-> _]. split; reflexivity.
  - do 2 (split; [assumption|]).
    intros a o Ha. mrun. exact Ha.
Qed.

Ltac heap_eq :=
  apply map_eq; intros ?a;
  repeat match goal with
         | |- context [delete ?i _ !! ?j] =>
             destruct (decide (i = j)) as [<-|?];
             [ rewrite lookup_delete_eq | rewrite lookup_delete_ne by congruence ]
         | |- context [<[?i := _]> _ !! ?j] =>
             destruct (decide (i = j)) as [<-|?];
             [ rewrite lookup_insert_eq | rewrite lookup_insert_ne by congruence ]
         end;
  congruence.

Lemma destroy_empty_pool pool p d slots h :
  objs h !! pool = Some (OPool p) → blocks p = Some d → index p = 0 →
  objs h !! d = Some (ODir slots) → slots !! 0%nat = Some None →
  data_pool_destroy (Some pool) false h =
  Ok tt (mk_heap (delete pool (delete d (objs h))) (supply h) ((freed h ++ [d]) ++ [pool])).
Proof.
  intros Hp Hbl Hix Hd Hs0.
  assert (pool ≠ d) by congruence.
  unfold data_pool_destroy. rewrite bind_unfold, (load_pool_Ok _ _ _ Hp), Hbl.
  rewrite Hix. change (Z.to_nat (0 + 1)) with 1%nat. cbn [negb free_blocks].
  rewrite !bind_unfold, (load_pool_Ok _ _ _ Hp), Hbl.
  rewrite bind_unfold.
  rewrite (load_slot_Ok d slots 0 None h Hd ltac:(lia) Hs0).
  mrun. rewrite Hp, Hbl. unfold free. rewrite Hd. mrun. rewrite Hp. reflexivity.
Qed.

(** [data_pool_new] always returns, and [new_post] holds of what it
    returns. *)
Lemma new_outcome sz h :
  0 <= sz <= SIZE_MAX →
  ∃ r h', data_pool_new sz h = Ok r h' ∧
    new_post sz h r h' ∧
    (sz = 0 ∨ can_multiply SIZE_MAX sz sizeof_entry = false → r = None).
Proof.
  intros Hsz.
  destruct (supply h) as [|[] rest1] eqn:Hsup;
    [ rewrite new_no_pool by (rewrite Hsup; done); do 2 eexists;
      (split; [reflexivity|]); split; [|done]; split; [done|];
      exists []; rewrite app_nil_r; split; [done|constructor]
    | | rewrite new_no_pool by (rewrite Hsup; done); do 2 eexists;
      (split; [reflexivity|]); split; [|done]; split; [done|];
      exists []; rewrite app_nil_r; split; [done|constructor] ].
  destruct (can_multiply SIZE_MAX 32 sizeof_ptr) eqn:Hm0.
  2: { pose proof (fresh_not_live (objs h)) as Hfresh.
       set (pool := fresh (dom (objs h))) in *.
       unfold data_pool_new. rewrite bind_unfold. unfold calloc at 1. rewrite Hsup. fold pool.
       mrun. rewrite Hm0. unfold data_pool_destroy. mrun.
       do 2 eexists. split; [reflexivity|]. split; [|done]. split.
       - mred. heap_eq.
       - exists [pool]. split; [reflexivity|]. by constructor. }
  assert ((sz ≠ 0 ∧ can_multiply SIZE_MAX sz sizeof_entry = true
           ∧ ∃ rest, rest1 = true :: true :: rest) ∨
          (sz = 0 ∨ can_multiply SIZE_MAX sz sizeof_entry = false
           ∨ ∀ rest, rest1 ≠ true :: true :: rest))
    as [(Hnz & Hm1 & rest & ->)|Hbad].
  { destruct (decide (sz = 0)); [tauto|].
    destruct (can_multiply SIZE_MAX sz sizeof_entry); [|tauto].
    destruct rest1 as [|[] [|[] rest]]; eauto 10; right; right; right; done. }
  { destruct (new_success sz h rest ltac:(lia) Hm0 Hm1 Hsup)
      as (pool & b0 & h' & E & Hpost).
    exists (Some pool), h'. split; [exact E|]. split; [|intros [?|?]; congruence].
    exists b0, rest. split; [exact Hsup|]. exact Hpost. }
  pose proof (fresh_not_live (objs h)) as Hfresh.
  set (pool := fresh (dom (objs h))) in *.
  unfold data_pool_new. rewrite bind_unfold. unfold calloc at 1. rewrite Hsup. fold pool.
  mrun. rewrite Hm0. mrun.
  assert (Hnodir : ∀ h1 : heap, objs h1 = <[pool:=OPool (set_count 32 zero_pool)]>
                                   (<[pool:=OPool zero_pool]> (objs h)) →
            freed h1 = freed h →
    ∃ r h', ((data_pool_destroy (Some pool) false ;; mret None) : M (option positive))
              (mk_heap (<[pool := OPool (set_blocks None (set_count 32 zero_pool))]> (objs h1))
                       (supply h1) (freed h1)) = Ok r h' ∧
      new_post sz h r h' ∧
      (sz = 0 ∨ can_multiply SIZE_MAX sz sizeof_entry = false → r = None)).
  { intros h1 E1 E2. unfold data_pool_destroy. mrun.
    do 2 eexists. split; [reflexivity|]. split; [|done]. split.
    - mred. rewrite E1. heap_eq.
    - exists [pool]. mred. rewrite E2. split; [reflexivity|]. by constructor. }
  unfold calloc at 1. mred.
  destruct rest1 as [|[] rest2]; mrun; [ by apply (Hnodir (mk_heap _ _ _)) | | by apply (Hnodir (mk_heap _ _ _)) ].
  match goal with |- context [fresh (dom ?X)] =>
    pose proof (fresh_not_live X) as Hdh; set (d := fresh (dom X)) in * end.
  assert (Hdp : d ≠ pool).
  { intros E. rewrite E, lookup_insert_eq in Hdh. discriminate. }
  rewrite !lookup_insert_ne in Hdh by congruence.
  mrun.
  assert (Hdir : ∀ x m' sup,
    m' !! pool = Some (OPool (mk_pool (Some d) 32 0 x 0)) →
    m' !! d = Some (ODir (replicate 32 None)) →
    (∀ a, a ≠ pool → a ≠ d → m' !! a = objs h !! a) →
    ∃ r h', ((data_pool_destroy (Some pool) false ;; mret None) : M (option positive))
              (mk_heap m' sup (freed h)) = Ok r h' ∧
      new_post sz h r h' ∧
      (sz = 0 ∨ can_multiply SIZE_MAX sz sizeof_entry = false → r = None)).
  { intros x m' sup E1 E2 E3. rewrite bind_unfold.
    erewrite (destroy_empty_pool pool _ d); [| exact E1 | reflexivity | reflexivity | exact E2 | reflexivity ].
    do 2 eexists. split; [reflexivity|]. split; [|done]. split.
    - mred. apply map_eq. intros a.
      destruct (decide (a = pool)) as [->|?]; [by rewrite lookup_delete_eq|].
      rewrite lookup_delete_ne by congruence.
      destruct (decide (a = d)) as [->|?]; [by rewrite lookup_delete_eq|].
      rewrite lookup_delete_ne by congruence. by apply E3.
    - exists [d; pool]. mred. rewrite <- app_assoc. split; [reflexivity|].
      by repeat constructor. }
  destruct (Z.eqb_spec sz 0) as [Hz|Hnz]; mred.
  { eapply Hdir; [mrun; reflexivity | mrun; reflexivity |].
    intros a ? ?. mrun. reflexivity. }
  destruct (can_multiply SIZE_MAX sz sizeof_entry) eqn:Hm1; mred.
  2: { eapply Hdir; [mrun; reflexivity | mrun; reflexivity |].
       intros a ? ?. mrun. reflexivity. }
  destruct Hbad as [?|[?|Hbad]]; [done|done|].
  mrun. unfold calloc at 1. mred.
  destruct rest2 as [|[] rest3]; [| by destruct (Hbad rest3) |]; mrun.
  all: erewrite (store_slot_Ok d (replicate (Z.to_nat 32) None));
    [| mrun; reflexivity | rewrite length_replicate; lia ].
  all: mrun.
  all: erewrite (load_slot_Ok d _ 0 None); [| mrun; reflexivity | lia | reflexivity ].
  all: eapply Hdir; [mrun; reflexivity | mrun; reflexivity |].
  all: intros a ? ?; mrun; reflexivity.
Qed.

(** ** From the invariant to what a caller can observe *)

Lemma pool_inv_observe s pool bs u h :
  pool_inv s pool bs u (objs h) →
  ∃ d, pool_at h pool =
         Some (mk_pool (Some d) 32 (Z.of_nat (length bs) - 1)
                       (capacity s (length bs - 1)) u) ∧
    ∀ k b, bs !! k = Some b →
      slot_at h pool (Z.of_nat k) = Some (Some (b, 0)) ∧
      block_capacity h b = Some (capacity s k) ∧
      ∀ i, 0 <= i < capacity s k →
        ∃ nd, node_at h (b, i) = Some nd ∧ node_ok s bs u k b (Z.to_nat i) nd.
Proof.
  intros (d & Hp & Hd & Hlen & Hnd & Hs & Hcap & Hu & Hb).
  exists d. unfold slot_at, pool_at, block_capacity, node_at. rewrite Hp.
  split; [reflexivity|]. intros k b Ek. cbn [blocks fst snd]. rewrite Hd.
  destruct (Hb _ _ Ek) as (nodes & En & Hnl & Hnodes). rewrite En.
  destruct (Z.leb_spec 0 (Z.of_nat k)); [|lia]. rewrite Nat2Z.id.
  split; [by apply dir_slots_lookup_lt|]. split; [by rewrite Hnl|].
  intros i Hi. destruct (Z.leb_spec 0 i); [|lia].
  destruct (lookup_lt_is_Some_2 nodes (Z.to_nat i) ltac:(lia)) as [nd End].
  exists nd. split; [exact End|]. by apply Hnodes.
Qed.

Lemma alloc_n_preserves s pool n : ∀ bs u h,
  pool_inv s pool bs u (objs h) →
  ∃ rs h' bs' u', alloc_n pool n h = Ok rs h' ∧ pool_inv s pool bs' u' (objs h').
Proof.
  induction n as [|n IH]; intros bs u h Hinv.
  - exists [], h, bs, u. split; [reflexivity|exact Hinv].
  - destruct (alloc_preserves _ _ _ _ _ Hinv) as (r & h1 & bs1 & u1 & E1 & Hinv1).
    destruct (IH _ _ _ Hinv1) as (rs & h2 & bs2 & u2 & E2 & Hinv2).
    exists (r :: rs), h2, bs2, u2. split; [|exact Hinv2].
    cbn [alloc_n]. rewrite (bind_Ok _ _ _ _ _ E1), (bind_Ok _ _ _ _ _ E2).
    reflexivity.
Qed.

(** While the active block has room, [n] allocations hand out its next
    [n] nodes in order and touch nothing but that block and [used]. *)
Lemma alloc_n_in_block s pool bs b n : ∀ u h,
  pool_inv s pool bs u (objs h) →
  last bs = Some b →
  u + Z.of_nat n <= capacity s (length bs - 1) →
  ∃ h', alloc_n pool n h =
          Ok ((λ i : nat, Some (b, u + Z.of_nat i)) <$> seq 0 n) h' ∧
    supply h' = supply h ∧ freed h' = freed h ∧
    pool_inv s pool bs (u + Z.of_nat n) (objs h').
Proof.
  induction n as [|n IH]; intros u h Hinv Hlast Hroom.
  - exists h. rewrite Z.add_0_r. done.
  - destruct (alloc_in_block _ _ _ _ _ Hinv ltac:(lia))
      as (b' & h1 & Hlast' & E1 & Hs1 & Hf1 & Hinv1).
    assert (b' = b) as -> by congruence.
    destruct (IH _ _ Hinv1 Hlast ltac:(lia)) as (h2 & E2 & Hs2 & Hf2 & Hinv2).
    exists h2. cbn [alloc_n].
    rewrite (bind_Ok _ _ _ _ _ E1), (bind_Ok _ _ _ _ _ E2), ret_unfold.
    split.
    + f_equal. cbn [seq fmap list_fmap]. f_equal; [do 2 f_equal; lia|].
      rewrite <- seq_shift, <- list_fmap_compose. apply list_fmap_ext.
      intros _ i _. cbn. do 2 f_equal. lia.
    + split; [congruence|]. split; [congruence|].
      replace (u + Z.of_nat (S n)) with (u + 1 + Z.of_nat n) by lia. exact Hinv2.
Qed.

Lemma new_returns_pool sz h pool h' :
  0 <= sz <= SIZE_MAX →
  data_pool_new sz h = Ok (Some pool) h' →
  new_post sz h (Some pool) h' ∧
  can_multiply SIZE_MAX sz sizeof_entry = true.
Proof.
  intros Hsz E. destruct (new_outcome sz h Hsz) as (r & h1 & E1 & Hpost & Hnone).
  rewrite E in E1. injection E1 as <- <-. split; [exact Hpost|].
  destruct (can_multiply SIZE_MAX sz sizeof_entry); [reflexivity|].
  discriminate Hnone. by right.
Qed.

(** Whatever the size of a node, as long as it is more than one byte, the
    largest [size_t] is a positive size that [data_pool_new] refuses. *)
Lemma new_size_max_fails h :
  2 <= sizeof_entry → ∃ h', data_pool_new SIZE_MAX h = Ok None h'.
Proof.
  intros Hsz. destruct (new_outcome SIZE_MAX h) as (r & h' & E & _ & Hnone); [lia|].
  exists h'. rewrite <- Hnone; [exact E|]. right.
  destruct (can_multiply SIZE_MAX SIZE_MAX sizeof_entry) eqn:Hm; [|reflexivity].
  apply can_multiply_pos in Hm; [|lia]. rewrite Z.div_same in Hm by lia. lia.
Qed.

(** ** C6: failures of [data_pool_new] *)

(** C6.  [data_pool_new(0)] returns NULL, and so does [data_pool_new(sz)]
    whenever [sz * sizeof(MMDB_entry_data_list_s)] exceeds [SIZE_MAX].
    Whenever NULL is returned, the allocations live afterwards are exactly
    those live before: what the call had allocated it has released, and it
    released nothing else. *)
Theorem data_pool_new_failure (sz : Z) (h : heap) :
  0 <= sz <= SIZE_MAX →
  ∃ r h', data_pool_new sz h = Ok r h' ∧
    (sz = 0 → r = None) ∧
    (SIZE_MAX < sz * sizeof_entry → r = None) ∧
    (r = None → new_failed h h').
Proof.
  intros Hsz. destruct (new_outcome sz h Hsz) as (r & h' & E & Hpost & Hnone).
  exists r, h'. split; [exact E|]. split; [auto|]. split.
  - intros Hov. apply Hnone.
    destruct (decide (sz = 0)) as [|Hnz]; [by left|right].
    destruct (can_multiply SIZE_MAX sz sizeof_entry) eqn:Hm; [|reflexivity].
    apply can_multiply_pos in Hm; [|lia]. apply can_multiply_product in Hm; lia.
  - intros ->. exact Hpost.
Qed.

(** ** C4: block capacities double *)

(** C4.  After a pool has been created with size [s], any number of calls
    of [data_pool_alloc] (none of which faults) leaves
    [size = s * 2 ^ index], and for every [k] up to [index] the directory
    slot [k] points to a live block of [s * 2 ^ k] nodes. *)
Theorem block_capacities_double (s : Z) (h0 h1 : heap) (pool : addr) (n : nat) :
  0 <= s <= SIZE_MAX →
  data_pool_new s h0 = Ok (Some pool) h1 →
  ∃ rs h2 p, alloc_n pool n h1 = Ok rs h2 ∧
    pool_at h2 pool = Some p ∧ 0 <= index p ∧
    size p = s * 2 ^ index p ∧
    ∀ k, 0 <= k <= index p →
      ∃ b, slot_at h2 pool k = Some (Some (b, 0)) ∧
           block_capacity h2 b = Some (s * 2 ^ k).
Proof.
  intros Hs Hnew.
  destruct (new_returns_pool _ _ _ _ Hs Hnew) as [(b0 & rest & _ & _ & _ & Hinv & _) _].
  destruct (alloc_n_preserves s pool n _ _ _ Hinv) as (rs & h2 & bs & u & E & Hinv2).
  destruct (pool_inv_observe _ _ _ _ _ Hinv2) as (d & Hp & Hslots).
  destruct Hinv2 as (_ & _ & _ & Hlen & _).
  eexists rs, h2, _. split; [exact E|]. split; [exact Hp|]. cbn [index size].
  split; [lia|]. split.
  - unfold capacity. do 2 f_equal. lia.
  - intros k Hk.
    destruct (lookup_lt_is_Some_2 bs (Z.to_nat k) ltac:(lia)) as [b Eb].
    destruct (Hslots _ _ Eb) as (Hslot & Hcap & _).
    exists b. rewrite Z2Nat.id in Hslot by lia. split; [exact Hslot|].
    rewrite Hcap. unfold capacity. rewrite Z2Nat.id by lia. reflexivity.
Qed.

(** ** C1: the first growth *)

(** C1.  On a pool created with size [s], the first [s] calls of
    [data_pool_alloc] all succeed and exhaust block 0.  If the sizing
    checks pass and memory is available, the next call allocates a fresh
    block of [2 * s] nodes, flags its first node [head], links the last
    node of block 0 to it, stores it in the next directory slot, advances
    [index] by one, sets [size = 2 * s] and [used = 1], and returns the
    first node of the new block. *)
Theorem alloc_grows_after_first_block (s : Z) (h0 h1 h2 : heap) (pool : addr)
    (rs : list (option nptr)) (rest : list bool) :
  0 <= s <= SIZE_MAX →
  data_pool_new s h0 = Ok (Some pool) h1 →
  alloc_n pool (Z.to_nat s) h1 = Ok rs h2 →
  can_multiply SIZE_MAX s 2 = true →
  can_multiply SIZE_MAX (s * 2) sizeof_entry = true →
  supply h2 = true :: rest →
  ∃ b0 b1 h3 p2 p3,
    Forall is_Some rs ∧
    pool_at h2 pool = Some p2 ∧
    index p2 = 0 ∧ size p2 = s ∧ used p2 = s ∧
    slot_at h2 pool 0 = Some (Some (b0, 0)) ∧
    objs h2 !! b1 = None ∧
    data_pool_alloc pool h2 = Ok (Some (b1, 0)) h3 ∧
    block_capacity h3 b1 = Some (2 * s) ∧
    head <$> node_at h3 (b1, 0) = Some true ∧
    next <$> node_at h3 (b0, s - 1) = Some (Some (b1, 0)) ∧
    pool_at h3 pool = Some p3 ∧
    index p3 = index p2 + 1 ∧ size p3 = 2 * s ∧ used p3 = 1 ∧
    slot_at h3 pool (index p3) = Some (Some (b1, 0)).
Proof.
  intros Hs Hnew Hallocs Hm1 Hm2 Hsup.
  destruct (new_returns_pool _ _ _ _ Hs Hnew) as [(b0 & rest0 & _ & _ & _ & Hinv & _) _].
  assert (Hspos : 0 < s) by (destruct Hinv as (_ & _ & _ & _ & _ & ? & _); done).
  assert (Hcap0 : capacity s 0 = s) by (unfold capacity; simpl; lia).
  destruct (alloc_n_in_block s pool [b0] b0 (Z.to_nat s) 0 h1 Hinv eq_refl)
    as (h2' & E2 & _ & _ & Hinv2); [simpl length; simpl Nat.sub; lia|].
  rewrite Hallocs in E2. injection E2 as -> <-.
  rewrite Z.add_0_l, Z2Nat.id in Hinv2 by lia.
  destruct (pool_inv_observe _ _ _ _ _ Hinv2) as (d & Hp2 & Hobs2).
  destruct (Hobs2 0%nat b0 eq_refl) as (Hslot2 & _).
  destruct (alloc_grow s pool [b0] s h2 rest Hinv2)
    as (h3 & E3 & _ & _ & Hnew_blk & Hinv3);
    [ simpl; lia | simpl; lia | simpl; by rewrite Hcap0
    | simpl length; by rewrite (capacity_succ s 0), Hcap0 | exact Hsup |].
  set (b1 := fresh (dom (objs h2))) in *.
  destruct (pool_inv_observe _ _ _ _ _ Hinv3) as (d3 & Hp3 & Hobs3).
  destruct (Hobs3 0%nat b0 eq_refl) as (_ & _ & Hnodes0).
  destruct (Hobs3 1%nat b1 eq_refl) as (Hslot3 & Hcap3 & Hnodes1).
  destruct (Hnodes0 (s - 1) ltac:(lia)) as (nd0 & End0 & _ & Hnext0).
  assert (Hcap1 : capacity s 1 = s * 2) by (by rewrite (capacity_succ s 0), Hcap0).
  destruct (Hnodes1 0) as (nd1 & End1 & Hhead1 & _); [lia|].
  eexists b0, b1, h3, _, _.
  split; [ apply Forall_fmap, Forall_forall; intros; by eexists |].
  split; [exact Hp2|]. cbn [index size used]. simpl length. simpl Nat.sub.
  do 3 (split; [lia|]).
  split; [exact Hslot2|].
  split; [apply fresh_not_live|].
  split; [exact E3|].
  split; [rewrite Hcap3, (capacity_succ s 0), Hcap0; f_equal; lia|].
  split; [by rewrite End1; cbn; rewrite Hhead1|].
  split.
  { rewrite End0. cbn [fmap option_fmap option_map]. rewrite Hnext0.
    simpl length. rewrite decide_False by lia. rewrite decide_False by lia.
    reflexivity. }
  split; [exact Hp3|]. cbn [index size used length app Nat.sub].
  split; [lia|]. split; [lia|].
  split; [reflexivity|]. exact Hslot3.
Qed.

(** ** Inverting a run *)

Lemma bind_inv {A B} (m : M A) (k : A → M B) (h h' : heap) (b : B) :
  (m ≫= k) h = Ok b h' → ∃ a h1, m h = Ok a h1 ∧ k a h1 = Ok b h'.
Proof. rewrite bind_unfold. destruct (m h) as [a h1| |]; [eauto|done|done]. Qed.

Lemma load_pool_inv a p h h' :
  load_pool a h = Ok p h' → h' = h ∧ objs h !! a = Some (OPool p).
Proof.
  unfold load_pool. destruct (objs h !! a) as [[]|]; try done.
  intros [= -> ->]. done.
Qed.

Lemma load_slot_inv dir i v h h' :
  load_slot dir i h = Ok v h' →
  h' = h ∧ ∃ d slots, dir = Some d ∧ objs h !! d = Some (ODir slots) ∧
    0 <= i ∧ slots !! Z.to_nat i = Some v.
Proof.
  unfold load_slot. destruct dir as [d|]; [|done].
  destruct (objs h !! d) as [[]|] eqn:E; try done.
  destruct (Z.leb_spec 0 i); [|done].
  destruct (slots !! Z.to_nat i) eqn:Es; [|done].
  intros [= -> ->]. eauto 10.
Qed.

Lemma store_slot_inv dir i v h h' :
  store_slot dir i v h = Ok tt h' →
  ∃ d slots, dir = Some d ∧ objs h !! d = Some (ODir slots) ∧
    0 <= i < Z.of_nat (length slots) ∧
    h' = mk_heap (<[d := ODir (<[Z.to_nat i := v]> slots)]> (objs h)) (supply h) (freed h).
Proof.
  unfold store_slot. destruct dir as [d|]; [|done].
  destruct (objs h !! d) as [[]|] eqn:E; try done.
  destruct (Z.leb_spec 0 i); [|done].
  destruct (Z.ltb_spec i (Z.of_nat (length slots))); [|done].
  intros [= <-]. eauto 10.
Qed.

Lemma calloc_inv o r h h' :
  calloc o h = Ok r h' →
  freed h' = freed h ∧
  ((r = None ∧ objs h' = objs h) ∨
   (∃ a, r = Some a ∧ objs h !! a = None ∧ objs h' = <[a := o]> (objs h))).
Proof.
  unfold calloc. destruct (supply h) as [|[] rest].
  - intros [= <- <-]. auto.
  - intros [= <- <-]. split; [done|]. right. eexists. split; [done|].
    split; [apply fresh_not_live|done].
  - intros [= <- <-]. auto.
Qed.

Lemma alloc_in_block_not_null pool p h h' :
  objs h !! pool = Some (OPool p) → used p < size p →
  data_pool_alloc pool h ≠ Ok None h'.
Proof.
  intros Hp Hlt E. unfold data_pool_alloc in E.
  rewrite (bind_Ok _ _ _ _ _ (load_pool_Ok _ _ _ Hp)) in E.
  destruct (Z.ltb_spec (used p) (size p)); [|lia].
  repeat (apply bind_inv in E as (? & ? & _ & E)).
  discriminate E.
Qed.

Lemma alloc_failure_frame pool h h' :
  data_pool_alloc pool h = Ok None h' →
  ∃ p, objs h !! pool = Some (OPool p) ∧
    (h' = h ∨
     ∃ d slots, blocks p = Some d ∧ objs h !! d = Some (ODir slots) ∧
       objs h' = <[d := ODir (<[Z.to_nat (wrap (index p + 1)) := None]> slots)]> (objs h) ∧
       freed h' = freed h).
Proof.
  intros E. pose proof E as E0. unfold data_pool_alloc in E.
  apply bind_inv in E as (p & h1 & Hp & E).
  apply load_pool_inv in Hp as [-> Hp]. exists p. split; [exact Hp|].
  destruct (Z.ltb_spec (used p) (size p)) as [Hlt|Hge].
  { exfalso. by eapply alloc_in_block_not_null. }
  cbv zeta in E.
  destruct (wrap (index p + 1) =? count p); [left; by injection E|].
  destruct (negb (can_multiply SIZE_MAX (size p) 2)); [left; by injection E|].
  destruct (negb (can_multiply SIZE_MAX (wrap (size p * 2)) sizeof_entry));
    [left; by injection E|].
  right.
  apply bind_inv in E as (blk & h1 & Hc & E).
  unfold calloc_block in Hc.
  apply bind_inv in Hc as (a & h1' & Hc & Hr). injection Hr as <- <-.
  apply calloc_inv in Hc as (Hfr1 & Hc).
  apply bind_inv in E as ([] & h2 & Hst & E).
  apply store_slot_inv in Hst as (d & slots & Hbl & Hd & Hrange & ->).
  assert (Hpd : pool ≠ d).
  { intros ->. destruct Hc as [[_ Ho]|(a' & _ & Hfa & Ho)]; rewrite Ho in Hd.
    - congruence.
    - destruct (decide (a' = d)) as [->|?]; [congruence|].
      rewrite lookup_insert_ne in Hd by done. congruence. }
  apply bind_inv in E as (p' & h3 & Hp' & E).
  apply load_pool_inv in Hp' as [-> Hp']. cbn [objs] in Hp'.
  rewrite lookup_insert_ne in Hp' by congruence.
  assert (p' = p) as ->.
  { destruct Hc as [[_ Ho]|(a' & _ & Hfa & Ho)]; rewrite Ho in Hp'.
    - congruence.
    - rewrite lookup_insert_ne in Hp' by congruence. congruence. }
  apply bind_inv in E as (b & h3 & Hls & E).
  apply load_slot_inv in Hls as [-> (d' & slots' & Hbl' & Hd' & _ & Hb)].
  assert (d' = d) as -> by congruence.
  cbn [objs] in Hd'. rewrite lookup_insert_eq in Hd'. injection Hd' as <-.
  rewrite list_lookup_insert_eq in Hb by lia. injection Hb as <-.
  destruct Hc as [[-> Ho]|(a' & -> & Hfa & Ho)].
  - injection E as <-. exists d, slots. cbn [objs freed].
    rewrite Ho in Hd |- *. done.
  - repeat (apply bind_inv in E as (? & ? & _ & E)). discriminate E.
Qed.

(** ** C2: a failing [data_pool_alloc] changes nothing *)

(** C2.  Whenever [data_pool_alloc] returns NULL, the pool struct
    ([index], [size], [used], [count], [blocks]) is as before the call,
    every block is as before (none added, none changed), every directory
    slot other than the one a new block would have gone to is as before,
    and nothing was freed; for a pool in a consistent state the live
    allocations are exactly as before.  And when the active block is
    exhausted and [index + 1] equals [count] (32 for every pool made by
    [data_pool_new]), NULL is returned whatever the allocator would say. *)
Theorem data_pool_alloc_failure (pool : addr) (h h' : heap) :
  (data_pool_alloc pool h = Ok None h' →
     pool_at h' pool = pool_at h pool ∧
     (∀ b nodes, objs h' !! b = Some (OBlock nodes) ↔
                 objs h !! b = Some (OBlock nodes)) ∧
     (∀ p i, pool_at h pool = Some p → i ≠ wrap (index p + 1) →
             slot_at h' pool i = slot_at h pool i) ∧
     freed h' = freed h ∧
     (∀ s bs u, pool_inv s pool bs u (objs h) → objs h' = objs h)) ∧
  (∀ p, pool_at h pool = Some p → ¬ used p < size p →
        wrap (index p + 1) = count p →
        data_pool_alloc pool h = Ok None h).
Proof.
  split.
  - intros E.
    destruct (alloc_failure_frame _ _ _ E) as (p & Hp & [->|(d & slots & Hbl & Hd & Ho & Hfr)]).
    { done. }
    assert (Hpd : pool ≠ d) by congruence.
    split; [|split; [|split; [|split]]].
    + unfold pool_at. rewrite Ho, lookup_insert_ne by congruence. reflexivity.
    + intros b nodes. rewrite Ho.
      destruct (decide (b = d)) as [->|?].
      * rewrite lookup_insert_eq, Hd. split; congruence.
      * rewrite lookup_insert_ne by congruence. reflexivity.
    + intros p0 i Hp0 Hi. unfold pool_at in Hp0. rewrite Hp in Hp0.
      injection Hp0 as <-.
      unfold slot_at, pool_at. rewrite Ho, lookup_insert_ne, Hp, Hbl by congruence.
      rewrite lookup_insert_eq, Hd.
      destruct (Z.leb_spec 0 i); [|reflexivity].
      apply list_lookup_insert_ne. intros Heq. apply Hi.
      assert (0 <= wrap (index p + 1)) by (apply Z.mod_pos_bound; lia). lia.
    + exact Hfr.
    + intros s bs u Hinv.
      pose proof Hinv as (d0 & Hp0 & Hd0 & Hlen & Hnd & Hs & Hcap & Hu & Hb).
      rewrite Hp in Hp0. injection Hp0 as ->.
      cbn [blocks index] in *. injection Hbl as ->.
      rewrite Hd in Hd0. injection Hd0 as ->.
      rewrite Ho. apply insert_id. rewrite Hd. do 2 f_equal.
      unfold wrap. replace (Z.of_nat (length bs) - 1 + 1) with (Z.of_nat (length bs)) by lia.
      rewrite Z.mod_small, Nat2Z.id by lia. symmetry.
      destruct (decide (length bs = 32%nat)) as [H32|H32].
      * apply list_insert_ge. rewrite dir_slots_length; lia.
      * apply list_insert_id, dir_slots_lookup_ge. lia.
  - intros p Hp Hfull Hidx. unfold pool_at in Hp.
    destruct (objs h !! pool) as [[p'| |]|] eqn:Hp'; try done. injection Hp as ->.
    unfold data_pool_alloc.
    rewrite (bind_Ok _ _ _ _ _ (load_pool_Ok _ _ _ Hp')).
    destruct (Z.ltb_spec (used p) (size p)); [lia|]. cbv zeta.
    rewrite Hidx, Z.eqb_refl. reflexivity.
Qed.

(** ** C5: creation followed by the first allocation *)

(** C5 (amended).  For a positive [sz] whose block fits in [size_t]
    ([sz * sizeof(MMDB_entry_data_list_s) <= SIZE_MAX]), on a platform
    where the 32 directory slots fit as well, and when the three memory
    acquisitions succeed, [data_pool_new(sz)] returns a pool whose block 0
    has [sz] nodes, the first of them flagged [head]; the first
    [data_pool_alloc] on it returns that first node, acquires no memory,
    and leaves [index] and [size] as they were, with [used = 1]. *)
Theorem data_pool_new_then_alloc (sz : Z) (h : heap) (rest : list bool) :
  0 < sz <= SIZE_MAX →
  32 * sizeof_ptr <= SIZE_MAX →
  sz * sizeof_entry <= SIZE_MAX →
  supply h = true :: true :: true :: rest →
  ∃ pool b0 h1 h2 p p2,
    data_pool_new sz h = Ok (Some pool) h1 ∧
    pool_at h1 pool = Some p ∧
    index p = 0 ∧ size p = sz ∧ used p = 0 ∧ count p = 32 ∧
    slot_at h1 pool 0 = Some (Some (b0, 0)) ∧
    block_capacity h1 b0 = Some sz ∧
    head <$> node_at h1 (b0, 0) = Some true ∧
    data_pool_alloc pool h1 = Ok (Some (b0, 0)) h2 ∧
    supply h2 = supply h1 ∧
    pool_at h2 pool = Some p2 ∧
    index p2 = index p ∧ size p2 = size p ∧ used p2 = 1 ∧
    slot_at h2 pool 0 = Some (Some (b0, 0)) ∧
    block_capacity h2 b0 = Some sz.
Proof.
  intros Hsz Hdir Hblk Hsup.
  assert (Hm0 : can_multiply SIZE_MAX 32 sizeof_ptr = true).
  { apply can_multiply_pos; [lia|].
    apply can_multiply_product; lia. }
  assert (Hm1 : can_multiply SIZE_MAX sz sizeof_entry = true).
  { apply can_multiply_pos; [lia|].
    apply can_multiply_product; lia. }
  destruct (new_success sz h rest Hsz Hm0 Hm1 Hsup)
    as (pool & b0 & h1 & Enew & _ & _ & Hinv & _).
  assert (Hcap0 : capacity sz 0 = sz) by (unfold capacity; simpl; lia).
  destruct (pool_inv_observe _ _ _ _ _ Hinv) as (d & Hp1 & Hobs1).
  destruct (Hobs1 0%nat b0 eq_refl) as (Hslot1 & Hbc1 & Hnodes1).
  destruct (Hnodes1 0) as (nd & End & Hhead & _); [lia|].
  destruct (alloc_in_block _ _ _ _ _ Hinv) as (b & h2 & Hlast & Ealloc & Hsup2 & _ & Hinv2);
    [simpl; lia|].
  injection Hlast as <-.
  destruct (pool_inv_observe _ _ _ _ _ Hinv2) as (d2 & Hp2 & Hobs2).
  destruct (Hobs2 0%nat b0 eq_refl) as (Hslot2 & Hbc2 & _).
  eexists pool, b0, h1, h2, _, _.
  split; [exact Enew|]. split; [exact Hp1|]. cbn [index size used count length Nat.sub].
  rewrite Hcap0.
  do 4 (split; [lia|]).
  split; [exact Hslot1|]. split; [by rewrite Hbc1, Hcap0|].
  split; [by rewrite End; cbn; rewrite Hhead|].
  split; [exact Ealloc|]. split; [exact Hsup2|].
  split; [exact Hp2|]. cbn [index size used count length Nat.sub].
  do 3 (split; [lia|]).
  split; [exact Hslot2|]. by rewrite Hbc2, Hcap0.
Qed.

(** ** C9: detaching the list *)

Lemma chain_ok_frame (m m' : gmap positive object) c :
  (∀ b nodes, b ∈ c.*1 → m !! b = Some (OBlock nodes) →
              m' !! b = Some (OBlock nodes)) →
  chain_ok m c → chain_ok m' c.
Proof.
  induction c as [|[b n] c IH]; [done|].
  intros Hfr [(nodes & En & Hn) Hc]. split.
  - exists nodes. split; [|exact Hn]. apply Hfr; [by left|exact En].
  - apply IH; [|exact Hc]. intros b' nodes' Hin. apply Hfr. by right.
Qed.

Lemma destroy_keep_list_run pool d p slots h :
  objs h !! pool = Some (OPool p) →
  blocks p = Some d →
  objs h !! d = Some (ODir slots) →
  data_pool_destroy (Some pool) true h =
  Ok tt (mk_heap (delete pool (delete d (objs h))) (supply h)
                 (freed h ++ [d; pool])).
Proof.
  intros Hp Hbl Hd. assert (Hpd : pool ≠ d) by congruence.
  unfold data_pool_destroy.
  rewrite bind_unfold, (load_pool_Ok _ _ _ Hp), Hbl. cbn [negb].
  rewrite !bind_unfold, ret_unfold. cbn beta iota. rewrite bind_unfold.
  rewrite (load_pool_Ok _ _ _ Hp), Hbl, (free_Ok _ _ _ Hd).
  erewrite free_Ok;
    [| cbn [objs]; rewrite lookup_delete_ne by congruence; exact Hp].
  cbn [objs supply freed]. by rewrite <- app_assoc.
Qed.

(** C9.  On a pool with its directory, [data_pool_destroy(pool, true)]
    frees the directory and the pool struct, in that order, and nothing
    else: every other allocation is as before, so every node keeps its
    [head] flag, [next] link and payload, and every well-formed chain is
    still one.  On a null pool the call does nothing. *)
Theorem data_pool_destroy_keep_list (pool d : addr) (p : MMDB_data_pool_s)
    (slots : list (option nptr)) (h : heap) :
  objs h !! pool = Some (OPool p) →
  blocks p = Some d →
  objs h !! d = Some (ODir slots) →
  (∃ h', data_pool_destroy (Some pool) true h = Ok tt h' ∧
     freed h' = freed h ++ [d; pool] ∧
     objs h' = delete pool (delete d (objs h)) ∧
     (∀ ptr, node_at h' ptr = node_at h ptr) ∧
     (∀ c, well_formed_chain (objs h) c → well_formed_chain (objs h') c)) ∧
  (∀ keep_list h0, data_pool_destroy None keep_list h0 = Ok tt h0).
Proof.
  intros Hp Hbl Hd. split; [|reflexivity].
  assert (Hpd : pool ≠ d) by congruence.
  eexists. split; [by eapply destroy_keep_list_run|].
  cbn [objs freed]. split; [reflexivity|]. split; [reflexivity|].
  assert (Hfr : ∀ b nodes, objs h !! b = Some (OBlock nodes) →
                 delete pool (delete d (objs h)) !! b = Some (OBlock nodes)).
  { intros b nodes Hb. rewrite !lookup_delete_ne by congruence. exact Hb. }
  split.
  - intros [b o]. unfold node_at. cbn [objs fst snd].
    destruct (decide (b = pool)) as [->|?]; [by rewrite lookup_delete_eq, Hp|].
    rewrite lookup_delete_ne by congruence.
    destruct (decide (b = d)) as [->|?]; [by rewrite lookup_delete_eq, Hd|].
    rewrite lookup_delete_ne by congruence. reflexivity.
  - intros c [Hnd Hc]. split; [exact Hnd|].
    eapply chain_ok_frame; [|exact Hc]. intros b nodes _. apply Hfr.
Qed.

(** ** C7: disposing of a well-formed chain *)

Lemma block_ok_node m h b n nxt i :
  objs h = m → block_ok m b n nxt → (i < n)%nat →
  ∃ nd, load_node (b, Z.of_nat i) h = Ok nd h ∧
    head nd = bool_decide (i = 0%nat) ∧
    next nd = if decide (S i = n) then nxt else Some (b, Z.of_nat (S i)).
Proof.
  intros <- (nodes & En & Hlen & Hnodes) Hi.
  destruct (lookup_lt_is_Some_2 nodes i ltac:(lia)) as [nd End].
  exists nd. split; [|by apply Hnodes].
  apply (load_node_Ok _ _ nodes); [exact En|lia|by rewrite Nat2Z.id].
Qed.

(** Scanning from node [i] of a block whose [n] chained nodes end in [nxt]
    stops at [nxt]: no node in between is flagged. *)
Lemma get_list_head_scan h b n nxt :
  block_ok (objs h) b n nxt →
  (∀ e, nxt = Some e → ∃ nd, load_node e h = Ok nd h ∧ head nd = true) →
  ∀ k i fuel, (1 <= i)%nat → (i + k = n)%nat → (k < fuel)%nat →
    data_pool_get_list_head fuel
      (if decide (k = 0%nat) then nxt else Some (b, Z.of_nat i)) h = Ok nxt h.
Proof.
  intros Hblk Hnxt. induction k as [|k IH]; intros i fuel Hi Hik Hfuel.
  - rewrite decide_True by done. destruct nxt as [e|]; [|by destruct fuel].
    destruct fuel as [|fuel]; [lia|]. cbn [data_pool_get_list_head].
    destruct (Hnxt e eq_refl) as (nd & Eld & Hh).
    rewrite (bind_Ok _ _ _ _ _ Eld), Hh. reflexivity.
  - rewrite decide_False by done.
    destruct fuel as [|fuel]; [lia|]. cbn [data_pool_get_list_head].
    destruct (block_ok_node _ h b n nxt i eq_refl Hblk ltac:(lia)) as (nd & Eld & Hh & Hn).
    rewrite (bind_Ok _ _ _ _ _ Eld), Hh, bool_decide_eq_false_2 by lia.
    rewrite Hn. specialize (IH (S i) fuel ltac:(lia) ltac:(lia) ltac:(lia)).
    destruct (decide (k = 0%nat)), (decide (S i = n)); try lia; exact IH.
Qed.

Lemma delete_all_lookup_ne l (m : gmap positive object) a :
  a ∉ l → delete_all l m !! a = m !! a.
Proof.
  revert m. induction l as [|b l IH]; intros m Hn; [done|].
  cbn [delete_all foldl]. fold (delete_all l (delete b m)).
  rewrite IH by (intros ?; apply Hn; by right).
  apply lookup_delete_ne. intros ->. apply Hn. by left.
Qed.

Lemma list_destroy_chain c : ∀ h fuel,
  well_formed_chain (objs h) c →
  (chain_nodes c < fuel)%nat →
  data_pool_list_destroy fuel (chain_start c) h =
  Ok true (mk_heap (delete_all c.*1 (objs h)) (supply h) (freed h ++ c.*1)).
Proof.
  induction c as [|[b n] c IH]; intros h fuel [Hnd Hc] Hfuel.
  - destruct h, fuel; cbn; by rewrite app_nil_r.
  - destruct Hc as [Hblk Hc]. cbn [fmap list_fmap fst] in Hnd.
    apply NoDup_cons in Hnd as [Hbc Hnd].
    unfold chain_nodes in *. cbn [fmap list_fmap snd sum_list sum_list_with id] in Hfuel.
    pose proof Hblk as (nodes & En & Hlen & _).
    destruct fuel as [|fuel]; [lia|].
    cbn [chain_start data_pool_list_destroy].
    destruct (block_ok_node _ h b n _ 0%nat eq_refl Hblk ltac:(lia)) as (nd & Eld & Hh & Hn).
    rewrite (bind_Ok _ _ _ _ _ Eld), Hh. cbn [negb bool_decide decide_rel].
    rewrite bool_decide_eq_true_2 by done. cbn [negb].
    assert (Hscan : data_pool_get_list_head fuel (next nd) h = Ok (chain_start c) h).
    { rewrite Hn.
      pose proof (get_list_head_scan h b n (chain_start c) Hblk) as Hs.
      specialize (Hs ltac:(
        intros e He; destruct c as [|[b' n'] c']; [done|]; injection He as <-;
        destruct Hc as [Hb' _]; pose proof Hb' as (? & ? & ? & _);
        destruct (block_ok_node _ h b' n' _ 0%nat eq_refl Hb' ltac:(lia)) as (nd' & ? & ? & _);
        exists nd'; split; [done|]; by rewrite bool_decide_eq_true_2 in * by done)).
      specialize (Hs (n - 1)%nat 1%nat fuel ltac:(lia) ltac:(lia) ltac:(lia)).
      destruct (decide ((n - 1)%nat = 0%nat)), (decide (1%nat = n)); try lia; exact Hs. }
    rewrite (bind_Ok _ _ _ _ _ Hscan).
    rewrite bind_unfold. cbn [free_node]. rewrite Z.eqb_refl, (free_Ok _ _ _ En).
    rewrite IH.
    + cbn [objs supply freed fmap list_fmap fst delete_all foldl].
      by rewrite <- app_assoc.
    + split; [exact Hnd|]. cbn [objs].
      eapply chain_ok_frame; [|exact Hc]. intros b' nodes' Hin Hb'.
      rewrite lookup_delete_ne; [exact Hb'|]. by intros ->.
    + lia.
Qed.

Lemma delete_all_lookup_in l (m : gmap positive object) a :
  a ∈ l → delete_all l m !! a = None.
Proof.
  revert m. induction l as [|b l IH]; intros m Hin; [by apply not_elem_of_nil in Hin|].
  cbn [delete_all foldl]. fold (delete_all l (delete b m)).
  destruct (decide (a ∈ l)) as [Hl|Hl]; [by apply IH|].
  rewrite delete_all_lookup_ne by done.
  apply elem_of_cons in Hin as [->|?]; [apply lookup_delete_eq|done].
Qed.

(** C7.  On a well-formed chain, [data_pool_list_destroy] started at the
    first node returns true, given fuel for one iteration per node.  It
    calls [free] once on each block of the chain, at the block's head
    node and in chain order, and on nothing else: afterwards exactly the
    blocks of the chain are gone from the heap. *)
Theorem data_pool_list_destroy_well_formed (c : list (addr * nat)) (h : heap)
    (fuel : nat) :
  well_formed_chain (objs h) c →
  (chain_nodes c < fuel)%nat →
  ∃ h', data_pool_list_destroy fuel (chain_start c) h = Ok true h' ∧
    freed h' = freed h ++ c.*1 ∧
    NoDup c.*1 ∧
    ∀ a, objs h' !! a = if decide (a ∈ c.*1) then None else objs h !! a.
Proof.
  intros Hwf Hfuel. eexists. split; [by apply list_destroy_chain|].
  cbn [objs freed]. split; [reflexivity|]. split; [apply Hwf|].
  intros a. destruct (decide (a ∈ c.*1)).
  - by apply delete_all_lookup_in.
  - by apply delete_all_lookup_ne.
Qed.

(** ** C8: what the disposer detects *)

Lemma load_node_inv e nd h h' :
  load_node e h = Ok nd h' → h' = h ∧ node_at h e = Some nd.
Proof.
  unfold load_node, node_at. destruct (objs h !! e.1) as [[]|]; try done.
  destruct (0 <=? e.2); [|done]. destruct (nodes !! Z.to_nat e.2); [|done].
  intros [= -> ->]. done.
Qed.

Lemma load_node_at e nd h :
  node_at h e = Some nd → load_node e h = Ok nd h.
Proof.
  unfold load_node, node_at. destruct (objs h !! e.1) as [[]|]; try done.
  destruct (0 <=? e.2); [|done]. by intros ->.
Qed.

(** The scan only reads, and what it returns is null or a flagged node. *)
Lemma get_list_head_inv fuel : ∀ lst r h h',
  data_pool_get_list_head fuel lst h = Ok r h' →
  h' = h ∧ ∀ e, r = Some e → ∃ nd, node_at h e = Some nd ∧ head nd = true.
Proof.
  induction fuel as [|fuel IH]; intros [e|] r h h' E;
    cbn [data_pool_get_list_head] in E; try done.
  - injection E as <- <-. done.
  - apply bind_inv in E as (nd & h1 & Hld & E).
    apply load_node_inv in Hld as [-> Hnd].
    destruct (head nd) eqn:Hh.
    + injection E as <- <-. split; [done|]. intros e' [= <-]. eauto.
    + by apply IH in E.
  - injection E as <- <-. done.
Qed.

Lemma free_node_inv e h h' :
  free_node (Some e) h = Ok tt h' →
  e.2 = 0 ∧ objs h' = delete e.1 (objs h) ∧ freed h' = freed h ++ [e.1].
Proof.
  destruct e as [b o]. cbn [free_node fst snd].
  destruct (Z.eqb_spec o 0) as [->|]; [|done].
  unfold free. destruct (objs h !! b); [|done]. intros [= <-]. done.
Qed.

(** Started at a flagged node, the disposer never reports failure. *)
Lemma list_destroy_from_head fuel : ∀ e h h' r,
  (∀ nd, node_at h e = Some nd → head nd = true) →
  data_pool_list_destroy fuel (Some e) h = Ok r h' → r = true.
Proof.
  induction fuel as [|fuel IH]; intros e h h' r Hhead E; [done|].
  cbn [data_pool_list_destroy] in E.
  apply bind_inv in E as (nd & h1 & Hld & E).
  apply load_node_inv in Hld as [-> Hnd].
  rewrite (Hhead _ Hnd) in E. cbn [negb] in E.
  apply bind_inv in E as (ne & h1 & Hscan & E).
  apply get_list_head_inv in Hscan as [-> Hne].
  apply bind_inv in E as ([] & h1 & Hfree & E).
  apply free_node_inv in Hfree as (_ & Ho & _).
  destruct ne as [e2|]; [|destruct fuel; by injection E].
  apply IH in E; [done|].
  intros nd2 Hnd2. destruct (Hne e2 eq_refl) as (nd2' & Hnd2' & Hh2).
  unfold node_at in Hnd2, Hnd2'. rewrite Ho in Hnd2.
  destruct (decide (e2.1 = e.1)) as [Heq|Hne'].
  - by rewrite Heq, lookup_delete_eq in Hnd2.
  - rewrite lookup_delete_ne in Hnd2 by done. congruence.
Qed.

(** C8 (amended).  [data_pool_list_destroy] reports failure exactly when
    the node it is called on is not flagged [head]; it then returns at
    once, and nothing has been freed.  Past the first node it only ever
    stands on flagged nodes, so a block boundary further down the chain
    whose flag is missing is never reported. *)
Theorem data_pool_list_destroy_failure (fuel : nat) (lst : option nptr)
    (h h' : heap) :
  (∀ e nd, lst = Some e → node_at h e = Some nd → head nd = false →
     data_pool_list_destroy (S fuel) lst h = Ok false h) ∧
  (data_pool_list_destroy fuel lst h = Ok false h' →
     h' = h ∧ ∃ e nd, lst = Some e ∧ node_at h e = Some nd ∧ head nd = false).
Proof.
  split.
  - intros e nd -> Hnd Hh. cbn [data_pool_list_destroy].
    rewrite (bind_Ok _ _ _ _ _ (load_node_at _ _ _ Hnd)), Hh. reflexivity.
  - intros E. destruct lst as [e|]; [|destruct fuel; by injection E].
    destruct fuel as [|fuel]; [done|].
    pose proof E as E0. cbn [data_pool_list_destroy] in E.
    apply bind_inv in E as (nd & h1 & Hld & E).
    apply load_node_inv in Hld as [-> Hnd].
    destruct (head nd) eqn:Hh.
    + apply list_destroy_from_head in E0; [done|].
      intros nd' Hnd'. congruence.
    + injection E as <-. eauto 10.
Qed.

(** ** From allocation to disposal *)

Lemma pool_chain_from_fst s len u bs : ∀ k,
  (pool_chain_from s len u k bs).*1 = bs.
Proof. induction bs as [|b bs IH]; intros k; [done|]. cbn. by rewrite IH. Qed.

Lemma pool_chain_from_start s len u k bs :
  chain_start (pool_chain_from s len u k bs) =
  (λ b, (b, 0)) <$> bs !! 0%nat.
Proof. by destruct bs. Qed.

Lemma pool_chain_from_ok s bs u m :
  0 < s → 0 <= u <= capacity s (length bs - 1) →
  (∀ k b, bs !! k = Some b → block_inv s bs u m k b) →
  ∀ suf k,
    (∀ j, suf !! j = bs !! (k + j)%nat) →
    chain_ok m (pool_chain_from s (length bs) u k suf).
Proof.
  intros Hs Hu Hb. induction suf as [|b suf IH]; intros k Hsuf; [done|].
  cbn [pool_chain_from chain_ok].
  assert (Ek : bs !! k = Some b).
  { pose proof (Hsuf 0%nat) as H0. rewrite Nat.add_0_r in H0. by rewrite <- H0. }
  assert (Ek1 : suf !! 0%nat = bs !! S k).
  { pose proof (Hsuf 1%nat) as H1. rewrite Nat.add_1_r in H1. by rewrite <- H1. }
  pose proof (lookup_lt_Some _ _ _ Ek) as Hk.
  pose proof (capacity_pos s k Hs) as Hcpos.
  split; [|apply IH; intros j; pose proof (Hsuf (S j)) as Hj;
           rewrite Nat.add_succ_r in Hj; exact Hj].
  destruct (Hb _ _ Ek) as (nodes & En & Hnl & Hnodes).
  rewrite pool_chain_from_start.
  exists nodes. split; [exact En|].
  destruct (decide (S k = length bs)) as [Hact|Hact].
  - replace (length bs - 1)%nat with k in Hu by lia.
    assert (suf !! 0%nat = None) as ->.
    { rewrite Ek1. apply lookup_ge_None. lia. }
    split; [lia|]. intros i nd Hi End.
    destruct (Hnodes _ _ End) as [Hh Hn]. split; [exact Hh|]. rewrite Hn.
    rewrite decide_True by done.
    repeat case_decide; first [reflexivity | lia].
  - split; [lia|]. intros i nd Hi End.
    destruct (Hnodes _ _ End) as [Hh Hn]. split; [exact Hh|]. rewrite Hn.
    rewrite decide_False by done. rewrite Ek1.
    repeat case_decide; first [reflexivity | lia].
Qed.

(** What a consistent pool has built is a well-formed chain. *)
Lemma pool_chain_well_formed s pool bs u m :
  pool_inv s pool bs u m → well_formed_chain m (pool_chain s bs u).
Proof.
  intros (d & Hp & Hd & Hlen & Hnd & Hs & Hcap & Hu & Hb).
  split; [unfold pool_chain; by rewrite pool_chain_from_fst|].
  apply pool_chain_from_ok; try done.
Qed.

(** Detaching the list from a pool and disposing of it later releases the
    directory, the pool and every block, each exactly once. *)
Lemma detach_then_dispose s pool bs u h fuel :
  pool_inv s pool bs u (objs h) →
  (chain_nodes (pool_chain s bs u) < fuel)%nat →
  ∃ d h1 h2,
    data_pool_destroy (Some pool) true h = Ok tt h1 ∧
    data_pool_list_destroy fuel ((λ b, (b, 0)) <$> bs !! 0%nat) h1 = Ok true h2 ∧
    freed h2 = freed h ++ [d; pool] ++ bs ∧
    objs h2 = delete_all bs (delete pool (delete d (objs h))).
Proof.
  intros Hinv Hfuel.
  pose proof (pool_chain_well_formed _ _ _ _ _ Hinv) as [Hnd Hc].
  pose proof Hinv as (d & Hp & Hd & _ & _ & _ & _ & _ & Hb).
  destruct (pool_inv_kinds _ _ _ _ _ _ Hp Hd Hb) as [Hpd Hk].
  exists d. do 2 eexists.
  split; [by eapply destroy_keep_list_run|].
  unfold pool_chain in *.
  rewrite <- (pool_chain_from_start s (length bs) u 0 bs).
  rewrite list_destroy_chain; [| |exact Hfuel].
  - rewrite pool_chain_from_fst. cbn [objs freed].
    split; [reflexivity|]. split; [by rewrite <- app_assoc|reflexivity].
  - split; [exact Hnd|]. cbn [objs].
    eapply chain_ok_frame; [|exact Hc].
    rewrite pool_chain_from_fst. intros b nodes Hin Hbn.
    apply list_elem_of_lookup in Hin as [k Ek]. destruct (Hk _ _ Ek).
    rewrite !lookup_delete_ne by congruence. exact Hbn.
Qed.

(** ** Fuel

    More fuel never changes what a loop has computed. *)

Lemma get_list_head_fuel_mono fuel : ∀ fuel' lst r h h',
  (fuel <= fuel')%nat →
  data_pool_get_list_head fuel lst h = Ok r h' →
  data_pool_get_list_head fuel' lst h = Ok r h'.
Proof.
  induction fuel as [|fuel IH]; intros fuel' [e|] r h h' Hle E;
    cbn [data_pool_get_list_head] in E; try done.
  - by destruct fuel'.
  - destruct fuel' as [|fuel']; [lia|]. cbn [data_pool_get_list_head].
    apply bind_inv in E as (nd & h1 & Hld & E).
    rewrite (bind_Ok _ _ _ _ _ Hld).
    destruct (head nd); [exact E|]. apply (IH fuel'); [lia|exact E].
  - by destruct fuel'.
Qed.

Lemma list_destroy_fuel_mono fuel : ∀ fuel' lst r h h',
  (fuel <= fuel')%nat →
  data_pool_list_destroy fuel lst h = Ok r h' →
  data_pool_list_destroy fuel' lst h = Ok r h'.
Proof.
  induction fuel as [|fuel IH]; intros fuel' [e|] r h h' Hle E;
    cbn [data_pool_list_destroy] in E; try done.
  - by destruct fuel'.
  - destruct fuel' as [|fuel']; [lia|]. cbn [data_pool_list_destroy].
    apply bind_inv in E as (nd & h1 & Hld & E).
    rewrite (bind_Ok _ _ _ _ _ Hld).
    destruct (negb (head nd)); [exact E|].
    apply bind_inv in E as (ne & h2 & Hscan & E).
    assert (Hle' : (fuel <= fuel')%nat) by lia.
    rewrite (bind_Ok _ _ _ _ _ (get_list_head_fuel_mono _ _ _ _ _ _ Hle' Hscan)).
    apply bind_inv in E as ([] & h3 & Hfree & E).
    rewrite (bind_Ok _ _ _ _ _ Hfree).
    apply (IH fuel'); [lia|exact E].
  - by destruct fuel'.
Qed.

(** * Further properties of the code *)

(** * Further properties of the code *)

(** ** More inversions *)

Lemma ptr_add_inv p k e h h' :
  ptr_add p k h = Ok e h' → h' = h ∧ ∃ a o, p = Some (a, o) ∧ e = (a, o + k).
Proof.
  destruct p as [[a o]|]; [|done]. intros [= <- <-]. eauto.
Qed.

Lemma modify_pool_inv a f h h' :
  modify_pool a f h = Ok tt h' →
  ∃ p, objs h !! a = Some (OPool p) ∧
    h' = mk_heap (<[a := OPool (f p)]> (objs h)) (supply h) (freed h).
Proof.
  unfold modify_pool. intros E.
  apply bind_inv in E as (p & h1 & Hp & E).
  apply load_pool_inv in Hp as [-> Hp]. exists p. split; [exact Hp|].
  unfold store_pool in E. rewrite Hp in E. by injection E.
Qed.

Lemma modify_node_inv e f h h' :
  modify_node e f h = Ok tt h' →
  ∃ nodes nodes', objs h !! e.1 = Some (OBlock nodes) ∧
    h' = mk_heap (<[e.1 := OBlock nodes']> (objs h)) (supply h) (freed h).
Proof.
  unfold modify_node. intros E.
  apply bind_inv in E as (nd & h1 & Hld & E).
  apply load_node_inv in Hld as [-> _].
  unfold store_node in E.
  destruct (objs h !! e.1) as [[| |nodes]|]; try done.
  destruct ((0 <=? e.2) && (e.2 <? Z.of_nat (length nodes))); [|done].
  injection E as <-. eauto.
Qed.

Lemma calloc_block_inv n blk h h' :
  calloc_block n h = Ok blk h' →
  freed h' = freed h ∧
  ((blk = None ∧ objs h' = objs h) ∨
   (∃ a nodes, blk = Some (a, 0) ∧ objs h !! a = None ∧
      objs h' = <[a := OBlock nodes]> (objs h))).
Proof.
  unfold calloc_block. intros E.
  apply bind_inv in E as (a & h1 & Hc & E). injection E as <- <-.
  apply calloc_inv in Hc as (Hfr & [[-> Ho]|(a' & -> & Hn & Ho)]).
  - split; [done|]. by left.
  - split; [done|]. right. eauto 10.
Qed.

Lemma modify_pool_objs a f h h' :
  modify_pool a f h = Ok tt h' →
  ∃ p, objs h !! a = Some (OPool p) ∧
    objs h' = <[a := OPool (f p)]> (objs h) ∧ freed h' = freed h.
Proof. intros E. apply modify_pool_inv in E as (p & Hp & ->). eauto. Qed.

Lemma modify_node_objs e f h h' :
  modify_node e f h = Ok tt h' →
  ∃ nodes nodes', objs h !! e.1 = Some (OBlock nodes) ∧
    objs h' = <[e.1 := OBlock nodes']> (objs h) ∧ freed h' = freed h.
Proof. intros E. apply modify_node_inv in E as (n & n' & Hn & ->). eauto 10. Qed.

Lemma store_slot_objs dir i v h h' :
  store_slot dir i v h = Ok tt h' →
  ∃ d slots, dir = Some d ∧ objs h !! d = Some (ODir slots) ∧
    0 <= i < Z.of_nat (length slots) ∧
    objs h' = <[d := ODir (<[Z.to_nat i := v]> slots)]> (objs h) ∧
    freed h' = freed h.
Proof.
  intros E. apply store_slot_inv in E as (d & slots & -> & Hd & Hr & ->).
  eauto 10.
Qed.

(** ** What [data_pool_alloc] touches *)

Lemma slot_at_lookup h pool p d slots i v :
  objs h !! pool = Some (OPool p) → blocks p = Some d →
  objs h !! d = Some (ODir slots) → 0 <= i →
  slots !! Z.to_nat i = Some v → slot_at h pool i = Some v.
Proof.
  intros Hp Hbl Hd Hi Hv. unfold slot_at, pool_at. rewrite Hp, Hbl, Hd.
  destruct (Z.leb_spec 0 i); [exact Hv|lia].
Qed.

Ltac lkin H :=
  cbn [objs supply freed fst snd] in H;
  repeat (rewrite lookup_insert_eq in H
          || rewrite lookup_insert_ne in H by congruence).

(** A call changes the pool struct, blocks its directory points to, the
    directory, and possibly one allocation that did not exist before and
    is returned; the directory pointer and the slot count stay. *)
Lemma alloc_footprint pool h r h' :
  data_pool_alloc pool h = Ok r h' →
  ∃ p p', objs h !! pool = Some (OPool p) ∧
    objs h' !! pool = Some (OPool p') ∧
    blocks p' = blocks p ∧ count p' = count p ∧
    freed h' = freed h ∧
    ∀ a, a ≠ pool → blocks p ≠ Some a →
      (∀ i o, slot_at h pool i ≠ Some (Some (a, o))) →
      objs h' !! a = objs h !! a ∨ (objs h !! a = None ∧ r = Some (a, 0)).
Proof.
  intros E. unfold data_pool_alloc in E.
  apply bind_inv in E as (p & h1 & Hp & E).
  apply load_pool_inv in Hp as [-> Hp]. exists p.
  destruct (used p <? size p).
  - apply bind_inv in E as (b & h1 & Hsl & E).
    apply load_slot_inv in Hsl as [-> (d & slots & Hbl & Hd & Hi & Hb)].
    apply bind_inv in E as (element & h1 & Hel & E).
    apply ptr_add_inv in Hel as [-> (ba & bo & -> & ->)].
    apply bind_inv in E as ([] & h2 & Hlink & E).
    apply bind_inv in E as (p2 & h3 & Hp2 & E).
    apply load_pool_inv in Hp2 as [-> Hp2].
    apply bind_inv in E as ([] & h3 & Hmp & E).
    apply modify_pool_inv in Hmp as (p2' & Hp2' & ->).
    injection E as <- <-.
    assert (Hslot : slot_at h pool (index p) = Some (Some (ba, bo)))
      by (by eapply slot_at_lookup).
    assert (Hh2 : freed h2 = freed h ∧ objs h2 !! pool = Some (OPool p) ∧
              ∀ a, a ≠ ba → objs h2 !! a = objs h !! a).
    { destruct (0 <? used p).
      - apply bind_inv in Hlink as (b' & h1 & Hsl & Hlink).
        apply load_slot_inv in Hsl as [-> (d' & slots' & Hbl' & Hd' & _ & Hb')].
        assert (d' = d) as -> by congruence.
        assert (slots' = slots) as -> by congruence.
        assert (b' = Some (ba, bo)) as -> by congruence.
        apply bind_inv in Hlink as (q & h1 & Hq & Hlink).
        apply ptr_add_inv in Hq as [-> (? & ? & [= <- <-] & ->)].
        apply bind_inv in Hlink as (prev & h1 & Hprev & Hlink).
        apply ptr_add_inv in Hprev as [-> (? & ? & [= <- <-] & ->)].
        apply modify_node_inv in Hlink as (nodes & nodes' & Hn & ->).
        cbn [fst objs freed] in *. split; [done|]. split.
        + rewrite lookup_insert_ne; [exact Hp|]. congruence.
        + intros a Ha. by rewrite lookup_insert_ne.
      - injection Hlink as <-. done. }
    destruct Hh2 as (Hfr2 & Hp2'' & Hframe2).
    assert (p2 = p) as -> by congruence.
    assert (p2' = p) as -> by congruence.
    eexists. cbn [objs freed]. rewrite lookup_insert_eq.
    split; [exact Hp|]. split; [reflexivity|].
    do 2 (split; [reflexivity|]). split; [exact Hfr2|].
    intros a Hap Had Hdir. left.
    rewrite lookup_insert_ne by congruence. apply Hframe2.
    intros ->. by eapply Hdir.
  - cbv zeta in E.
    assert (Hsame : (mret None : M (option nptr)) h = Ok r h' →
      ∃ p', objs h !! pool = Some (OPool p) ∧ objs h' !! pool = Some (OPool p') ∧
        blocks p' = blocks p ∧ count p' = count p ∧ freed h' = freed h ∧
        ∀ a, a ≠ pool → blocks p ≠ Some a →
          (∀ i o, slot_at h pool i ≠ Some (Some (a, o))) →
          objs h' !! a = objs h !! a ∨ (objs h !! a = None ∧ r = Some (a, 0))).
    { intros [= <- <-]. exists p. repeat split; auto. }
    destruct (wrap (index p + 1) =? count p); [by apply Hsame|].
    destruct (negb (can_multiply SIZE_MAX (size p) 2)); [by apply Hsame|].
    destruct (negb (can_multiply SIZE_MAX (wrap (size p * 2)) sizeof_entry));
      [by apply Hsame|].
    clear Hsame. set (ni := wrap (index p + 1)) in *.
    set (ns := wrap (size p * 2)) in *.
    apply bind_inv in E as (blk & h1 & Hc & E).
    apply calloc_block_inv in Hc as (Hfr1 & Hc).
    apply bind_inv in E as ([] & h2 & Hst & E).
    apply store_slot_objs in Hst as (d & slots & Hbl & Hd1 & Hrange & Ho2 & Hfr2).
    assert (Hd : objs h !! d = Some (ODir slots)).
    { destruct Hc as [[_ Ho]|(a' & nodes0 & _ & Hfa & Ho)]; rewrite Ho in Hd1; [done|].
      destruct (decide (a' = d)) as [->|?];
        [by rewrite lookup_insert_eq in Hd1 | by rewrite lookup_insert_ne in Hd1]. }
    assert (Hpd : pool ≠ d) by congruence.
    assert (Hp1 : objs h1 !! pool = Some (OPool p)).
    { destruct Hc as [[_ Ho]|(a' & nodes0 & _ & Hfa & Ho)]; rewrite Ho; [done|].
      rewrite lookup_insert_ne; [done|congruence]. }
    assert (Hd2 : objs h2 !! d = Some (ODir (<[Z.to_nat ni := blk]> slots)))
      by (by rewrite Ho2, lookup_insert_eq).
    assert (Hp2 : objs h2 !! pool = Some (OPool p))
      by (by rewrite Ho2, lookup_insert_ne).
    apply bind_inv in E as (p2 & h3 & Hp2' & E).
    apply load_pool_inv in Hp2' as [-> Hp2'].
    assert (p2 = p) as -> by congruence. clear Hp2'.
    apply bind_inv in E as (b & h3 & Hls & E).
    apply load_slot_inv in Hls as [-> (d' & slots' & Hbl' & Hd' & _ & Hb)].
    assert (d' = d) as -> by congruence.
    rewrite Hd2 in Hd'. injection Hd' as <-.
    rewrite list_lookup_insert_eq in Hb by lia. injection Hb as <-.
    destruct Hc as [[-> Ho]|(a' & nodes0 & -> & Hfa & Ho)].
    + injection E as <- <-. exists p.
      do 4 (split; [done|]). split; [congruence|]. intros a _ Had _. left.
      rewrite Ho2, lookup_insert_ne by congruence. by rewrite Ho.
    + assert (Ha'p : a' ≠ pool) by congruence.
      assert (Ha'd : a' ≠ d) by congruence.
      apply bind_inv in E as ([] & h3 & Hmn & E).
      apply modify_node_objs in Hmn as (n1 & n1' & _ & Ho3 & Hfr3).
      cbn [fst] in Ho3.
      assert (Hp3 : objs h3 !! pool = Some (OPool p))
        by (by rewrite Ho3, lookup_insert_ne).
      assert (Hd3 : objs h3 !! d = Some (ODir (<[Z.to_nat ni := Some (a', 0)]> slots)))
        by (by rewrite Ho3, lookup_insert_ne).
      apply bind_inv in E as ([] & h4 & Hmp & E).
      apply modify_pool_objs in Hmp as (p3 & Hp3' & Ho4 & Hfr4).
      assert (p3 = p) as -> by congruence. clear Hp3'.
      assert (Hd4 : objs h4 !! d = Some (ODir (<[Z.to_nat ni := Some (a', 0)]> slots)))
        by (by rewrite Ho4, lookup_insert_ne).
      apply bind_inv in E as (p4 & h5 & Hp4 & E).
      apply load_pool_inv in Hp4 as [-> Hp4].
      rewrite Ho4, lookup_insert_eq in Hp4. injection Hp4 as <-.
      cbn [blocks index size set_index] in E.
      apply bind_inv in E as (b2 & h5 & Hls2 & E).
      apply load_slot_inv in Hls2 as [-> (d2 & slots2 & Hbl2 & Hd2' & Hj & Hb2)].
      assert (d2 = d) as -> by congruence.
      rewrite Hd4 in Hd2'. injection Hd2' as <-.
      apply bind_inv in E as (q & h5 & Hq & E).
      apply ptr_add_inv in Hq as [-> (a2 & o2 & -> & ->)].
      apply bind_inv in E as (prev & h5 & Hprev & E).
      apply ptr_add_inv in Hprev as [-> (? & ? & [= <- <-] & ->)].
      apply bind_inv in E as ([] & h5 & Hmp5 & E).
      apply modify_pool_objs in Hmp5 as (p5 & Hp5 & Ho5 & Hfr5).
      rewrite Ho4, lookup_insert_eq in Hp5. injection Hp5 as <-.
      assert (Hd5 : objs h5 !! d = Some (ODir (<[Z.to_nat ni := Some (a', 0)]> slots)))
        by (by rewrite Ho5, lookup_insert_ne).
      apply bind_inv in E as (p6 & h6 & Hp6 & E).
      apply load_pool_inv in Hp6 as [-> Hp6].
      rewrite Ho5, lookup_insert_eq in Hp6. injection Hp6 as <-.
      cbn [blocks index size set_index set_size] in E.
      apply bind_inv in E as (b3 & h6 & Hls3 & E).
      apply load_slot_inv in Hls3 as [-> (d3 & slots3 & Hbl3 & Hd3' & _ & Hb3)].
      assert (d3 = d) as -> by congruence.
      rewrite Hd5 in Hd3'. injection Hd3' as <-.
      rewrite list_lookup_insert_eq in Hb3 by lia. injection Hb3 as <-.
      apply bind_inv in E as (element & h6 & Hel & E).
      apply ptr_add_inv in Hel as [-> (? & ? & [= <- <-] & ->)].
      apply bind_inv in E as ([] & h6 & Hmn6 & E).
      apply modify_node_objs in Hmn6 as (n2 & n2' & Hn2 & Ho6 & Hfr6).
      cbn [fst] in Hn2, Ho6.
      assert (Ha2p : a2 ≠ pool).
      { intros ->. rewrite Ho5, lookup_insert_eq in Hn2. discriminate. }
      apply bind_inv in E as ([] & h7 & Hmp7 & E).
      apply modify_pool_objs in Hmp7 as (p7 & Hp7 & Ho7 & Hfr7).
      rewrite Ho6, lookup_insert_ne, Ho5, lookup_insert_eq in Hp7 by congruence.
      injection Hp7 as <-.
      injection E as <- <-.
      eexists. split; [exact Hp|]. split; [by rewrite Ho7, lookup_insert_eq|].
      do 2 (split; [reflexivity|]). split; [congruence|].
      intros a Hap Had Hdir.
      destruct (decide (a = a')) as [->|Haa']; [right; split; [exact Hfa|reflexivity]|].
      left.
      assert (Haa2 : a ≠ a2).
      { intros ->. destruct (decide (Z.to_nat (wrap (ni - 1)) = Z.to_nat ni)) as [Heq|Hne].
        - rewrite Heq, list_lookup_insert_eq in Hb2 by lia. congruence.
        - rewrite list_lookup_insert_ne in Hb2 by congruence.
          eapply Hdir. eapply slot_at_lookup; eauto. }
      rewrite Ho7, lookup_insert_ne, Ho6, lookup_insert_ne, Ho5, lookup_insert_ne,
        Ho4, lookup_insert_ne, Ho3, lookup_insert_ne, Ho2, lookup_insert_ne,
        Ho, lookup_insert_ne by congruence.
      reflexivity.
Qed.

(** ** The nodes handed out *)

(** Pointers to the first [n] nodes of the block at [b]. *)
Definition block_ptrs (b : addr) (n : nat) : list nptr :=
  (λ i : nat, (b, Z.of_nat i)) <$> seq 0 n.

(** The nodes a pool with blocks [bs] has handed out, in the order of the
    calls: all nodes of every block but the last, and the first [u] nodes
    of the last one. *)
Fixpoint handed_out_from (s : Z) (len : nat) (u : Z) (k : nat)
    (bs : list addr) : list nptr :=
  match bs with
  | [] => []
  | b :: bs' =>
      block_ptrs b (if decide (S k = len) then Z.to_nat u
                    else Z.to_nat (capacity s k))
      ++ handed_out_from s len u (S k) bs'
  end.

Definition handed_out (s : Z) (bs : list addr) (u : Z) : list nptr :=
  handed_out_from s (length bs) u 0 bs.

Lemma block_ptrs_S b n : block_ptrs b (S n) = block_ptrs b n ++ [(b, Z.of_nat n)].
Proof. unfold block_ptrs. by rewrite seq_S, fmap_app. Qed.

Lemma handed_out_from_next s len u b : ∀ suf k,
  last suf = Some b → (k + length suf = len)%nat → 0 <= u →
  handed_out_from s len (u + 1) k suf = handed_out_from s len u k suf ++ [(b, u)].
Proof.
  induction suf as [|b0 suf IH]; intros k Hlast Hlen Hu; [done|].
  cbn [handed_out_from]. destruct suf as [|b1 suf].
  - injection Hlast as ->. cbn [length] in Hlen.
    rewrite !decide_True by lia. cbn [handed_out_from]. rewrite !app_nil_r.
    replace (Z.to_nat (u + 1)) with (S (Z.to_nat u)) by lia.
    rewrite block_ptrs_S. do 3 f_equal. lia.
  - cbn [length] in Hlen. rewrite !decide_False by lia.
    rewrite (IH (S k)); [by rewrite app_assoc| exact Hlast | cbn [length]; lia | lia].
Qed.

Lemma handed_out_from_grow s len b' : ∀ suf k,
  suf ≠ [] → (k + length suf = len)%nat →
  handed_out_from s (S len) 1 k (suf ++ [b']) =
  handed_out_from s len (capacity s (len - 1)) k suf ++ [(b', 0)].
Proof.
  induction suf as [|b0 suf IH]; intros k Hne Hlen; [done|].
  cbn [handed_out_from app]. destruct suf as [|b1 suf].
  - cbn [length] in Hlen. cbn [app handed_out_from].
    rewrite (decide_False (P := S k = S len)) by lia.
    rewrite (decide_True (P := S (S k) = S len)) by lia.
    rewrite (decide_True (P := S k = len)) by lia.
    replace (len - 1)%nat with k by lia. rewrite !app_nil_r. reflexivity.
  - cbn [length] in Hlen.
    rewrite (decide_False (P := S k = S len)) by lia.
    rewrite (decide_False (P := S k = len)) by lia.
    rewrite (IH (S k)); [by rewrite app_assoc| done | cbn [length]; lia].
Qed.

Lemma handed_out_next s bs u b :
  last bs = Some b → 0 <= u →
  handed_out s bs (u + 1) = handed_out s bs u ++ [(b, u)].
Proof. intros. by apply handed_out_from_next. Qed.

Lemma handed_out_grow s bs b' :
  bs ≠ [] →
  handed_out s (bs ++ [b']) 1 =
  handed_out s bs (capacity s (length bs - 1)) ++ [(b', 0)].
Proof.
  intros. unfold handed_out. rewrite length_app. cbn [length].
  replace (length bs + 1)%nat with (S (length bs)) by lia.
  by apply handed_out_from_grow.
Qed.

Lemma block_ptrs_length b n : length (block_ptrs b n) = n.
Proof. unfold block_ptrs. by rewrite length_fmap, length_seq. Qed.

Lemma handed_out_from_length s len u : ∀ suf k,
  suf ≠ [] → (k + length suf = len)%nat → 0 < s → 0 <= u →
  Z.of_nat (length (handed_out_from s len u k suf)) =
  capacity s (len - 1) - capacity s k + u.
Proof.
  induction suf as [|b0 suf IH]; intros k Hne Hlen Hs Hu; [done|].
  cbn [handed_out_from]. rewrite length_app, block_ptrs_length.
  destruct suf as [|b1 suf].
  - cbn [length] in Hlen. rewrite decide_True by lia. cbn [handed_out_from length].
    replace (len - 1)%nat with k by lia. lia.
  - cbn [length] in Hlen. rewrite decide_False by lia.
    rewrite Nat2Z.inj_add, (IH (S k)); [| done | cbn [length]; lia | done | done].
    pose proof (capacity_pos s k Hs). rewrite capacity_succ. lia.
Qed.

Lemma handed_out_length s bs u :
  bs ≠ [] → 0 < s → 0 <= u →
  Z.of_nat (length (handed_out s bs u)) =
  s * (2 ^ (Z.of_nat (length bs) - 1) - 1) + u.
Proof.
  intros Hne Hs Hu. unfold handed_out.
  rewrite handed_out_from_length by (done || lia).
  unfold capacity. destruct bs; [done|]. cbn [length].
  replace (Z.of_nat (S (length bs) - 1)) with (Z.of_nat (S (length bs)) - 1) by lia.
  change (Z.of_nat 0) with 0. rewrite Z.pow_0_r. lia.
Qed.

(** The nodes of a chain of blocks, in chain order. *)
Fixpoint chain_ptrs (c : list (addr * nat)) : list nptr :=
  match c with
  | [] => []
  | (b, n) :: rest => block_ptrs b n ++ chain_ptrs rest
  end.

(** Each node of [l] is linked to the one after it, the last to null,
    and a node is flagged [head] exactly when it starts its block. *)
Definition linked (h : heap) (l : list nptr) : Prop :=
  ∀ i p, l !! i = Some p →
    ∃ nd, node_at h p = Some nd ∧ next nd = l !! S i ∧
      head nd = bool_decide (p.2 = 0).

Lemma block_ptrs_lookup b n i :
  (i < n)%nat → block_ptrs b n !! i = Some (b, Z.of_nat i).
Proof.
  intros Hi. unfold block_ptrs. rewrite list_lookup_fmap, lookup_seq_lt by done.
  reflexivity.
Qed.

Lemma chain_ptrs_head m c : chain_ok m c → chain_ptrs c !! 0%nat = chain_start c.
Proof.
  destruct c as [|[b n] c]; [done|]. intros [(nodes & _ & Hn & _) _].
  cbn [chain_ptrs chain_start]. rewrite lookup_app_l by (rewrite block_ptrs_length; lia).
  by rewrite block_ptrs_lookup by lia.
Qed.

Lemma chain_linked h c : chain_ok (objs h) c → linked h (chain_ptrs c).
Proof.
  induction c as [|[b n] c IH]; [intros _ i p Hi; done|].
  intros [Hblk Hc] i p Hi. cbn [chain_ptrs] in *.
  pose proof Hblk as (nodes & En & Hn & Hnodes).
  destruct (decide (i < n)%nat) as [Hlt|Hge].
  - rewrite lookup_app_l, block_ptrs_lookup in Hi by (rewrite ?block_ptrs_length; lia).
    injection Hi as <-.
    destruct (lookup_lt_is_Some_2 nodes i ltac:(lia)) as [nd End].
    destruct (Hnodes _ _ Hlt End) as [Hhead Hnext].
    exists nd. split; [|split].
    + unfold node_at. cbn [fst snd]. rewrite En.
      destruct (Z.leb_spec 0 (Z.of_nat i)); [|lia]. by rewrite Nat2Z.id.
    + rewrite Hnext. destruct (decide (S i = n)) as [Heq|Hne].
      * rewrite lookup_app_r by (rewrite block_ptrs_length; lia).
        rewrite block_ptrs_length. replace (S i - n)%nat with 0%nat by lia.
        symmetry. by eapply chain_ptrs_head.
      * rewrite lookup_app_l, block_ptrs_lookup by (rewrite ?block_ptrs_length; lia).
        reflexivity.
    + rewrite Hhead. cbn [snd]. apply bool_decide_ext. lia.
  - rewrite lookup_app_r in Hi by (rewrite block_ptrs_length; lia).
    rewrite block_ptrs_length in Hi.
    destruct (IH Hc _ _ Hi) as (nd & Hnd & Hnext & Hhead). exists nd.
    split; [exact Hnd|]. split; [|exact Hhead].
    rewrite Hnext, lookup_app_r by (rewrite block_ptrs_length; lia).
    rewrite block_ptrs_length. f_equal. lia.
Qed.

Lemma chain_ptrs_fst c p : p ∈ chain_ptrs c → p.1 ∈ c.*1.
Proof.
  induction c as [|[b n] c IH]; cbn [chain_ptrs]; [by intros ?%not_elem_of_nil|].
  intros Hin. apply elem_of_app in Hin as [Hin|Hin].
  - unfold block_ptrs in Hin. apply list_elem_of_fmap in Hin as (i & -> & _). by left.
  - right. by apply IH.
Qed.

Lemma chain_ptrs_NoDup c : NoDup c.*1 → NoDup (chain_ptrs c).
Proof.
  induction c as [|[b n] c IH]; cbn [chain_ptrs]; [intros; constructor|].
  cbn [fmap list_fmap fst]. intros [Hb Hc]%NoDup_cons.
  apply NoDup_app. split; [|split; [|by apply IH]].
  - unfold block_ptrs. apply NoDup_fmap_2; [|apply NoDup_seq].
    intros i j [= Hij]. lia.
  - intros p Hp Hp'. apply chain_ptrs_fst in Hp'.
    unfold block_ptrs in Hp. apply list_elem_of_fmap in Hp as (i & -> & _). done.
Qed.

Lemma handed_out_from_chain s len u : ∀ suf k,
  1 <= u →
  handed_out_from s len u k suf = chain_ptrs (pool_chain_from s len u k suf).
Proof.
  induction suf as [|b suf IH]; intros k Hu; [done|].
  cbn [handed_out_from pool_chain_from chain_ptrs]. rewrite IH by done.
  by rewrite Z.max_l by lia.
Qed.

(** In a consistent pool the nodes handed out are pairwise distinct and
    form one null-terminated list, in the order they were handed out. *)
Lemma handed_out_linked s pool bs u h :
  pool_inv s pool bs u (objs h) →
  1 <= u ∨ length bs = 1%nat →
  NoDup (handed_out s bs u) ∧ linked h (handed_out s bs u).
Proof.
  intros Hinv Hreach.
  destruct (decide (1 <= u)) as [Hu|Hu].
  - destruct (pool_chain_well_formed _ _ _ _ _ Hinv) as [Hnd Hc].
    unfold handed_out, pool_chain in *. rewrite handed_out_from_chain by done.
    split; [by apply chain_ptrs_NoDup|by apply chain_linked].
  - destruct Hreach as [?|Hlen]; [done|].
    destruct Hinv as (_ & _ & _ & _ & _ & _ & _ & Hur & _).
    destruct bs as [|b [|]]; try done. unfold handed_out. cbn.
    replace (Z.to_nat u) with 0%nat by lia. cbn.
    split; [constructor|]. intros i p Hi. done.
Qed.

(** ** What a pool owns *)

(** Relative to the live allocations [m0] from before the pool was
    created: the pool at [pool] is consistent; its struct, its directory
    [d] and its blocks [bs] are allocations made since, and every other
    address holds what it held in [m0]; no block is larger than [size_t]
    can count in bytes. *)
Definition pool_owns (s : Z) (pool d : addr) (bs : list addr) (u : Z)
    (m0 m : gmap positive object) : Prop :=
  pool_inv s pool bs u m ∧
  (∃ p, m !! pool = Some (OPool p) ∧ blocks p = Some d) ∧
  (1 <= u ∨ length bs = 1%nat) ∧
  m0 !! pool = None ∧ m0 !! d = None ∧ (∀ b, b ∈ bs → m0 !! b = None) ∧
  (∀ a, a ≠ pool → a ≠ d → a ∉ bs → m !! a = m0 !! a) ∧
  (∀ k, (k < length bs)%nat → capacity s k * sizeof_entry <= SIZE_MAX).

Lemma new_guard_dir sz h :
  can_multiply SIZE_MAX 32 sizeof_ptr = false →
  ∃ h', data_pool_new sz h = Ok None h'.
Proof.
  intros Hm0.
  destruct (supply h) as [|[] rest1] eqn:Hsup;
    [ rewrite new_no_pool by (rewrite Hsup; done); eauto
    | | rewrite new_no_pool by (rewrite Hsup; done); eauto ].
  pose proof (fresh_not_live (objs h)) as Hfresh.
  set (pool := fresh (dom (objs h))) in *.
  unfold data_pool_new. rewrite bind_unfold. unfold calloc at 1. rewrite Hsup. fold pool.
  mrun. rewrite Hm0. unfold data_pool_destroy. mrun. eauto.
Qed.

Lemma new_success_owns sz h rest :
  0 < sz <= SIZE_MAX →
  can_multiply SIZE_MAX 32 sizeof_ptr = true →
  can_multiply SIZE_MAX sz sizeof_entry = true →
  supply h = true :: true :: true :: rest →
  ∃ pool d b0 h',
    data_pool_new sz h = Ok (Some pool) h' ∧
    objs h' !! pool = Some (OPool (mk_pool (Some d) 32 0 sz 0)) ∧
    objs h' !! d = Some (ODir (dir_slots [b0])) ∧
    objs h !! pool = None ∧ objs h !! d = None ∧ objs h !! b0 = None ∧
    ∀ a, a ≠ pool → a ≠ d → a ≠ b0 → objs h' !! a = objs h !! a.
Proof.
  intros Hsz Hm0 Hm1 Hsup.
  pose proof (fresh_not_live (objs h)) as Hfresh.
  set (pool := fresh (dom (objs h))) in *.
  unfold data_pool_new. rewrite bind_unfold. unfold calloc at 1. rewrite Hsup. fold pool.
  mrun. rewrite Hm0. mrun.
  unfold calloc at 1. mred.
  match goal with |- context [fresh (dom ?X)] =>
    pose proof (fresh_not_live X) as Hdh; set (d := fresh (dom X)) in * end.
  assert (Hdp : d ≠ pool).
  { intros E. rewrite E, lookup_insert_eq in Hdh. discriminate. }
  rewrite !lookup_insert_ne in Hdh by congruence.
  mrun.
  destruct (Z.eqb_spec sz 0) as [?|_]; [lia|]. rewrite Hm1. mrun.
  unfold calloc at 1. mred.
  match goal with |- context [fresh (dom ?X)] =>
    pose proof (fresh_not_live X) as Hbh; set (b0 := fresh (dom X)) in * end.
  assert (Hbp : b0 ≠ pool).
  { intros E. rewrite E, lookup_insert_eq in Hbh. discriminate. }
  rewrite !(lookup_insert_ne _ pool) in Hbh by congruence.
  assert (Hbd : b0 ≠ d).
  { intros E. rewrite E, lookup_insert_eq in Hbh. discriminate. }
  rewrite !lookup_insert_ne in Hbh by congruence.
  mrun.
  erewrite (store_slot_Ok d (replicate (Z.to_nat 32) None));
    [| mrun; reflexivity | rewrite length_replicate; lia ].
  change (<[Z.to_nat 0 := Some (b0, 0)]> (replicate (Z.to_nat 32) None))
    with (dir_slots [b0]).
  mrun.
  erewrite (load_slot_Ok d (dir_slots [b0]) 0 (Some (b0, 0)));
    [| mrun; reflexivity | lia | reflexivity ].
  mrun.
  assert (Hz : replicate (Z.to_nat sz) zero_node !! Z.to_nat 0 = Some zero_node).
  { apply lookup_replicate_2. lia. }
  erewrite (modify_node_Ok b0 0 _ zero_node); [| mrun; reflexivity | lia | exact Hz ].
  mrun.
  exists pool, d, b0. eexists. split; [reflexivity|]. mrun.
  do 2 (split; [reflexivity|]). do 3 (split; [assumption|]).
  intros a ? ? ?. mrun. reflexivity.
Qed.

(** A pool returned by [data_pool_new] owns what the call allocated. *)
Lemma new_owns sz h pool h' :
  0 <= sz <= SIZE_MAX →
  data_pool_new sz h = Ok (Some pool) h' →
  ∃ d b0, pool_owns sz pool d [b0] 0 (objs h) (objs h') ∧
    freed h' = freed h ∧ can_multiply SIZE_MAX 32 sizeof_ptr = true ∧
    ∃ rest, supply h = true :: true :: true :: rest ∧ supply h' = rest.
Proof.
  intros Hsz Hnew.
  destruct (new_returns_pool _ _ _ _ Hsz Hnew)
    as [(b0 & rest & Hsup & Hsup' & Hfr & Hinv & _) Hm1].
  assert (Hm0 : can_multiply SIZE_MAX 32 sizeof_ptr = true).
  { destruct (can_multiply SIZE_MAX 32 sizeof_ptr) eqn:Hm; [done|].
    destruct (new_guard_dir sz h Hm) as (h1 & E). congruence. }
  assert (Hpos : 0 < sz) by (destruct Hinv as (_ & _ & _ & _ & _ & ? & _); done).
  destruct (new_success_owns sz h rest ltac:(lia) Hm0 Hm1 Hsup)
    as (pool' & d & b0' & h1 & E & Hp & Hd & Hfp & Hfd & Hfb & Hframe).
  rewrite Hnew in E. injection E as <- <-.
  assert (b0' = b0) as ->.
  { destruct Hinv as (d' & Hp' & Hd' & _). rewrite Hp in Hp'. injection Hp' as <-.
    rewrite Hd in Hd'. by injection Hd'. }
  exists d, b0. split; [|eauto 10].
  split; [exact Hinv|]. split; [eauto|]. split; [by right|].
  do 2 (split; [assumption|]).
  split; [by intros b ->%list_elem_of_singleton|].
  split.
  - intros a ? ? Hb0. apply Hframe; try done. intros ->. apply Hb0. by left.
  - intros k Hk. cbn [length] in Hk. replace k with 0%nat by lia.
    apply can_multiply_pos in Hm1; [|lia]. apply can_multiply_product in Hm1; [|lia].
    unfold capacity. change (Z.of_nat 0) with 0. rewrite Z.pow_0_r. lia.
Qed.

Lemma dir_slots_elem bs k a o :
  dir_slots bs !! k = Some (Some (a, o)) → a ∈ bs.
Proof.
  unfold dir_slots. intros Hk.
  destruct (decide (k < length bs)%nat) as [Hlt|Hge].
  - rewrite lookup_app_l, list_lookup_fmap in Hk by (rewrite ?length_fmap; lia).
    destruct (bs !! k) as [b|] eqn:Eb; [|done]. injection Hk as <- _.
    by eapply list_elem_of_lookup_2.
  - rewrite lookup_app_r in Hk by (rewrite length_fmap; lia).
    apply lookup_replicate in Hk as [? _]. done.
Qed.

(** One call of [data_pool_alloc] on a pool that owns its allocations:
    it returns, the pool still owns its allocations, and a node returned
    is added at the end of the nodes handed out. *)
Lemma alloc_step s pool d bs u m0 h :
  pool_owns s pool d bs u m0 (objs h) →
  ∃ r h' bs' u', data_pool_alloc pool h = Ok r h' ∧
    pool_owns s pool d bs' u' m0 (objs h') ∧
    handed_out s bs' u' = handed_out s bs u ++ option_list r ∧
    freed h' = freed h.
Proof.
  intros Howns.
  pose proof Howns as (Hinv & (p0 & Hp0 & Hbl0) & Hreach & Hfp & Hfd & Hfb & Hframe & Hsizes).
  pose proof Hinv as (d' & Hp & Hd & Hlen & Hnd & Hs & Hcap & Hu & Hb).
  assert (d' = d) as ->.
  { rewrite Hp in Hp0. injection Hp0 as <-. cbn in Hbl0. congruence. }
  destruct (pool_inv_kinds _ _ _ _ _ _ Hp Hd Hb) as [Hpd Hk].
  assert (Hfinish : ∀ r h' bs' u',
    data_pool_alloc pool h = Ok r h' →
    pool_inv s pool bs' u' (objs h') →
    (∀ a o, r = Some (a, o) → a ∈ bs') →
    (∀ b, b ∈ bs → b ∈ bs') →
    (∀ b, b ∈ bs' → b ∈ bs ∨ objs h !! b = None) →
    1 <= u' ∨ length bs' = 1%nat →
    (∀ k, (k < length bs')%nat → capacity s k * sizeof_entry <= SIZE_MAX) →
    pool_owns s pool d bs' u' m0 (objs h')).
  { intros r h' bs' u' E Hinv' Hr Hsub Hnew Hreach' Hsizes'.
    destruct (alloc_footprint _ _ _ _ E) as (p & p' & Hpa & Hpa' & Hblk & _ & _ & Hfoot).
    assert (p = mk_pool (Some d) 32 (Z.of_nat (length bs) - 1)
                        (capacity s (length bs - 1)) u) as -> by congruence.
    cbn [blocks] in *.
    assert (Hfresh : ∀ b, objs h !! b = None → m0 !! b = None).
    { intros b Hb0. rewrite <- Hframe; [done| | |]; intros Hx; subst.
      - congruence.
      - congruence.
      - apply list_elem_of_lookup in Hx as [k Ek].
        destruct (Hb _ _ Ek) as (? & ? & _). congruence. }
    split; [exact Hinv'|]. split; [eauto|]. split; [exact Hreach'|].
    do 2 (split; [assumption|]). split.
    { intros b Hin. destruct (Hnew _ Hin) as [?|?]; auto. }
    split; [|exact Hsizes'].
    intros a Hap Had Habs.
    assert (Hnot : a ∉ bs) by (intros ?; apply Habs; auto).
    destruct (Hfoot a Hap ltac:(congruence)) as [Hsame|[_ Hret]].
    - intros i o Hslot. apply Hnot. unfold slot_at, pool_at in Hslot.
      rewrite Hp in Hslot. cbn [blocks] in Hslot. rewrite Hd in Hslot.
      destruct (0 <=? i); [|done]. by eapply dir_slots_elem.
    - rewrite Hsame. by apply Hframe.
    - exfalso. apply Habs. by eapply Hr. }
  destruct (decide (u < capacity s (length bs - 1))) as [Hlt|Hge].
  - destruct (alloc_in_block _ _ _ _ _ Hinv Hlt) as (b & h' & Hlast & E & _ & Hfr & Hinv').
    assert (Hbin : b ∈ bs).
    { rewrite last_lookup in Hlast. by eapply list_elem_of_lookup_2. }
    exists (Some (b, u)), h', bs, (u + 1). split; [exact E|]. split.
    + apply (Hfinish _ _ _ _ E Hinv'); auto.
      * intros a o [= <- <-]. exact Hbin.
      * left. lia.
    + split; [|exact Hfr]. by apply handed_out_next; [|lia].
  - assert (Hu' : u = capacity s (length bs - 1)) by lia.
    assert (Hsame : ∀ h', data_pool_alloc pool h = Ok None h' →
              objs h' = objs h → freed h' = freed h →
      ∃ r h' bs' u', data_pool_alloc pool h = Ok r h' ∧
        pool_owns s pool d bs' u' m0 (objs h') ∧
        handed_out s bs' u' = handed_out s bs u ++ option_list r ∧
        freed h' = freed h).
    { intros h' E Ho Hfr. exists None, h', bs, u. split; [exact E|].
      rewrite Ho. split; [exact Howns|]. split; [by rewrite app_nil_r|exact Hfr]. }
    destruct (decide (length bs = 32%nat)) as [H32|H32].
    { apply (Hsame h); [|done|done]. apply (alloc_refused _ _ _ _ _ Hinv Hu'). auto. }
    destruct (can_multiply SIZE_MAX (capacity s (length bs - 1)) 2) eqn:Hm1;
      [| apply (Hsame h); [|done|done]; apply (alloc_refused _ _ _ _ _ Hinv Hu'); auto ].
    destruct (can_multiply SIZE_MAX (capacity s (length bs)) sizeof_entry) eqn:Hm2;
      [| apply (Hsame h); [|done|done]; apply (alloc_refused _ _ _ _ _ Hinv Hu'); auto ].
    destruct (supply h) as [|[] rest] eqn:Hsup.
    + eapply Hsame; [apply (alloc_no_memory _ _ _ _ _ Hinv Hu'); rewrite ?Hsup; done || lia|done|done].
    + destruct (alloc_grow _ _ _ _ _ rest Hinv Hu' ltac:(lia) Hm1 Hm2 Hsup)
        as (h' & E & _ & Hfr & Hnotin & Hinv').
      pose proof (fresh_not_live (objs h)) as Hfresh.
      set (b' := fresh (dom (objs h))) in *.
      exists (Some (b', 0)), h', (bs ++ [b']), 1. split; [exact E|]. split.
      * apply (Hfinish _ _ _ _ E Hinv').
        -- intros a o [= <- <-]. apply elem_of_app. right. by left.
        -- intros b ?. apply elem_of_app. by left.
        -- intros b Hin. apply elem_of_app in Hin as [?|Hin]; [by left|].
           apply list_elem_of_singleton in Hin as ->. by right.
        -- left. lia.
        -- intros k Hkl. rewrite length_app in Hkl. cbn [length] in Hkl.
           destruct (decide (k = length bs)) as [->|?]; [|apply Hsizes; lia].
           pose proof (capacity_pos s (length bs) Hs).
           apply can_multiply_pos in Hm2; [|lia].
           apply can_multiply_product in Hm2; lia.
      * split; [|exact Hfr]. rewrite Hu'. apply handed_out_grow.
        intros ->. cbn in Hlen. lia.
    + eapply Hsame; [apply (alloc_no_memory _ _ _ _ _ Hinv Hu'); rewrite ?Hsup; done || lia|done|done].
Qed.

Lemma alloc_n_step s pool d m0 n : ∀ bs u h,
  pool_owns s pool d bs u m0 (objs h) →
  ∃ rs h' bs' u', alloc_n pool n h = Ok rs h' ∧
    pool_owns s pool d bs' u' m0 (objs h') ∧
    handed_out s bs' u' = handed_out s bs u ++ omap id rs ∧
    freed h' = freed h.
Proof.
  induction n as [|n IH]; intros bs u h Howns.
  - exists [], h, bs, u. split; [reflexivity|]. split; [exact Howns|].
    split; [by rewrite app_nil_r|reflexivity].
  - destruct (alloc_step _ _ _ _ _ _ _ Howns) as (r & h1 & bs1 & u1 & E1 & Howns1 & Hout1 & Hfr1).
    destruct (IH _ _ _ Howns1) as (rs & h2 & bs2 & u2 & E2 & Howns2 & Hout2 & Hfr2).
    exists (r :: rs), h2, bs2, u2. split.
    { cbn [alloc_n]. rewrite (bind_Ok _ _ _ _ _ E1), (bind_Ok _ _ _ _ _ E2).
      reflexivity. }
    split; [exact Howns2|]. split; [|congruence].
    rewrite Hout2, Hout1, <- app_assoc. f_equal. by destruct r.
Qed.

(** The life of a pool: created, then asked for [n] nodes. *)
Lemma pool_run s h0 h1 h2 pool n rs :
  0 <= s <= SIZE_MAX →
  data_pool_new s h0 = Ok (Some pool) h1 →
  alloc_n pool n h1 = Ok rs h2 →
  ∃ d bs u, pool_owns s pool d bs u (objs h0) (objs h2) ∧
    handed_out s bs u = omap id rs ∧ freed h2 = freed h0.
Proof.
  intros Hs Hnew Hallocs.
  destruct (new_owns _ _ _ _ Hs Hnew) as (d & b0 & Howns & Hfr & _).
  destruct (alloc_n_step s pool d (objs h0) n _ _ _ Howns)
    as (rs' & h2' & bs & u & E & Howns2 & Hout & Hfr2).
  rewrite Hallocs in E. injection E as <- <-.
  exists d, bs, u. split; [exact Howns2|]. split; [|congruence].
  rewrite Hout. reflexivity.
Qed.

(** ** Allocation order is list order *)

(** X1.  The nodes returned by the successful calls among any [n] calls of
    [data_pool_alloc] on a new pool are pairwise distinct, and in the heap
    after the last call each of them is linked by [next] to the node
    returned by the following successful call, the last one to null; a
    node is flagged [head] exactly when it is the first of its block. *)
Theorem alloc_order_is_list_order (s : Z) (h0 h1 h2 : heap) (pool : addr)
    (n : nat) (rs : list (option nptr)) :
  0 <= s <= SIZE_MAX →
  data_pool_new s h0 = Ok (Some pool) h1 →
  alloc_n pool n h1 = Ok rs h2 →
  NoDup (omap id rs) ∧
  ∀ i p, omap id rs !! i = Some p →
    ∃ nd, node_at h2 p = Some nd ∧
      next nd = omap id rs !! S i ∧
      head nd = bool_decide (p.2 = 0).
Proof.
  intros Hs Hnew Hallocs.
  destruct (pool_run _ _ _ _ _ _ _ Hs Hnew Hallocs) as (d & bs & u & Howns & Hout & _).
  destruct Howns as (Hinv & _ & Hreach & _).
  rewrite <- Hout. by apply (handed_out_linked s pool).
Qed.

(** ** How many nodes a pool has handed out *)

(** X2.  After any [n] calls on a new pool of size [s], the number of nodes
    handed out is [s * (2 ^ index - 1) + used]; it never exceeds
    [s * (2 ^ 32 - 1)]. *)
Theorem alloc_count (s : Z) (h0 h1 h2 : heap) (pool : addr) (n : nat)
    (rs : list (option nptr)) :
  0 <= s <= SIZE_MAX →
  data_pool_new s h0 = Ok (Some pool) h1 →
  alloc_n pool n h1 = Ok rs h2 →
  ∃ p, pool_at h2 pool = Some p ∧
    Z.of_nat (length (omap id rs)) = s * (2 ^ index p - 1) + used p ∧
    Z.of_nat (length (omap id rs)) <= s * (2 ^ 32 - 1).
Proof.
  intros Hs Hnew Hallocs.
  destruct (pool_run _ _ _ _ _ _ _ Hs Hnew Hallocs) as (d & bs & u & Howns & Hout & _).
  destruct Howns as (Hinv & _).
  destruct (pool_inv_observe _ _ _ _ _ Hinv) as (d' & Hp & _).
  destruct Hinv as (_ & _ & _ & Hlen & _ & Hpos & _ & Hu & _).
  eexists. split; [exact Hp|]. cbn [index used]. rewrite <- Hout.
  assert (Hne : bs ≠ []) by (intros ->; cbn in Hlen; lia).
  rewrite handed_out_length by (done || lia). split; [reflexivity|].
  unfold capacity in Hu.
  replace (Z.of_nat (length bs - 1)) with (Z.of_nat (length bs) - 1) in Hu by lia.
  assert (Hpow : 2 ^ (Z.of_nat (length bs) - 1) * 2 <= 2 ^ 32).
  { rewrite Z.mul_comm, <- Z.pow_succ_r by lia. apply Z.pow_le_mono_r; lia. }
  set (P := 2 ^ (Z.of_nat (length bs) - 1)) in *. set (T := 2 ^ 32) in *.
  nia.
Qed.

(** ** No block is sized by a wrapped product *)

(** X3.  After any [n] calls on a new pool, every block the directory points
    to has a positive number of nodes whose size in bytes fits in
    [size_t], and so has the block size the pool records. *)
Theorem block_sizes_representable (s : Z) (h0 h1 h2 : heap) (pool : addr)
    (n : nat) (rs : list (option nptr)) :
  0 <= s <= SIZE_MAX →
  data_pool_new s h0 = Ok (Some pool) h1 →
  alloc_n pool n h1 = Ok rs h2 →
  (∃ p, pool_at h2 pool = Some p ∧
     0 < size p ∧ size p * sizeof_entry <= SIZE_MAX) ∧
  ∀ i b o, slot_at h2 pool i = Some (Some (b, o)) →
    ∃ c, block_capacity h2 b = Some c ∧
      0 < c ∧ c * sizeof_entry <= SIZE_MAX.
Proof.
  intros Hs Hnew Hallocs.
  destruct (pool_run _ _ _ _ _ _ _ Hs Hnew Hallocs) as (d & bs & u & Howns & _).
  destruct Howns as (Hinv & _ & _ & _ & _ & _ & _ & Hsizes).
  destruct (pool_inv_observe _ _ _ _ _ Hinv) as (d' & Hp & Hobs).
  pose proof Hinv as (d'' & Hp' & Hd & Hlen & _ & Hpos & _).
  split.
  - eexists. split; [exact Hp|]. cbn [size].
    split; [by apply capacity_pos|]. apply Hsizes. lia.
  - intros i b o Hslot. unfold slot_at in Hslot. rewrite Hp in Hslot.
    unfold pool_at in Hp. rewrite Hp' in Hp. injection Hp as <-.
    cbn [blocks] in Hslot. rewrite Hd in Hslot.
    destruct (0 <=? i); [|done].
    apply dir_slots_elem in Hslot. apply list_elem_of_lookup in Hslot as [k Ek].
    destruct (Hobs _ _ Ek) as (_ & Hcap & _).
    exists (capacity s k). split; [exact Hcap|].
    split; [by apply capacity_pos|]. apply Hsizes. by eapply lookup_lt_Some.
Qed.

(** ** [data_pool_alloc] keeps to its pool *)

(** X4.  Whatever the heap, a call that returns has freed nothing and has left
    the directory pointer and the slot count of the pool as they were.
    An allocation other than the pool struct, its directory and the
    blocks its directory points to is as before the call, unless it did
    not exist before and is the block whose first node is returned. *)
Theorem data_pool_alloc_frame (pool : addr) (h h' : heap) (r : option nptr) :
  data_pool_alloc pool h = Ok r h' →
  ∃ p p', pool_at h pool = Some p ∧ pool_at h' pool = Some p' ∧
    blocks p' = blocks p ∧ count p' = count p ∧
    freed h' = freed h ∧
    ∀ a, a ≠ pool → blocks p ≠ Some a →
      (∀ i o, slot_at h pool i ≠ Some (Some (a, o))) →
      objs h' !! a = objs h !! a ∨ (objs h !! a = None ∧ r = Some (a, 0)).
Proof.
  intros E.
  destruct (alloc_footprint _ _ _ _ E) as (p & p' & Hp & Hp' & Hrest).
  exists p, p'. unfold pool_at. rewrite Hp, Hp'. split; [done|]. split; [done|].
  exact Hrest.
Qed.

(** ** What a successful [data_pool_new] needed *)

(** X5.  [data_pool_new] returns a pool only for a positive size whose block
    fits in [size_t], on a platform where the 32 directory slots fit, and
    after exactly three successful memory acquisitions; the pool struct is
    a new allocation, and nothing has been freed. *)
Theorem data_pool_new_success_needs (sz : Z) (h h' : heap) (pool : addr) :
  0 <= sz <= SIZE_MAX →
  data_pool_new sz h = Ok (Some pool) h' →
  0 < sz ∧ sz * sizeof_entry <= SIZE_MAX ∧ 32 * sizeof_ptr <= SIZE_MAX ∧
  (∃ rest, supply h = true :: true :: true :: rest ∧ supply h' = rest) ∧
  objs h !! pool = None ∧ freed h' = freed h.
Proof.
  intros Hsz Hnew.
  destruct (new_owns _ _ _ _ Hsz Hnew) as (d & b0 & Howns & Hfr & Hm0 & Hsup).
  destruct Howns as (Hinv & _ & _ & Hfp & _ & _ & _ & Hsizes).
  destruct Hinv as (_ & _ & _ & _ & _ & Hpos & _).
  split; [exact Hpos|]. split.
  { specialize (Hsizes 0%nat ltac:(cbn; lia)). unfold capacity in Hsizes.
    change (Z.of_nat 0) with 0 in Hsizes. rewrite Z.pow_0_r in Hsizes. lia. }
  split.
  { apply can_multiply_pos in Hm0; [|lia]. apply can_multiply_product in Hm0; lia. }
  done.
Qed.

(** ** Full teardown *)

Lemma free_blocks_run pool p d bs : ∀ rest pre h,
  bs = pre ++ rest →
  objs h !! pool = Some (OPool p) → blocks p = Some d →
  objs h !! d = Some (ODir (dir_slots bs)) →
  (length bs <= 32)%nat → NoDup rest →
  (∀ b, b ∈ rest → b ≠ pool ∧ b ≠ d ∧ is_Some (objs h !! b)) →
  free_blocks pool (length rest) (Z.of_nat (length pre)) h =
  Ok tt (mk_heap (delete_all rest (objs h)) (supply h) (freed h ++ rest)).
Proof.
  induction rest as [|b rest IH]; intros pre h Hbs Hp Hbl Hd Hlen Hnd Hlive.
  - destruct h. cbn. by rewrite app_nil_r.
  - cbn [length free_blocks].
    apply NoDup_cons in Hnd as [Hbn Hnd].
    destruct (Hlive b ltac:(by left)) as (Hbp & Hbd & [o Hbo]).
    assert (Hlen' : (length pre + S (length rest) <= 32)%nat).
    { rewrite Hbs, length_app in Hlen. exact Hlen. }
    rewrite (bind_Ok _ _ _ _ _ (load_pool_Ok _ _ _ Hp)), Hbl.
    erewrite (bind_Ok _ _ _ _ (Some (b, 0)));
      [| apply (load_slot_Ok _ _ _ _ _ Hd); [lia|];
         rewrite Nat2Z.id; apply dir_slots_lookup_lt; rewrite Hbs;
         by apply list_lookup_middle ].
    rewrite bind_unfold. cbn [free_node]. rewrite Z.eqb_refl, (free_Ok _ _ _ Hbo).
    unfold wrap. rewrite Z.mod_small by lia.
    replace (Z.of_nat (length pre) + 1) with (Z.of_nat (length (pre ++ [b])))
      by (rewrite length_app; cbn [length]; lia).
    rewrite (IH (pre ++ [b])); cbn [objs supply freed].
    + cbn [delete_all foldl]. by rewrite <- app_assoc.
    + by rewrite Hbs, <- app_assoc.
    + by rewrite lookup_delete_ne.
    + exact Hbl.
    + by rewrite lookup_delete_ne.
    + exact Hlen.
    + exact Hnd.
    + intros b' Hin. destruct (Hlive b' ltac:(by right)) as (? & ? & ?).
      do 2 (split; [done|]). rewrite lookup_delete_ne; [done|]. by intros ->.
Qed.

Lemma destroy_all_run s pool bs u h :
  pool_inv s pool bs u (objs h) →
  ∃ d, (∃ p, objs h !! pool = Some (OPool p) ∧ blocks p = Some d) ∧
    (d ∉ bs) ∧ (pool ∉ bs) ∧ pool ≠ d ∧
    data_pool_destroy (Some pool) false h =
    Ok tt (mk_heap (delete pool (delete d (delete_all bs (objs h))))
                   (supply h) (freed h ++ bs ++ [d; pool])).
Proof.
  intros (d & Hp & Hd & Hlen & Hnd & Hs & Hcap & Hu & Hb).
  destruct (pool_inv_kinds _ _ _ _ _ _ Hp Hd Hb) as [Hpd Hk].
  assert (Hdn : d ∉ bs).
  { intros Hin. apply list_elem_of_lookup in Hin as [k Ek]. by destruct (Hk _ _ Ek). }
  assert (Hpn : pool ∉ bs).
  { intros Hin. apply list_elem_of_lookup in Hin as [k Ek]. by destruct (Hk _ _ Ek). }
  exists d. split; [eauto|]. do 3 (split; [done|]).
  unfold data_pool_destroy.
  rewrite (bind_Ok _ _ _ _ _ (load_pool_Ok _ _ _ Hp)). cbn [blocks index negb].
  replace (Z.to_nat (Z.of_nat (length bs) - 1 + 1)) with (length bs) by lia.
  rewrite !bind_unfold.
  change 0 with (Z.of_nat (length (@nil positive))) at 1.
  rewrite (free_blocks_run pool _ d bs bs [] h eq_refl Hp eq_refl Hd); [|lia|done|].
  2: { intros b Hin. apply list_elem_of_lookup in Hin as [k Ek].
       destruct (Hk _ _ Ek). destruct (Hb _ _ Ek) as (nodes & En & _).
       do 2 (split; [done|]). eauto. }
  cbn beta iota. rewrite bind_unfold.
  erewrite load_pool_Ok;
    [| cbn [objs]; rewrite delete_all_lookup_ne by done; exact Hp ].
  cbn [blocks].
  erewrite free_Ok; [| cbn [objs]; rewrite delete_all_lookup_ne by done; exact Hd ].
  erewrite free_Ok;
    [| cbn [objs]; rewrite lookup_delete_ne, delete_all_lookup_ne by done; exact Hp ].
  cbn [objs supply freed]. by rewrite <- !app_assoc.
Qed.

(** X6.  On a consistent pool with blocks [bs], [data_pool_destroy(pool,
    false)] returns after calling [free] on each block, in directory
    order, then on the directory, then on the pool struct: each of them
    once, and on nothing else. *)
Theorem data_pool_destroy_all (s : Z) (pool : addr) (bs : list addr) (u : Z)
    (h : heap) :
  pool_inv s pool bs u (objs h) →
  ∃ d h', data_pool_destroy (Some pool) false h = Ok tt h' ∧
    freed h' = freed h ++ bs ++ [d; pool] ∧
    NoDup (bs ++ [d; pool]) ∧
    (∀ k b, bs !! k = Some b → slot_at h pool (Z.of_nat k) = Some (Some (b, 0))) ∧
    (∃ p, pool_at h pool = Some p ∧ blocks p = Some d ∧
          Z.of_nat (length bs) = index p + 1) ∧
    ∀ a, objs h' !! a =
         if decide (a ∈ bs ++ [d; pool]) then None else objs h !! a.
Proof.
  intros Hinv.
  destruct (destroy_all_run _ _ _ _ _ Hinv) as (d & (p & Hp & Hbl) & Hdn & Hpn & Hpd & E).
  destruct (pool_inv_observe _ _ _ _ _ Hinv) as (d' & Hp' & Hobs).
  pose proof Hinv as (_ & _ & _ & _ & Hnd & _).
  exists d. eexists. split; [exact E|]. cbn [objs freed].
  split; [reflexivity|]. split.
  { apply NoDup_app. split; [exact Hnd|]. split.
    - intros x Hx Hx'. apply elem_of_cons in Hx' as [->|Hx']; [done|].
      apply list_elem_of_singleton in Hx' as ->. done.
    - apply NoDup_cons. split; [|apply NoDup_singleton].
      intros Hx. apply list_elem_of_singleton in Hx. congruence. }
  split; [intros k b Ek; by destruct (Hobs _ _ Ek)|].
  split.
  { unfold pool_at in *. rewrite Hp in Hp' |- *. injection Hp' as ->.
    eexists. split; [reflexivity|]. cbn [blocks index] in *. split; [done|lia]. }
  intros a. destruct (decide (a ∈ bs ++ [d; pool])) as [Hin|Hout].
  - apply elem_of_app in Hin as [Hin|Hin].
    + rewrite !lookup_delete_ne by (intros ->; done).
      by apply delete_all_lookup_in.
    + apply elem_of_cons in Hin as [->|Hin].
      * rewrite lookup_delete_ne by done. apply lookup_delete_eq.
      * apply list_elem_of_singleton in Hin as ->. apply lookup_delete_eq.
  - rewrite !lookup_delete_ne, delete_all_lookup_ne; [done| | |].
    + intros Hin. apply Hout. apply elem_of_app. by left.
    + intros ->. apply Hout. apply elem_of_app. right. by left.
    + intros ->. apply Hout. apply elem_of_app. right. right. by left.
Qed.

(** ** Nothing leaks *)

Lemma chain_ptrs_length c : length (chain_ptrs c) = chain_nodes c.
Proof.
  unfold chain_nodes. induction c as [|[b n] c IH]; [done|].
  cbn [chain_ptrs fmap list_fmap snd sum_list sum_list_with id].
  by rewrite length_app, block_ptrs_length, IH.
Qed.

Lemma owned_restore s pool d bs u m0 m l :
  pool_owns s pool d bs u m0 m →
  l ≡ₚ bs ++ [d; pool] →
  (∀ a, a ∈ l → m0 !! a = None ∧ is_Some (m !! a)) ∧
  (∀ a, a ∉ l → m !! a = m0 !! a) ∧ NoDup l.
Proof.
  intros (Hinv & (p0 & Hp0 & Hbl0) & _ & Hfp & Hfd & Hfb & Hframe & _) Hperm.
  pose proof Hinv as (d' & Hp & Hd & _ & Hnd & _ & _ & _ & Hb).
  assert (d' = d) as ->.
  { rewrite Hp in Hp0. injection Hp0 as <-. cbn in Hbl0. congruence. }
  destruct (pool_inv_kinds _ _ _ _ _ _ Hp Hd Hb) as [Hpd Hk].
  assert (Hin : ∀ a, a ∈ l ↔ a ∈ bs ∨ a = d ∨ a = pool).
  { intros a. rewrite Hperm, elem_of_app, !elem_of_cons, elem_of_nil.
    tauto. }
  split; [|split].
  - intros a Ha. apply Hin in Ha as [Ha|[->| ->]]; [|eauto|eauto].
    split; [by apply Hfb|]. apply list_elem_of_lookup in Ha as [k Ek].
    destruct (Hb _ _ Ek) as (nodes & En & _). eauto.
  - intros a Ha. apply Hframe; intros ?; apply Ha, Hin; auto.
  - rewrite Hperm. apply NoDup_app. split; [exact Hnd|]. split.
    + intros x Hx Hx'. apply list_elem_of_lookup in Hx as [k Ek].
      destruct (Hk _ _ Ek). apply elem_of_cons in Hx' as [?|Hx']; [done|].
      by apply list_elem_of_singleton in Hx'.
    + apply NoDup_cons. split; [|apply NoDup_singleton].
      intros Hx. apply list_elem_of_singleton in Hx. congruence.
Qed.


(** X7.  A pool created, asked for any number of nodes and then destroyed with
    [keep_list = false] leaves the heap as it was before its creation:
    [data_pool_destroy] returns, and it has freed, once each, exactly the
    allocations made since. *)
Theorem create_alloc_destroy_restores (s : Z) (h0 h1 h2 : heap) (pool : addr)
    (n : nat) (rs : list (option nptr)) :
  0 <= s <= SIZE_MAX →
  data_pool_new s h0 = Ok (Some pool) h1 →
  alloc_n pool n h1 = Ok rs h2 →
  ∃ h3 l, data_pool_destroy (Some pool) false h2 = Ok tt h3 ∧
    objs h3 = objs h0 ∧
    freed h3 = freed h0 ++ l ∧ NoDup l ∧
    ∀ a, a ∈ l ↔ objs h0 !! a = None ∧ is_Some (objs h2 !! a).
Proof.
  intros Hs Hnew Hallocs.
  destruct (pool_run _ _ _ _ _ _ _ Hs Hnew Hallocs) as (d & bs & u & Howns & _ & Hfr).
  pose proof Howns as (Hinv & (p0 & Hp0 & Hbl0) & _).
  destruct (destroy_all_run _ _ _ _ _ Hinv) as (d' & (p & Hp & Hbl) & Hdn & Hpn & Hpd & E).
  assert (d' = d) as -> by congruence.
  destruct (owned_restore _ _ _ _ _ _ _ (bs ++ [d; pool]) Howns ltac:(done))
    as (Hin & Hout & Hnd).
  eexists. exists (bs ++ [d; pool]). split; [exact E|]. cbn [objs freed].
  split; [|split; [by rewrite Hfr|split; [exact Hnd|]]].
  - apply map_eq. intros a.
    destruct (decide (a ∈ bs ++ [d; pool])) as [Ha|Ha].
    + rewrite (proj1 (Hin a Ha)).
      apply elem_of_app in Ha as [Ha|Ha].
      * rewrite !lookup_delete_ne by (intros ->; done).
        by apply delete_all_lookup_in.
      * apply elem_of_cons in Ha as [->|Ha].
        -- rewrite lookup_delete_ne by done. apply lookup_delete_eq.
        -- apply list_elem_of_singleton in Ha as ->. apply lookup_delete_eq.
    + rewrite <- (Hout a Ha).
      rewrite !lookup_delete_ne, delete_all_lookup_ne; [done|..];
        intros E'; apply Ha; rewrite elem_of_app, !elem_of_cons; auto.
  - intros a. split; [apply Hin|]. intros [Hnone [o Hsome]].
    destruct (decide (a ∈ bs ++ [d; pool])) as [Ha|Ha]; [done|].
    rewrite (Hout a Ha) in Hsome. congruence.
Qed.

(** X8.  The other way to end a pool: destroy it with [keep_list = true], then
    pass the first node handed out to [data_pool_list_destroy].  Both
    calls return, the second with [true] given fuel for one iteration per
    node handed out, and the heap is left as it was before the pool was
    created; every allocation made since has been freed exactly once. *)
Theorem create_alloc_detach_dispose_restores (s : Z) (h0 h1 h2 : heap)
    (pool : addr) (n fuel : nat) (rs : list (option nptr)) (first : nptr) :
  0 <= s <= SIZE_MAX →
  data_pool_new s h0 = Ok (Some pool) h1 →
  alloc_n pool n h1 = Ok rs h2 →
  omap id rs !! 0%nat = Some first →
  (length (omap id rs) < fuel)%nat →
  ∃ h3 h4 l, data_pool_destroy (Some pool) true h2 = Ok tt h3 ∧
    data_pool_list_destroy fuel (Some first) h3 = Ok true h4 ∧
    objs h4 = objs h0 ∧
    freed h4 = freed h0 ++ l ∧ NoDup l ∧
    ∀ a, a ∈ l ↔ objs h0 !! a = None ∧ is_Some (objs h2 !! a).
Proof.
  intros Hs Hnew Hallocs Hfirst Hfuel.
  destruct (pool_run _ _ _ _ _ _ _ Hs Hnew Hallocs) as (d & bs & u & Howns & Hout & Hfr).
  pose proof Howns as (Hinv & (p0 & Hp0 & Hbl0) & Hreach & _).
  pose proof Hinv as (d' & Hp & Hd & _ & _ & _ & _ & Hu & Hb).
  assert (d' = d) as ->.
  { rewrite Hp in Hp0. injection Hp0 as <-. cbn in Hbl0. congruence. }
  destruct (pool_inv_kinds _ _ _ _ _ _ Hp Hd Hb) as [Hpd Hk].
  assert (Hu1 : 1 <= u).
  { destruct Hreach as [?|Hlen]; [done|].
    destruct (decide (1 <= u)); [done|]. exfalso.
    destruct bs as [|b [|]]; try done. rewrite <- Hout in Hfirst.
    unfold handed_out in Hfirst. cbn in Hfirst.
    replace (Z.to_nat u) with 0%nat in Hfirst by lia. done. }
  destruct (pool_chain_well_formed _ _ _ _ _ Hinv) as [Hnd Hc].
  assert (Hptrs : handed_out s bs u = chain_ptrs (pool_chain s bs u))
    by (by apply handed_out_from_chain).
  assert (Hstart : chain_start (pool_chain s bs u) = Some first).
  { rewrite <- (chain_ptrs_head _ _ Hc), <- Hptrs, Hout. exact Hfirst. }
  destruct (owned_restore _ _ _ _ _ _ _ ([d; pool] ++ bs) Howns)
    as (Hin & Hout' & Hndl).
  { by rewrite (comm (++)). }
  do 2 eexists. exists ([d; pool] ++ bs).
  split; [by eapply destroy_keep_list_run|].
  rewrite <- Hstart, list_destroy_chain.
  - cbn [objs freed]. unfold pool_chain. rewrite pool_chain_from_fst.
    split; [reflexivity|]. cbn [objs freed].
    split; [|split; [by rewrite Hfr, <- app_assoc|split; [exact Hndl|]]].
    + apply map_eq. intros a.
      destruct (decide (a ∈ [d; pool] ++ bs)) as [Ha|Ha].
      * rewrite (proj1 (Hin a Ha)).
        destruct (decide (a ∈ bs)) as [Hbs|Hbs]; [by apply delete_all_lookup_in|].
        rewrite delete_all_lookup_ne by done.
        apply elem_of_app in Ha as [Ha|Ha]; [|done].
        apply elem_of_cons in Ha as [->|Ha].
        -- rewrite lookup_delete_ne by done. apply lookup_delete_eq.
        -- apply list_elem_of_singleton in Ha as ->. apply lookup_delete_eq.
      * rewrite <- (Hout' a Ha).
        rewrite delete_all_lookup_ne, !lookup_delete_ne; [done|..];
          intros E; apply Ha; rewrite elem_of_app, !elem_of_cons; auto.
    + intros a. split; [apply Hin|]. intros [Hnone [o Hsome]].
      destruct (decide (a ∈ [d; pool] ++ bs)) as [Ha|Ha]; [done|].
      rewrite (Hout' a Ha) in Hsome. congruence.
  - split; [exact Hnd|]. cbn [objs].
    eapply chain_ok_frame; [|exact Hc].
    unfold pool_chain. rewrite pool_chain_from_fst. intros b nodes Hbin Hbn.
    apply list_elem_of_lookup in Hbin as [k Ek]. destruct (Hk _ _ Ek).
    rewrite !lookup_delete_ne by congruence. exact Hbn.
  - rewrite <- chain_ptrs_length, <- Hptrs, Hout. exact Hfuel.
Qed.

(** ** The disposer on any heap *)

Lemma free_node_supply e h h' :
  free_node e h = Ok tt h' → supply h' = supply h.
Proof.
  destruct e as [[b o]|]; cbn [free_node]; [|by intros [= <-]].
  destruct (o =? 0); [|done].
  unfold free. destruct (objs h !! b); [|done]. by intros [= <-].
Qed.

(** X9.  Whatever heap [data_pool_list_destroy] is run on, and whatever it
    returns: it allocates nothing, and each address it has freed was freed
    once, through a pointer to the first node of a block whose [head] flag
    was set when the call began.  The heap it leaves is the one it found
    less those blocks. *)
Theorem data_pool_list_destroy_frees_heads (fuel : nat) : ∀ (lst : option nptr)
    (h h' : heap) (r : bool),
  data_pool_list_destroy fuel lst h = Ok r h' →
  supply h' = supply h ∧
  ∃ l, freed h' = freed h ++ l ∧ NoDup l ∧
    objs h' = delete_all l (objs h) ∧
    ∀ a, a ∈ l → ∃ nd, node_at h (a, 0) = Some nd ∧ head nd = true.
Proof.
  induction fuel as [|fuel IH]; intros [e|] h h' r E;
    cbn [data_pool_list_destroy] in E; try done.
  1,3: change (Ok true h = Ok r h') in E; injection E as <- <-;
    (split; [done|]); exists []; rewrite app_nil_r;
    repeat split; [constructor|by intros a ?%not_elem_of_nil].
  apply bind_inv in E as (nd & h1 & Hld & E).
  apply load_node_inv in Hld as [-> Hnd].
  destruct (head nd) eqn:Hh; cbn [negb] in E.
  2: { injection E as <- <-. split; [done|]. exists [].
       rewrite app_nil_r. repeat split; [constructor|by intros a ?%not_elem_of_nil]. }
  apply bind_inv in E as (ne & h1 & Hscan & E).
  apply get_list_head_inv in Hscan as [-> _].
  apply bind_inv in E as ([] & h1 & Hfree & E).
  pose proof (free_node_supply _ _ _ Hfree) as Hsup.
  apply free_node_inv in Hfree as (He & Ho & Hf).
  destruct (IH _ _ _ _ E) as (Hsup' & l & Hfl & Hnd' & Hol & Hheads).
  split; [congruence|].
  assert (Hkeep : ∀ a, a ∈ l → a ≠ e.1).
  { intros a Ha ->. destruct (Hheads _ Ha) as (nd' & Hnd2 & _).
    unfold node_at in Hnd2. cbn [fst] in Hnd2.
    by rewrite Ho, lookup_delete_eq in Hnd2. }
  exists (e.1 :: l). split; [by rewrite Hfl, Hf, <- app_assoc|].
  split; [|split].
  - apply NoDup_cons. split; [|done]. intros Ha. by apply (Hkeep _ Ha).
  - rewrite Hol, Ho. reflexivity.
  - intros a [->|Ha]%elem_of_cons.
    + exists nd. split; [|done]. destruct e as [b o]. cbn in He. by subst o.
    + destruct (Hheads _ Ha) as (nd' & Hnd2 & Hh2). exists nd'. split; [|done].
      unfold node_at in *. cbn [fst] in *.
      by rewrite Ho, lookup_delete_ne in Hnd2 by (intros ?; by apply (Hkeep _ Ha)).
Qed.

(** ** The scan for the next block *)

(** [first_head h lst r]: following [next] from [lst], [r] is the first
    node met that is flagged [head], and null if the nodes run out
    first. *)
Inductive first_head (h : heap) : option nptr → option nptr → Prop :=
  | first_head_null : first_head h None None
  | first_head_here e nd :
      node_at h e = Some nd → head nd = true →
      first_head h (Some e) (Some e)
  | first_head_skip e nd r :
      node_at h e = Some nd → head nd = false →
      first_head h (next nd) r →
      first_head h (Some e) r.

(** X10.  [data_pool_get_list_head] returns, for some bound on its loop, exactly
    when following [next] from its argument leads to a flagged node or to
    null without leaving the live nodes; what it returns is that node (its
    argument itself if that is flagged), whatever the bound, and it leaves
    the heap as it found it. *)
Theorem data_pool_get_list_head_first_head (lst r : option nptr) (h h' : heap) :
  (∃ fuel, data_pool_get_list_head fuel lst h = Ok r h') ↔
  h' = h ∧ first_head h lst r.
Proof.
  split.
  - intros [fuel E]. revert lst E.
    induction fuel as [|fuel IH]; intros [e|] E;
      cbn [data_pool_get_list_head] in E; try done.
    1,3: change (Ok None h = Ok r h') in E; injection E as <- <-;
      split; [done|constructor].
    apply bind_inv in E as (nd & h1 & Hld & E).
    apply load_node_inv in Hld as [-> Hnd].
    destruct (head nd) eqn:Hh.
    + injection E as <- <-. split; [done|]. by econstructor.
    + destruct (IH _ E) as [-> Hfh]. split; [done|]. by eapply first_head_skip.
  - intros [-> Hfh]. induction Hfh as [|e nd Hnd Hh|e nd r Hnd Hh Hfh [fuel IH]].
    + by exists 0%nat.
    + exists 1%nat. cbn [data_pool_get_list_head].
      by rewrite (bind_Ok _ _ _ _ _ (load_node_at _ _ _ Hnd)), Hh.
    + exists (S fuel). cbn [data_pool_get_list_head].
      by rewrite (bind_Ok _ _ _ _ _ (load_node_at _ _ _ Hnd)), Hh.
Qed.

(** ** The overflow guard *)

(** X11.  For a non-negative [m], [can_multiply max m n] holds exactly when [m]
    is positive and the product [m * n], computed without wrap-around, is
    at most [max]: the division in the code loses nothing. *)
Theorem can_multiply_exact (max m n : Z) :
  0 <= m →
  (can_multiply max m n = true ↔ 0 < m ∧ m * n <= max).
Proof.
  intros Hm. unfold can_multiply.
  destruct (Z.eqb_spec m 0) as [->|Hne]; [split; [done|lia]|].
  rewrite Z.leb_le. split.
  - intros Hle. split; [lia|].
    pose proof (Z.mul_div_le max m ltac:(lia)). nia.
  - intros [_ Hle]. apply Z.div_le_lower_bound; lia.
Qed.

(** X12.  When both guards of [data_pool_alloc] pass for a block size [sz], the
    doubled size and the byte count passed to [calloc] are the exact
    products: the [size_t] arithmetic has not wrapped. *)
Theorem alloc_guards_no_wrap (sz : Z) :
  0 <= sz → 0 <= sizeof_entry →
  can_multiply SIZE_MAX sz 2 = true →
  can_multiply SIZE_MAX (wrap (sz * 2)) sizeof_entry = true →
  wrap (sz * 2) = sz * 2 ∧
  wrap (wrap (sz * 2) * sizeof_entry) = sz * 2 * sizeof_entry.
Proof.
  clear SIZE_MAX_ge. intros Hsz Hse H1 H2.
  assert (Hw : ∀ x, 0 <= x <= SIZE_MAX → wrap x = x).
  { intros x Hx. unfold wrap. apply Z.mod_small. lia. }
  unfold can_multiply in H1.
  destruct (Z.eqb_spec sz 0) as [->|Hne]; [done|].
  apply Z.leb_le in H1.
  assert (sz * 2 <= SIZE_MAX).
  { pose proof (Z.mul_div_le SIZE_MAX sz ltac:(lia)). nia. }
  rewrite (Hw (sz * 2)) in * by lia. split; [done|].
  unfold can_multiply in H2.
  destruct (Z.eqb_spec (sz * 2) 0) as [|Hne2]; [done|].
  apply Z.leb_le in H2.
  apply Hw. split; [nia|].
  pose proof (Z.mul_div_le SIZE_MAX (sz * 2) ltac:(lia)). nia.
Qed.

(** ** test_can_multiply, data-pool.c lines 208-222 *)

(** What the three [ok] checks of the self-test are given. *)
Definition test_can_multiply : list bool :=
  [ can_multiply SIZE_MAX 1 SIZE_MAX;
    negb (can_multiply SIZE_MAX 2 SIZE_MAX);
    can_multiply SIZE_MAX 10240 sizeof_entry ].

(** X13.  The first two checks of [test_can_multiply] pass on every platform;
    the third passes exactly when 10240 nodes take no more than
    [SIZE_MAX] bytes. *)
Theorem test_can_multiply_passes :
  ∃ b, test_can_multiply = [true; true; b] ∧
    (b = true ↔ 10240 * sizeof_entry <= SIZE_MAX).
Proof.
  exists (can_multiply SIZE_MAX 10240 sizeof_entry). split.
  - unfold test_can_multiply, can_multiply at 1 2.
    change (1 =? 0) with false. change (2 =? 0) with false. cbn beta iota.
    rewrite Z.div_1_r, Z.leb_refl.
    assert ((SIZE_MAX <=? SIZE_MAX / 2) = false) as ->; [|reflexivity].
    apply Z.leb_gt. apply Z.div_lt; lia.
  - unfold can_multiply. change (10240 =? 0) with false. cbn beta iota.
    rewrite Z.leb_le. split.
    + intros H. pose proof (Z.mul_div_le SIZE_MAX 10240 ltac:(lia)). lia.
    + intros H. apply Z.div_le_lower_bound; lia.
Qed.

End DataPool.


Arguments Ok {_ _} _ _.
Arguments Fault {_ _}.
Arguments OutOfFuel {_ _}.
Arguments mk_heap {_} _ _ _.
Arguments objs {_} _.
Arguments supply {_} _.
Arguments freed {_} _.
Arguments mk_node {_} _ _ _.
Arguments entry_data {_} _.
Arguments next {_} _.
Arguments head {_} _.
Arguments OPool {_} _.
Arguments ODir {_} _.
Arguments OBlock {_} _.
Arguments pool_at {_} _ _.
Arguments node_at {_} _ _.
Arguments slot_at {_} _ _ _.
Arguments block_capacity {_} _ _.
Arguments well_formed_chain {_} _ _.
Arguments new_failed {_} _ _.
Arguments first_head {_} _ _ _.
Arguments delete_all {_} _ _.

(** * A concrete platform

    An LP64 instance on which the properties above are exercised: 64-bit
    [size_t], 8-byte pointers, 64 bytes for an [MMDB_entry_data_list_s],
    and integers standing for the payload. *)
Module LP64.

#[local] Existing Instance M_ret.
#[local] Existing Instance M_bind.

Definition SIZE_MAX : Z := 2 ^ 64 - 1.
Definition sizeof_ptr : Z := 8.
Definition sizeof_entry : Z := 64.

Lemma SIZE_MAX_ge : 65535 <= SIZE_MAX.
Proof. unfold SIZE_MAX. lia. Qed.

Definition new := data_pool_new SIZE_MAX sizeof_ptr sizeof_entry Z 0.
Definition alloc := data_pool_alloc SIZE_MAX sizeof_entry Z 0.
Definition allocs := alloc_n SIZE_MAX sizeof_entry Z 0.
Definition destroy := data_pool_destroy SIZE_MAX Z.
Definition list_destroy := data_pool_list_destroy Z.

(** An empty heap with memory for [n] allocations. *)
Definition fresh_heap (n : nat) : heap Z := mk_heap ∅ (replicate n true) [].

(** The heap an outcome leaves ([dflt] if there is none). *)
Definition heap_of {A} (dflt : heap Z) (o : outcome Z A) : heap Z :=
  match o with
  | Ok _ h => h
  | _ => dflt
  end.

(** [create(2)], then two allocations: block 0 is exhausted. *)
Definition h_created : heap Z := heap_of (fresh_heap 0) (new 2 (fresh_heap 4)).
Definition h_exhausted : heap Z :=
  heap_of (fresh_heap 0) (allocs 1%positive 2 h_created).

(** The same pool when the allocator has nothing left to give. *)
Definition h_no_memory : heap Z := mk_heap (objs h_exhausted) [false] [].

(** A third allocation: the pool now has two blocks, of 2 and 4 nodes. *)
Definition h_grown : heap Z := heap_of (fresh_heap 0) (alloc 1%positive h_exhausted).

(** The list detached from that pool. *)
Definition h_detached : heap Z :=
  heap_of (fresh_heap 0) (destroy (Some 1%positive) true h_grown).

(** A pool whose directory is full and whose last block is exhausted. *)
Definition full_pool : MMDB_data_pool_s := mk_pool (Some 2%positive) 32 31 1 1.
Definition h_full : heap Z :=
  mk_heap {[ 1%positive := OPool full_pool ]} [true; true] [].

(** A two-block chain whose second block lost its [head] flag. *)
Definition h_unflagged : heap Z :=
  mk_heap (<[ 1%positive := OBlock [mk_node 7 (Some (2%positive, 0)) true] ]>
             {[ 2%positive := OBlock [mk_node 8 None false] ]}) [] [].

(** ** The properties at work *)

Lemma can_multiply_spec_witness :
  can_multiply 10 0 5 = false ∧ (can_multiply 10 3 3 = true ↔ 3 <= 10 / 3).
Proof.
  split.
  - apply (can_multiply_spec 10 0 5). reflexivity.
  - apply (can_multiply_spec 10 3 3). lia.
Defined.

Lemma alloc_grows_after_first_block_witness :
  new 2 (fresh_heap 4) = Ok (Some 1%positive) h_created ∧
  allocs 1%positive (Z.to_nat 2) h_created =
    Ok [Some (3%positive, 0); Some (3%positive, 1)] h_exhausted ∧
  ∃ b1 h3 p3,
    alloc 1%positive h_exhausted = Ok (Some (b1, 0)) h3 ∧
    block_capacity h3 b1 = Some (2 * 2) ∧
    head <$> node_at h3 (b1, 0) = Some true ∧
    next <$> node_at h3 (3%positive, 2 - 1) = Some (Some (b1, 0)) ∧
    pool_at h3 1%positive = Some p3 ∧
    index p3 = 1 ∧ size p3 = 2 * 2 ∧ used p3 = 1.
Proof.
  assert (H1 : new 2 (fresh_heap 4) = Ok (Some 1%positive) h_created)
    by (vm_compute; reflexivity).
  assert (H2 : allocs 1%positive (Z.to_nat 2) h_created =
               Ok [Some (3%positive, 0); Some (3%positive, 1)] h_exhausted)
    by (vm_compute; reflexivity).
  split; [exact H1|]. split; [exact H2|].
  destruct (alloc_grows_after_first_block SIZE_MAX sizeof_ptr sizeof_entry Z 0
              SIZE_MAX_ge 2 (fresh_heap 4) h_created h_exhausted 1%positive
              _ [] ltac:(unfold SIZE_MAX; lia) H1 H2 eq_refl eq_refl eq_refl)
    as (b0 & b1 & h3 & p2 & p3 & _ & _ & Hi2 & _ & _ & Hs & _ & E & Hc & Hh & Hn & Hp & Hi & Hsz & Hu & _).
  assert (b0 = 3%positive) as -> by (vm_compute in Hs; congruence).
  exists b1, h3, p3. rewrite Hi2 in Hi. repeat split; assumption.
Defined.

Lemma data_pool_alloc_failure_witness :
  (pool_at (mk_heap (objs h_exhausted) [] []) 1%positive = pool_at h_no_memory 1%positive ∧
   objs (mk_heap (objs h_exhausted) [] []) = objs h_no_memory) ∧
  alloc 1%positive h_full = Ok None h_full.
Proof.
  split.
  - destruct (data_pool_alloc_failure SIZE_MAX sizeof_entry Z 0 SIZE_MAX_ge
                1%positive h_no_memory (mk_heap (objs h_exhausted) [] []))
      as [H _].
    destruct (H ltac:(vm_compute; reflexivity)) as (Hp & _).
    split; [exact Hp|reflexivity].
  - destruct (data_pool_alloc_failure SIZE_MAX sizeof_entry Z 0 SIZE_MAX_ge
                1%positive h_full h_full) as [_ H].
    apply (H full_pool); [reflexivity | simpl; lia | reflexivity].
Defined.

Lemma block_capacities_double_witness :
  ∃ rs h2 p, allocs 1%positive 7 h_created = Ok rs h2 ∧
    pool_at h2 1%positive = Some p ∧ size p = 2 * 2 ^ index p.
Proof.
  destruct (block_capacities_double SIZE_MAX sizeof_ptr sizeof_entry Z 0
              SIZE_MAX_ge 2 (fresh_heap 4) h_created 1%positive 7
              ltac:(unfold SIZE_MAX; lia) ltac:(vm_compute; reflexivity))
    as (rs & h2 & p & E & Hp & _ & Hs & _).
  exists rs, h2, p. repeat split; assumption.
Defined.

Lemma data_pool_new_then_alloc_witness :
  ∃ pool b0 h1 h2,
    new 2 (fresh_heap 4) = Ok (Some pool) h1 ∧
    block_capacity h1 b0 = Some 2 ∧
    alloc pool h1 = Ok (Some (b0, 0)) h2 ∧
    supply h2 = supply h1.
Proof.
  destruct (data_pool_new_then_alloc SIZE_MAX sizeof_ptr sizeof_entry Z 0
              SIZE_MAX_ge 2 (fresh_heap 4) [true]
              ltac:(unfold SIZE_MAX; lia)
              ltac:(unfold SIZE_MAX, sizeof_ptr; lia)
              ltac:(unfold SIZE_MAX, sizeof_entry; lia) eq_refl)
    as (pool & b0 & h1 & h2 & p & p2 & E & _ & _ & _ & _ & _ & _ & Hc & _ & Ea & Hs & _).
  exists pool, b0, h1, h2. repeat split; assumption.
Defined.

(** With memory to spare, [data_pool_new(SIZE_MAX)] returns NULL: the
    size of the block does not fit in [size_t]. *)
Lemma data_pool_new_positive_size_fails :
  0 < SIZE_MAX ∧
  new SIZE_MAX (fresh_heap 3) = Ok None (mk_heap ∅ [true] [2%positive; 1%positive]).
Proof. split; [unfold SIZE_MAX; lia|]. vm_compute. reflexivity. Qed.

Lemma data_pool_new_failure_witness :
  ∃ h', new 0 (fresh_heap 3) = Ok None h' ∧ objs h' = objs (fresh_heap 3).
Proof.
  destruct (data_pool_new_failure SIZE_MAX sizeof_ptr sizeof_entry Z 0 0
              (fresh_heap 3) ltac:(unfold SIZE_MAX; lia))
    as (r & h' & E & Hz & _ & Hf).
  rewrite (Hz eq_refl) in E, Hf. exists h'. split; [exact E|].
  apply (Hf eq_refl).
Defined.

Lemma h_detached_well_formed :
  well_formed_chain (objs h_detached) [(3%positive, 2%nat); (4%positive, 1%nat)].
Proof.
  split.
  { cbn. apply NoDup_cons. split; [|apply NoDup_singleton].
    intros H. apply list_elem_of_singleton in H. discriminate. }
  split; [|split; [|exact I]].
  - eexists. split; [vm_compute; reflexivity|]. split; [simpl; lia|].
    intros [|[|i]] nd Hi Hnd; simpl in Hnd; try lia; injection Hnd as <-; done.
  - eexists. split; [vm_compute; reflexivity|]. split; [simpl; lia|].
    intros [|i] nd Hi Hnd; simpl in Hnd; try lia; injection Hnd as <-; done.
Defined.

Lemma data_pool_list_destroy_well_formed_witness :
  ∃ h', list_destroy 4 (Some (3%positive, 0)) h_detached = Ok true h' ∧
    freed h' = freed h_detached ++ [3%positive; 4%positive].
Proof.
  destruct (data_pool_list_destroy_well_formed Z
              [(3%positive, 2%nat); (4%positive, 1%nat)] h_detached 4
              h_detached_well_formed ltac:(vm_compute; lia))
    as (h' & E & Hf & _).
  exists h'. split; assumption.
Defined.

(** The second block of the chain is not flagged, yet the disposer
    reports success: it frees the first block and scans past the second,
    which stays allocated. *)
Lemma data_pool_list_destroy_misses_unflagged_block :
  (head <$> node_at h_unflagged (2%positive, 0)) = Some false ∧
  list_destroy 3 (Some (1%positive, 0)) h_unflagged =
    Ok true (mk_heap {[ 2%positive := OBlock [mk_node 8 None false] ]} [] [1%positive]).
Proof. split; vm_compute; reflexivity. Qed.

Lemma data_pool_list_destroy_failure_witness :
  list_destroy 1 (Some (2%positive, 0)) h_unflagged = Ok false h_unflagged.
Proof.
  destruct (data_pool_list_destroy_failure Z 0 (Some (2%positive, 0))
              h_unflagged h_unflagged) as [H _].
  apply (H (2%positive, 0) (mk_node 8 None false)); reflexivity.
Defined.

Lemma data_pool_destroy_keep_list_witness :
  ∃ h', destroy (Some 1%positive) true h_grown = Ok tt h' ∧
    freed h' = freed h_grown ++ [2%positive; 1%positive] ∧
    node_at h' (3%positive, 1) = node_at h_grown (3%positive, 1).
Proof.
  destruct (data_pool_destroy_keep_list SIZE_MAX Z 1%positive 2%positive
              (mk_pool (Some 2%positive) 32 1 4 1)
              (dir_slots [3%positive; 4%positive]) h_grown
              ltac:(vm_compute; reflexivity) eq_refl ltac:(vm_compute; reflexivity))
    as [(h' & E & Hf & _ & Hn & _) _].
  exists h'. split; [exact E|]. split; [exact Hf|]. apply Hn.
Defined.

(** The scenario of the specification: [create(4)], four allocations
    chained 0 -> 1 -> 2 -> 3 in one block, and a fifth that opens a block
    of 8 nodes, linked from node 3, with [used = 1] and [size = 8]. *)
Example scenario_create_4 :
  (pool ← new 4;
   match pool with
   | None => mret None
   | Some pool =>
       rs ← allocs pool 5;
       mret (Some rs)
   end) (fresh_heap 4) =
  Ok (Some [Some (3%positive, 0); Some (3%positive, 1); Some (3%positive, 2);
            Some (3%positive, 3); Some (4%positive, 0)])
     (mk_heap
        (<[ 1%positive := OPool (mk_pool (Some 2%positive) 32 1 8 1) ]>
         (<[ 2%positive := ODir (dir_slots [3%positive; 4%positive]) ]>
          (<[ 3%positive := OBlock [mk_node 0 (Some (3%positive, 1)) true;
                                    mk_node 0 (Some (3%positive, 2)) false;
                                    mk_node 0 (Some (3%positive, 3)) false;
                                    mk_node 0 (Some (4%positive, 0)) false] ]>
           {[ 4%positive := OBlock (mk_node 0 None true
                                     :: replicate 7 (mk_node 0 None false)) ]})))
        [] []).
Proof. vm_compute. reflexivity. Qed.

(** ** The further properties at work *)

(** The list of [h_detached], disposed of. *)
Definition h_disposed : heap Z :=
  heap_of (fresh_heap 0) (list_destroy 4 (Some (3%positive, 0)) h_detached).

Lemma alloc_order_is_list_order_witness :
  NoDup [(3%positive, 0); (3%positive, 1); (4%positive, 0)] ∧
  next <$> node_at h_grown (3%positive, 1) = Some (Some (4%positive, 0)) ∧
  head <$> node_at h_grown (4%positive, 0) = Some true.
Proof.
  destruct (alloc_order_is_list_order SIZE_MAX sizeof_ptr sizeof_entry Z 0
              SIZE_MAX_ge 2 (fresh_heap 4) h_created h_grown 1%positive 3
              [Some (3%positive, 0); Some (3%positive, 1); Some (4%positive, 0)]
              ltac:(unfold SIZE_MAX; lia) ltac:(vm_compute; reflexivity)
              ltac:(vm_compute; reflexivity)) as [Hnd Hl].
  split; [exact Hnd|].
  destruct (Hl 1%nat (3%positive, 1) eq_refl) as (nd1 & Hnd1 & Hnx & _).
  destruct (Hl 2%nat (4%positive, 0) eq_refl) as (nd2 & Hnd2 & _ & Hh).
  rewrite Hnd1, Hnd2. cbn [fmap option_fmap option_map]. rewrite Hnx, Hh.
  split; reflexivity.
Defined.

Lemma alloc_count_witness :
  ∃ p, pool_at h_grown 1%positive = Some p ∧
    3 = 2 * (2 ^ index p - 1) + used p.
Proof.
  destruct (alloc_count SIZE_MAX sizeof_ptr sizeof_entry Z 0
              SIZE_MAX_ge 2 (fresh_heap 4) h_created h_grown 1%positive 3
              [Some (3%positive, 0); Some (3%positive, 1); Some (4%positive, 0)]
              ltac:(unfold SIZE_MAX; lia) ltac:(vm_compute; reflexivity)
              ltac:(vm_compute; reflexivity)) as (p & Hp & Hc & _).
  exists p. split; [exact Hp|exact Hc].
Defined.

Lemma block_sizes_representable_witness :
  ∃ c, block_capacity h_grown 4%positive = Some c ∧
    0 < c ∧ c * sizeof_entry <= SIZE_MAX.
Proof.
  destruct (block_sizes_representable SIZE_MAX sizeof_ptr sizeof_entry Z 0
              SIZE_MAX_ge 2 (fresh_heap 4) h_created h_grown 1%positive 3
              [Some (3%positive, 0); Some (3%positive, 1); Some (4%positive, 0)]
              ltac:(unfold SIZE_MAX; lia) ltac:(vm_compute; reflexivity)
              ltac:(vm_compute; reflexivity)) as [_ Hs].
  apply (Hs 1 4%positive 0). vm_compute. reflexivity.
Defined.

Lemma data_pool_alloc_frame_witness :
  ∃ p p', pool_at h_exhausted 1%positive = Some p ∧
    pool_at h_grown 1%positive = Some p' ∧
    blocks p' = blocks p ∧ count p' = count p ∧
    freed h_grown = freed h_exhausted.
Proof.
  destruct (data_pool_alloc_frame SIZE_MAX sizeof_entry Z 0 1%positive
              h_exhausted h_grown (Some (4%positive, 0))
              ltac:(vm_compute; reflexivity))
    as (p & p' & Hp & Hp' & Hb & Hc & Hf & _).
  exists p, p'. split; [exact Hp|]. split; [exact Hp'|]. split; [exact Hb|].
  split; [exact Hc|exact Hf].
Defined.

Lemma data_pool_new_success_needs_witness :
  0 < 2 ∧ 2 * sizeof_entry <= SIZE_MAX ∧ 32 * sizeof_ptr <= SIZE_MAX ∧
  (∃ rest, supply (fresh_heap 4) = true :: true :: true :: rest ∧
           supply h_created = rest) ∧
  objs (fresh_heap 4) !! 1%positive = None ∧
  freed h_created = freed (fresh_heap 4).
Proof.
  apply (data_pool_new_success_needs SIZE_MAX sizeof_ptr sizeof_entry Z 0 2
           (fresh_heap 4) h_created 1%positive);
    [unfold SIZE_MAX; lia | vm_compute; reflexivity].
Defined.

Lemma h_created_inv : pool_inv SIZE_MAX Z 2 1%positive [3%positive] 0 (objs h_created).
Proof.
  exists 2%positive. split; [vm_compute; reflexivity|].
  split; [vm_compute; reflexivity|]. split; [simpl; lia|].
  split; [apply NoDup_singleton|]. split; [lia|].
  split; [unfold SIZE_MAX; vm_compute; discriminate|]. split; [vm_compute; split; discriminate|].
  intros [|k] b Ek; [|done]. injection Ek as <-.
  eexists. split; [vm_compute; reflexivity|]. split; [reflexivity|].
  intros [|[|i]] nd Hnd; simpl in Hnd; try done; injection Hnd as <-;
    split; reflexivity.
Defined.

Lemma data_pool_destroy_all_witness :
  ∃ d h', destroy (Some 1%positive) false h_created = Ok tt h' ∧
    freed h' = freed h_created ++ [3%positive] ++ [d; 1%positive].
Proof.
  destruct (data_pool_destroy_all SIZE_MAX Z SIZE_MAX_ge 2 1%positive
              [3%positive] 0 h_created h_created_inv)
    as (d & h' & E & Hf & _).
  exists d, h'. split; [exact E|exact Hf].
Defined.

Lemma create_alloc_destroy_restores_witness :
  ∃ h3 l, destroy (Some 1%positive) false h_grown = Ok tt h3 ∧
    objs h3 = objs (fresh_heap 4) ∧
    freed h3 = freed (fresh_heap 4) ++ l ∧ NoDup l.
Proof.
  destruct (create_alloc_destroy_restores SIZE_MAX sizeof_ptr sizeof_entry Z 0
              SIZE_MAX_ge 2 (fresh_heap 4) h_created h_grown 1%positive 3
              [Some (3%positive, 0); Some (3%positive, 1); Some (4%positive, 0)]
              ltac:(unfold SIZE_MAX; lia) ltac:(vm_compute; reflexivity)
              ltac:(vm_compute; reflexivity)) as (h3 & l & E & Ho & Hf & Hnd & _).
  exists h3, l. split; [exact E|]. split; [exact Ho|]. split; [exact Hf|exact Hnd].
Defined.

Lemma create_alloc_detach_dispose_restores_witness :
  ∃ h3 h4, destroy (Some 1%positive) true h_grown = Ok tt h3 ∧
    list_destroy 4 (Some (3%positive, 0)) h3 = Ok true h4 ∧
    objs h4 = objs (fresh_heap 4).
Proof.
  destruct (create_alloc_detach_dispose_restores SIZE_MAX sizeof_ptr sizeof_entry
              Z 0 SIZE_MAX_ge 2 (fresh_heap 4) h_created h_grown 1%positive 3 4
              [Some (3%positive, 0); Some (3%positive, 1); Some (4%positive, 0)]
              (3%positive, 0)
              ltac:(unfold SIZE_MAX; lia) ltac:(vm_compute; reflexivity)
              ltac:(vm_compute; reflexivity) eq_refl ltac:(simpl; lia))
    as (h3 & h4 & l & E1 & E2 & Ho & _).
  exists h3, h4. split; [exact E1|]. split; [exact E2|exact Ho].
Defined.

Lemma data_pool_list_destroy_frees_heads_witness :
  supply h_disposed = supply h_detached ∧
  ∃ l, freed h_disposed = freed h_detached ++ l ∧ NoDup l ∧
    objs h_disposed = delete_all l (objs h_detached).
Proof.
  destruct (data_pool_list_destroy_frees_heads Z 4 (Some (3%positive, 0))
              h_detached h_disposed true ltac:(vm_compute; reflexivity))
    as (Hs & l & Hf & Hnd & Ho & _).
  split; [exact Hs|]. exists l. split; [exact Hf|]. split; [exact Hnd|exact Ho].
Defined.

Lemma data_pool_get_list_head_first_head_witness :
  first_head h_grown (Some (3%positive, 1)) (Some (4%positive, 0)).
Proof.
  destruct (data_pool_get_list_head_first_head Z (Some (3%positive, 1))
              (Some (4%positive, 0)) h_grown h_grown) as [H _].
  destruct H as [_ Hf]; [|exact Hf].
  exists 2%nat. vm_compute. reflexivity.
Defined.

Lemma can_multiply_exact_witness :
  can_multiply 100 7 14 = true ↔ 0 < 7 ∧ 7 * 14 <= 100.
Proof. apply (can_multiply_exact 100 7 14). lia. Defined.

Lemma alloc_guards_no_wrap_witness :
  wrap SIZE_MAX (4 * 2) = 4 * 2 ∧
  wrap SIZE_MAX (wrap SIZE_MAX (4 * 2) * sizeof_entry) = 4 * 2 * sizeof_entry.
Proof.
  apply (alloc_guards_no_wrap SIZE_MAX sizeof_entry 4);
    [lia | unfold sizeof_entry; lia | reflexivity | reflexivity].
Defined.

Lemma test_can_multiply_passes_witness :
  test_can_multiply SIZE_MAX sizeof_entry = [true; true; true].
Proof.
  destruct (test_can_multiply_passes SIZE_MAX sizeof_entry SIZE_MAX_ge)
    as (b & E & Hb).
  assert (b = true) as -> by (apply Hb; unfold SIZE_MAX, sizeof_entry; lia).
  exact E.
Defined.

End LP64.
